(** * girlive: account-provisioning orchestration engine

  A shallow embedding of the run supervisor ([AutomationRunner.run]), the
  per-record workflow ([LineAutomation.create_account] and
  [process_account]), the session restore logic ([LineAutomation.login]),
  the record source ([SheetsClient]) and the challenge gate
  ([captcha_callback]), with the properties the specification states about
  them.

  Python values are modelled as follows.
  - [str] is a list of Unicode code points ([list N]); ASCII literals are
    written [py "..."], other literals as explicit code points.
  - [int] is [Z].
  - a [dict] with string keys is a [gmap].
  - an exception is the message [str(e)] gives for it.
  - browser and file-system calls are answered by records of observations
    (what the page showed, which call raised); a [try] block of
    straight-line browser steps is summarised by its outcome, either
    completion or the exception of the first failing step. *)

From Stdlib Require Import ZArith NArith List Bool Lia String Ascii DecimalString.
From stdpp Require Import base gmap list.
Import ListNotations.
Open Scope Z_scope.

(* ===================================================================== *)
(** ** Python strings *)
(* ===================================================================== *)

(** [str.upper] maps every code point through the full uppercase mapping of
  the Unicode database.  The ASCII part is written out below; the mapping
  of the other code points is a table of the interpreter, taken as a
  parameter. *)
Class UnicodeTable := { to_upper_full : N -> list N }.

(** The table restricted to code points without a case mapping (kana, CJK
  ideographs, digits, punctuation): used to run examples. *)
Definition uncased : UnicodeTable := {| to_upper_full c := [c] |}.

Module PyStr.

Abbreviation pystr := (list N).

Definition py (s : string) : pystr := map N_of_ascii (list_ascii_of_string s).

Definition len {A} (l : list A) : Z := Z.of_nat (length l).

Definition between (lo hi c : N) : bool := ((lo <=? c) && (c <=? hi))%N.

(** [str.isspace] for one code point (the whitespace set of CPython). *)
Definition isspace (c : N) : bool :=
  between 9 13 c || between 28 32 c || (c =? 133)%N || (c =? 160)%N
  || (c =? 5760)%N || between 8192 8202 c || (c =? 8232)%N || (c =? 8233)%N
  || (c =? 8239)%N || (c =? 8287)%N || (c =? 12288)%N.

Fixpoint lstrip (s : pystr) : pystr :=
  match s with
  | [] => []
  | c :: r => if isspace c then lstrip r else s
  end.

Definition rstrip (s : pystr) : pystr := rev (lstrip (rev s)).

Definition strip (s : pystr) : pystr := rstrip (lstrip s).

Definition upper_cp `{UnicodeTable} (c : N) : pystr :=
  if between 97 122 c then [(c - 32)%N]
  else if (c <? 128)%N then [c]
  else to_upper_full c.

Definition upper `{UnicodeTable} (s : pystr) : pystr := flat_map upper_cp s.

Fixpoint startswith (s prefix : pystr) {struct prefix} : bool :=
  match prefix, s with
  | [], _ => true
  | p :: prefix', c :: s' => (p =? c)%N && startswith s' prefix'
  | _ :: _, [] => false
  end.

Definition endswith (s suffix : pystr) : bool := startswith (rev s) (rev suffix).

(** [needle in hay] *)
Fixpoint contains (hay needle : pystr) : bool :=
  startswith hay needle ||
  match hay with
  | [] => false
  | _ :: hay' => contains hay' needle
  end.

(** [s[:-n]] for a positive [n] *)
Definition drop_last (n : nat) (s : pystr) : pystr := firstn (length s - n) s.

Definition eqb (s t : pystr) : bool := bool_decide (s = t).

(** [x in l] for a list of strings *)
Definition in_list (x : pystr) (l : list pystr) : bool := existsb (eqb x) l.

(** truth value of a string or of a list *)
Definition truthy {A} (s : list A) : bool :=
  match s with [] => false | _ :: _ => true end.

Definition is_alnum (c : N) : bool :=
  between 97 122 c || between 65 90 c || between 48 57 c.

Fixpoint take_while (p : N -> bool) (s : pystr) : pystr :=
  match s with
  | [] => []
  | c :: r => if p c then c :: take_while p r else []
  end.

End PyStr.
Import PyStr.

(** Exceptions are identified with their message. *)
Abbreviation exn := (list N).

Inductive outcome (A : Type) : Type :=
| Ok (a : A)
| Raised (e : exn).
Arguments Ok {A} a.
Arguments Raised {A} e.

(* ===================================================================== *)
(** ** config/settings.py *)
(* ===================================================================== *)

Module Settings.

Definition MAX_ACCOUNTS : Z := 100.
Definition HEADER_ROWS : Z := 2.

(** ['TRUE', '1', 'はい', 'YES', '有効'] *)
Definition ENABLED_VALUES : list pystr :=
  [ py "TRUE"; py "1"; [12399; 12356]%N; py "YES"; [26377; 21177]%N ].

Definition LINE_MANAGER_URL : pystr := py "https://manager.line.biz/".

End Settings.
Import Settings.

(* ===================================================================== *)
(** ** core/sheets_client.py *)
(* ===================================================================== *)

Module Sheets.

Record AccountRow := {
  row_number : Z;
  enabled : bool;
  line_name : pystr;
  icon_image_url : pystr;
  basic_id : pystr;
  access_token : pystr;
  permission_link : pystr;
  friend_link : pystr;
  business_account : pystr
}.

(** [SheetsClient._col_letter_to_index] *)
Definition _col_letter_to_index `{UnicodeTable} (letter : pystr) : Z :=
  if negb (truthy letter) || eqb letter (py "-") then -1
  else
    fold_left (fun result char => result * 26 + (Z.of_N char - 65 + 1))
              (upper letter) 0 - 1.

(** [SheetsClient._get_cell_value] *)
Definition _get_cell_value (row : list pystr) (col_idx : Z) : pystr :=
  if (col_idx <? 0) || (len row <=? col_idx) then []
  else strip (nth (Z.to_nat col_idx) row []).

(** [column_config.get(key, '')] *)
Definition cfg_get (column_config : gmap pystr pystr) (key : string) : pystr :=
  default [] (column_config !! py key).

Record ColIndices := {
  ix_enabled : Z; ix_line_name : Z; ix_icon_image : Z; ix_basic_id : Z;
  ix_access_token : Z; ix_permission_link : Z; ix_friend_link : Z;
  ix_business_account : Z
}.

Definition col_indices `{UnicodeTable} (column_config : gmap pystr pystr) : ColIndices :=
  {| ix_enabled := _col_letter_to_index (cfg_get column_config "col_enabled");
     ix_line_name := _col_letter_to_index (cfg_get column_config "col_line_name");
     ix_icon_image := _col_letter_to_index (cfg_get column_config "col_icon_image");
     ix_basic_id := _col_letter_to_index (cfg_get column_config "col_basic_id");
     ix_access_token := _col_letter_to_index (cfg_get column_config "col_access_token");
     ix_permission_link := _col_letter_to_index (cfg_get column_config "col_permission_link");
     ix_friend_link := _col_letter_to_index (cfg_get column_config "col_friend_link");
     ix_business_account := _col_letter_to_index (cfg_get column_config "col_business_account") |}.

Definition make_account (ci : ColIndices) (row_idx : Z) (row : list pystr) : AccountRow :=
  {| row_number := row_idx;
     enabled := true;
     line_name := _get_cell_value row (ix_line_name ci);
     icon_image_url := _get_cell_value row (ix_icon_image ci);
     basic_id := _get_cell_value row (ix_basic_id ci);
     access_token := _get_cell_value row (ix_access_token ci);
     permission_link := _get_cell_value row (ix_permission_link ci);
     friend_link := _get_cell_value row (ix_friend_link ci);
     business_account := _get_cell_value row (ix_business_account ci) |}.

(** The body of the [for] loop of [get_enabled_rows]: [rows] is what is
    left of [all_values[HEADER_ROWS:]], [row_idx] the number of its first
    row and [enabled_rows] the list built so far. *)
Fixpoint enabled_loop `{UnicodeTable} (ci : ColIndices) (rows : list (list pystr))
         (row_idx : Z) (enabled_rows : list AccountRow) : list AccountRow :=
  match rows with
  | [] => enabled_rows
  | row :: rest =>
      if MAX_ACCOUNTS <=? len enabled_rows then enabled_rows
      else
        let enabled_idx := ix_enabled ci in
        if (enabled_idx <? 0) || (len row <=? enabled_idx)
        then enabled_loop ci rest (row_idx + 1) enabled_rows
        else
          let enabled_value := upper (strip (nth (Z.to_nat enabled_idx) row [])) in
          if negb (in_list enabled_value ENABLED_VALUES)
          then enabled_loop ci rest (row_idx + 1) enabled_rows
          else enabled_loop ci rest (row_idx + 1)
                            (enabled_rows ++ [make_account ci row_idx row])
  end.

(** 'スプレッドシートに接続していません' *)
Definition NOT_CONNECTED : pystr :=
  [12473; 12503; 12524; 12483; 12489; 12471; 12540; 12488; 12395; 25509;
   32154; 12375; 12390; 12356; 12414; 12379; 12435]%N.

(** [SheetsClient.get_enabled_rows]; [worksheet] is [None] before
    [connect], otherwise what [get_all_values] returns. *)
Definition get_enabled_rows `{UnicodeTable} (worksheet : option (list (list pystr)))
           (column_config : gmap pystr pystr) : outcome (list AccountRow) :=
  match worksheet with
  | None => Raised NOT_CONNECTED
  | Some all_values =>
      if len all_values <? HEADER_ROWS + 1 then Ok []
      else Ok (enabled_loop (col_indices column_config)
                            (skipn (Z.to_nat HEADER_ROWS) all_values)
                            (HEADER_ROWS + 1) [])
  end.

(** One call [update_cell(row, col_letter, value)]. *)
Record CellUpdate := {
  upd_row : Z;
  upd_col_letter : pystr;
  upd_value : pystr
}.

(** [str(n)] for an integer *)
Definition str_of_int (n : Z) : pystr := py (NilEmpty.string_of_int (Z.to_int n)).

(** [SheetsClient.update_cell]: without a worksheet nothing is done;
    otherwise the label [f"{col_letter}{row}"] and the value are handed to
    [update_acell], whose exceptions are caught. *)
Definition update_cell (connected : bool) (u : CellUpdate) : option (pystr * pystr) :=
  if connected
  then Some (upd_col_letter u ++ str_of_int (upd_row u), upd_value u)
  else None.

End Sheets.
Import Sheets.

(* ===================================================================== *)
(** ** core/session_manager.py *)
(* ===================================================================== *)

Module Session.

Abbreviation Cookie := (list N).

(** What [json.load] makes of the session file. *)
Inductive SessionFile :=
| Unreadable                       (* opening or parsing raises *)
| FalsyJson                        (* a falsy value, such as an empty object *)
| NotADict                         (* a truthy value without [get] *)
| Stored (cookies : list Cookie).  (* an object, with its "cookies" entry *)

(** The file system as the session manager sees it: the content of
    [SESSION_FILE], [None] when the file does not exist. *)
Abbreviation FileSystem := (option SessionFile).

(** How a write can go wrong. *)
Inductive SaveFault :=
| WriteOk
| OpenFails     (* [mkdir] or [open] raises: the file is left as it was *)
| DumpFails.    (* [json.dump] raises after [open] truncated the file *)

(** [SessionManager.has_session] *)
Definition has_session (fs : FileSystem) : bool :=
  match fs with Some _ => true | None => false end.

(** [SessionManager.load_session] *)
Definition load_session (fs : FileSystem) : option SessionFile :=
  match fs with
  | None => None
  | Some Unreadable => None
  | Some session_data => Some session_data
  end.

(** [SessionManager.save_session] *)
Definition save_session (fault : SaveFault) (cookies : list Cookie)
           (fs : FileSystem) : bool * FileSystem :=
  match fault with
  | WriteOk => (true, Some (Stored cookies))
  | OpenFails => (false, fs)
  | DumpFails => (false, Some Unreadable)
  end.

(** [SessionManager.clear_session]; [unlink_raises] tells whether the file
    system refuses the removal. *)
Definition clear_session (unlink_raises : bool) (fs : FileSystem) : bool * FileSystem :=
  match fs with
  | Some _ => if unlink_raises then (false, fs) else (true, None)
  | None => (true, fs)
  end.

End Session.
Import Session.

(* ===================================================================== *)
(** ** core/line_automation.py *)
(* ===================================================================== *)

Module Automation.

Record AutomationResult := {
  row_number : Z;
  success : bool;
  basic_id : pystr;
  permission_link : pystr;
  friend_link : pystr;
  access_token : option pystr;     (* [None] is Python's [None] *)
  error_message : pystr
}.

(** [AutomationResult(row_number=..., success=False)] *)
Definition new_result (row : Z) : AutomationResult :=
  {| row_number := row; success := false; basic_id := [];
     permission_link := []; friend_link := []; access_token := Some [];
     error_message := [] |}.

(** truth value of an [Optional[str]] *)
Definition truthy_opt (o : option pystr) : bool :=
  match o with Some s => truthy s | None => false end.

(* ------------------------------------------------------------------- *)
(** *** Authentication *)

(** State of a [LineAutomation] object and of the session file. *)
Record AuthState := {
  fs : FileSystem;
  is_logged_in : bool;
  context_cookies : list Cookie     (* cookies given to [add_cookies] *)
}.

(** The calls [login] makes, in the order it makes them. *)
Inductive AuthEvent :=
| EvLoadSession
| EvAddCookies (cookies : list Cookie)
| EvNavigate (url : pystr)
| EvClearSession (removed : bool)
| EvLoginWithCredentials
| EvSubmitCredentials
| EvCaptchaWait
| EvSaveSession (saved : bool).

(** What the browser does during [_try_restore_session]. *)
Record RestoreEnv := {
  add_cookies_raises : option exn;
  navigate_raises : option exn;
  restored_url : pystr;              (* [get_current_url()] after the navigation *)
  unlink_raises : bool
}.

(** What the browser does during [_login_with_credentials]. *)
Record CredEnv := {
  login_nav : option exn;            (* [navigate(LINE_LOGIN_URL)], outside the [try] *)
  form_steps : option exn;           (* clicks, typing, Enter: lines 214-238 *)
  captcha_after_submit : bool;       (* first [_detect_captcha()] *)
  url_wait : option exn;             (* [wait_for_url], [None] when it succeeds *)
  url_on_timeout : pystr;
  captcha_on_timeout : bool;         (* second [_detect_captcha()] *)
  url_after_retry : pystr;
  browser_cookies : outcome (list Cookie);   (* [context.cookies()] *)
  save_fault : SaveFault
}.

(** [LineAutomation._try_restore_session] *)
Definition _try_restore_session (env : RestoreEnv) (st : AuthState)
  : bool * AuthState * list AuthEvent :=
  if negb (has_session (fs st)) then (false, st, [])
  else
    match load_session (fs st) with
    | None => (false, st, [EvLoadSession])
    | Some FalsyJson => (false, st, [EvLoadSession])
    | Some Unreadable => (false, st, [EvLoadSession])
    | Some NotADict => (false, st, [EvLoadSession])      (* [.get] raises, caught *)
    | Some (Stored cookies) =>
        let add := if truthy cookies then [EvAddCookies cookies] else [] in
        match (if truthy cookies then add_cookies_raises env else None) with
        | Some _ => (false, st, EvLoadSession :: add)
        | None =>
            let st1 := {| fs := fs st; is_logged_in := is_logged_in st;
                          context_cookies := if truthy cookies
                                             then context_cookies st ++ cookies
                                             else context_cookies st |} in
            match navigate_raises env with
            | Some _ => (false, st1, EvLoadSession :: add ++ [EvNavigate LINE_MANAGER_URL])
            | None =>
                let current_url := restored_url env in
                if contains current_url (py "manager.line.biz")
                   && negb (contains current_url (py "login"))
                then (true,
                      {| fs := fs st1; is_logged_in := true;
                         context_cookies := context_cookies st1 |},
                      EvLoadSession :: add ++ [EvNavigate LINE_MANAGER_URL])
                else
                  let '(removed, fs') := clear_session (unlink_raises env) (fs st1) in
                  (false,
                   {| fs := fs'; is_logged_in := is_logged_in st1;
                      context_cookies := context_cookies st1 |},
                   EvLoadSession :: add
                     ++ [EvNavigate LINE_MANAGER_URL; EvClearSession removed])
            end
        end
    end.

(** [LineAutomation._save_session] *)
Definition _save_session (env : CredEnv) (st : AuthState) : AuthState * list AuthEvent :=
  match browser_cookies env with
  | Raised _ => (st, [])
  | Ok cookies =>
      let '(saved, fs') := save_session (save_fault env) cookies (fs st) in
      ({| fs := fs'; is_logged_in := is_logged_in st;
          context_cookies := context_cookies st |}, [EvSaveSession saved])
  end.

Definition logged_in (st : AuthState) : AuthState :=
  {| fs := fs st; is_logged_in := true; context_cookies := context_cookies st |}.

(** [LineAutomation._login_with_credentials] *)
Definition _login_with_credentials (env : CredEnv) (st : AuthState)
  : outcome bool * AuthState * list AuthEvent :=
  match login_nav env with
  | Some e => (Raised e, st, [EvLoginWithCredentials])
  | None =>
      match form_steps env with
      | Some _ => (Ok false, st, [EvLoginWithCredentials])
      | None =>
          let ev1 := [EvLoginWithCredentials; EvSubmitCredentials]
                       ++ (if captcha_after_submit env then [EvCaptchaWait] else []) in
          match url_wait env with
          | None =>
              let '(st', evs) := _save_session env (logged_in st) in
              (Ok true, st', ev1 ++ evs)
          | Some _ =>
              let current_url := if captcha_on_timeout env
                                 then url_after_retry env else url_on_timeout env in
              let ev2 := ev1 ++ (if captcha_on_timeout env then [EvCaptchaWait] else []) in
              if contains current_url (py "manager.line.biz")
              then let '(st', evs) := _save_session env (logged_in st) in
                   (Ok true, st', ev2 ++ evs)
              else (Ok false, st, ev2)
          end
      end
  end.

(** [LineAutomation.login] *)
Definition login (renv : RestoreEnv) (cenv : CredEnv) (st : AuthState)
  : outcome bool * AuthState * list AuthEvent :=
  let '(restored, st1, ev1) := _try_restore_session renv st in
  if restored then (Ok true, st1, ev1)
  else
    let '(r, st2, ev2) := _login_with_credentials cenv st1 in
    (r, st2, ev1 ++ ev2).

(* ------------------------------------------------------------------- *)
(** *** The per-record workflow *)

(** [LineAutomation._extract_basic_id]: the leftmost match of
    [(@[a-zA-Z0-9]+)] in [url], or the empty string. *)
Fixpoint _extract_basic_id (url : pystr) : pystr :=
  match url with
  | [] => []
  | c :: rest =>
      if (c =? 64)%N && truthy (take_while is_alnum rest)
      then c :: take_while is_alnum rest
      else _extract_basic_id rest
  end.

(** [_add_permission]: the page of the access-control surface. *)
Record PermissionPage := {
  perm_open : option exn;        (* navigation up to [wait_for_selector] *)
  perm_value : outcome pystr;    (* [input_element.input_value()] *)
  perm_close : option exn        (* closing the dialog *)
}.

(** [LineAutomation._add_permission] *)
Definition _add_permission (page : PermissionPage) : pystr :=
  match perm_open page with
  | Some _ => []
  | None => match perm_value page with
            | Raised _ => []
            | Ok permission_link => permission_link
            end
  end.

Record UrlElement := {
  el_input_value : outcome pystr;
  el_text_content : outcome (option pystr)
}.

(** [_get_friend_link]: the page of the subscription-link surface. *)
Record FriendPage := {
  friend_open : option exn;            (* navigation, click and [query_selector] *)
  url_element : option UrlElement
}.

(** [LineAutomation._get_friend_link] *)
Definition _get_friend_link (page : FriendPage) : pystr :=
  match friend_open page with
  | Some _ => []
  | None =>
      match url_element page with
      | None => []
      | Some el =>
          match el_input_value el with
          | Raised _ => []
          | Ok v =>
              if truthy v then v
              else match el_text_content el with
                   | Raised _ => []
                   | Ok (Some t) => if truthy t then t else []
                   | Ok None => []
                   end
          end
      end
  end.

(** What [el.text_content()] gives for one element of the scan. *)
Inductive TextRead :=
| ReadRaises (e : exn)
| ReadText (text : option pystr).

(** '再発行' *)
Definition REISSUE_JA : pystr := [20877; 30330; 34892]%N.

(** Lines 814-819: the text of a node as it is compared. *)
Definition strip_label (text : pystr) : pystr :=
  let text := strip text in
  if endswith text (py "Reissue") then strip (drop_last 7 text)
  else if endswith text REISSUE_JA then strip (drop_last 3 text)
  else text.

(** a character of the class [[a-zA-Z0-9+/=]] *)
Definition is_token_char (c : N) : bool :=
  is_alnum c || (c =? 43)%N || (c =? 47)%N || (c =? 61)%N.

(** [re.match(r'^[a-zA-Z0-9+/=]+$', text)]: a non-empty run of the class,
    up to the end of the string or to a newline that ends it. *)
Definition re_match_token (text : pystr) : bool :=
  let run := take_while is_token_char text in
  let rest := skipn (length run) text in
  truthy run && (eqb rest [] || eqb rest [10%N]).

(** Line 823 *)
Definition looks_like_token (text : pystr) : bool :=
  (100 <? len text) && negb (contains text (py " ")) && re_match_token text.

(** The [for el in elements] loop of [_get_access_token]: the value of
    [access_token] when the loop ends, or the exception a read raised. *)
Fixpoint scan_elements (elements : list TextRead) : outcome pystr :=
  match elements with
  | [] => Ok []
  | ReadRaises e :: _ => Raised e
  | ReadText None :: rest => scan_elements rest
  | ReadText (Some text) :: rest =>
      if negb (truthy text) then scan_elements rest
      else
        let text := strip_label text in
        if looks_like_token text then Ok text else scan_elements rest
  end.

(** The developer console while the token is read. *)
Record TokenPage := {
  console_steps : option exn;                 (* steps 1 to 5, lines 721-802 *)
  elements : outcome (list TextRead);         (* [query_selector_all] *)
  copyable : outcome (option (outcome (option pystr)));
      (* [query_selector('div.copyable')], then [get_attribute('content')] *)
  debug_dump : option exn                     (* [page.content()] and the file write *)
}.

Inductive TokenEvent :=
| EvScan
| EvFallback
| EvDebugDump.

(** Lines 804-836: the value of [access_token] after the two strategies. *)
Definition find_token (page : TokenPage) : option pystr * list TokenEvent :=
  match elements page with
  | Raised _ => (Some [], [EvScan])
  | Ok els =>
      match scan_elements els with
      | Raised _ => (Some [], [EvScan])
      | Ok access_token =>
          if negb (truthy access_token) then
            match copyable page with
            | Raised _ => (Some [], [EvScan; EvFallback])
            | Ok None => (Some [], [EvScan; EvFallback])
            | Ok (Some (Raised _)) => (Some [], [EvScan; EvFallback])
            | Ok (Some (Ok content)) => (content, [EvScan; EvFallback])
            end
          else (Some access_token, [EvScan])
      end
  end.

(** [LineAutomation._get_access_token] *)
Definition _get_access_token (page : TokenPage) : option pystr * list TokenEvent :=
  match console_steps page with
  | Some _ => (Some [], [])
  | None =>
      let '(access_token, evs) := find_token page in
      match access_token with
      | Some (c :: t) => (Some (strip (c :: t)), evs)
      | _ => (access_token, evs ++ [EvDebugDump])
      end
  end.

(** What the site does while one record is processed. *)
Record Workflow := {
  creation_steps : option exn;     (* lines 298-408, up to the reload *)
  reloaded_url : pystr;            (* [get_current_url()] after the reload *)
  icon_steps : option exn;         (* the [try] block of [_change_icon] *)
  api_steps : option exn;          (* the [try] block of [_enable_messaging_api] *)
  perm_page : PermissionPage;
  friend_page : FriendPage;
  token_page : TokenPage
}.

(** The phases of [create_account] after the creation, with the
    arguments they are called with. *)
Inductive PhaseCall :=
| Call_change_icon (basic_id image_path : pystr)
| Call_enable_messaging_api (basic_id : pystr)
| Call_add_permission (basic_id : pystr)
| Call_get_friend_link (basic_id : pystr)
| Call_get_access_token (line_name : pystr).

(** [LineAutomation.create_account]: the result and the phases called. *)
Definition create_account (w : Workflow) (account : AccountRow) (image_path : pystr)
  : AutomationResult * list PhaseCall :=
  let result := new_result (Sheets.row_number account) in
  match creation_steps w with
  | Some e =>
      ({| row_number := row_number result; success := false;
          basic_id := basic_id result; permission_link := permission_link result;
          friend_link := friend_link result; access_token := access_token result;
          error_message := e |}, [])
  | None =>
      let current_url := reloaded_url w in
      let id := _extract_basic_id current_url in
      let icon := if truthy image_path then [Call_change_icon id image_path] else [] in
      let permission := _add_permission (perm_page w) in
      let friend := _get_friend_link (friend_page w) in
      let token := fst (_get_access_token (token_page w)) in
      ({| row_number := row_number result; success := true;
          basic_id := id; permission_link := permission;
          friend_link := friend; access_token := token;
          error_message := error_message result |},
       icon ++ [Call_enable_messaging_api id; Call_add_permission id;
                Call_get_friend_link id;
                Call_get_access_token (Sheets.line_name account)])
  end.

(** [column_config[key]] *)
Definition subscript (column_config : gmap pystr pystr) (key : string) : outcome pystr :=
  match column_config !! py key with
  | Some v => Ok v
  | None => Raised (py "KeyError")
  end.

(** One guarded write of [process_account]:
    [if value and column_config.get(key, '-') != '-': update_cell(...)].
    [issued] is the list of the [update_cell] calls made so far. *)
Definition write_back (has_value : bool) (row : Z) (column_config : gmap pystr pystr)
           (key : string) (value : pystr) (issued : list CellUpdate)
  : outcome unit * list CellUpdate :=
  if has_value && negb (eqb (default (py "-") (column_config !! py key)) (py "-"))
  then match subscript column_config key with
       | Ok col_letter =>
           (Ok tt, issued ++ [{| upd_row := row; upd_col_letter := col_letter;
                                 upd_value := value |}])
       | Raised e => (Raised e, issued)
       end
  else (Ok tt, issued).

(** Sequencing of calls that may raise, over the list of issued updates. *)
Definition and_then (first : outcome unit * list CellUpdate)
           (next : list CellUpdate -> outcome unit * list CellUpdate)
  : outcome unit * list CellUpdate :=
  match first with
  | (Ok _, issued) => next issued
  | (Raised e, issued) => (Raised e, issued)
  end.

(** Lines 917-956 *)
Definition write_results (email : pystr) (account : AccountRow)
           (column_config : gmap pystr pystr) (result : AutomationResult)
  : outcome unit * list CellUpdate :=
  let row := Sheets.row_number account in
  if success result then
    and_then (write_back (truthy (basic_id result)) row column_config
                         "col_basic_id" (basic_id result) []) (fun issued =>
    and_then (write_back (truthy (permission_link result)) row column_config
                         "col_permission_link" (permission_link result) issued) (fun issued =>
    and_then (write_back (truthy (friend_link result)) row column_config
                         "col_friend_link" (friend_link result) issued) (fun issued =>
    and_then (write_back (truthy_opt (access_token result)) row column_config
                         "col_access_token" (default [] (access_token result)) issued)
             (fun issued =>
    write_back true row column_config "col_business_account" email issued))))
  else (Ok tt, []).

(** What [process_account] returns or raises, with its effects. *)
Record Processed := {
  returned : outcome AutomationResult;
  updates : list CellUpdate;          (* the [update_cell] calls, in order *)
  phases : list PhaseCall;
  tabs_closed : bool                  (* [close_other_tabs] was reached *)
}.

(** [LineAutomation.process_account] *)
Definition process_account (email : pystr) (w : Workflow) (account : AccountRow)
           (image_path : pystr) (column_config : gmap pystr pystr) : Processed :=
  let '(result, calls) := create_account w account image_path in
  match write_results email account column_config result with
  | (Ok _, issued) =>
      {| returned := Ok result; updates := issued; phases := calls;
         tabs_closed := true |}
  | (Raised e, issued) =>
      {| returned := Raised e; updates := issued; phases := calls;
         tabs_closed := false |}
  end.

End Automation.

(* ===================================================================== *)
(** ** core/automation_runner.py *)
(* ===================================================================== *)

Module Runner.
Import Automation.

Record RunnerConfig := {
  email : pystr;
  password : pystr;
  sheet_url : pystr;
  sheet_name : pystr;
  icon_save_path : pystr;
  headless : bool;
  biz_manager_enabled : bool;
  biz_manager_name : pystr;
  col_enabled : pystr;
  col_line_name : pystr;
  col_icon_image : pystr;
  col_basic_id : pystr;
  col_access_token : pystr;
  col_permission_link : pystr;
  col_friend_link : pystr;
  col_business_account : pystr
}.

(** [RunnerConfig(email, password, sheet_url, sheet_name, icon_save_path)]:
    every other field at its default. *)
Definition default_config (email password sheet_url sheet_name icon_save_path : pystr)
  : RunnerConfig :=
  {| email := email; password := password; sheet_url := sheet_url;
     sheet_name := sheet_name; icon_save_path := icon_save_path;
     headless := false; biz_manager_enabled := false; biz_manager_name := [];
     col_enabled := []; col_line_name := []; col_icon_image := [];
     col_basic_id := []; col_access_token := []; col_permission_link := [];
     col_friend_link := []; col_business_account := [] |}.

(** [AutomationRunner.get_column_config] *)
Definition get_column_config (config : RunnerConfig) : gmap pystr pystr :=
  <[py "col_enabled" := col_enabled config]>
  (<[py "col_line_name" := col_line_name config]>
  (<[py "col_icon_image" := col_icon_image config]>
  (<[py "col_basic_id" := col_basic_id config]>
  (<[py "col_access_token" := col_access_token config]>
  (<[py "col_permission_link" := col_permission_link config]>
  (<[py "col_friend_link" := col_friend_link config]>
  (<[py "col_business_account" := col_business_account config]> ∅))))))).

(** The fields of an [AutomationRunner] that [run] and the control calls
    touch, with what the run has done so far. *)
Record RunnerState := {
  is_running : bool;
  is_paused : bool;
  should_stop : bool;
  results : list AutomationResult;
  started : list AccountRow;            (* records given to [process_account] *)
  progress : list (Z * Z);              (* [on_progress_update] calls *)
  sheet_updates : list CellUpdate;      (* [update_cell] calls *)
  browser_stops : nat                   (* [automation.stop()] calls *)
}.

Definition initial : RunnerState :=
  {| is_running := false; is_paused := false; should_stop := false;
     results := []; started := []; progress := []; sheet_updates := [];
     browser_stops := 0 |}.

Definition set_flags (running paused stop : bool) (st : RunnerState) : RunnerState :=
  {| is_running := running; is_paused := paused; should_stop := stop;
     results := results st; started := started st; progress := progress st;
     sheet_updates := sheet_updates st; browser_stops := browser_stops st |}.

(** [AutomationRunner.pause] *)
Definition pause (st : RunnerState) : RunnerState :=
  set_flags (is_running st) true (should_stop st) st.

(** [AutomationRunner.resume] *)
Definition resume (st : RunnerState) : RunnerState :=
  set_flags (is_running st) false (should_stop st) st.

(** [AutomationRunner.stop] *)
Definition stop (st : RunnerState) : RunnerState :=
  set_flags (is_running st) false true st.

(** A call of the control context. *)
Inductive Control := Pause | Resume | Stop.

Definition control (c : Control) : RunnerState -> RunnerState :=
  match c with Pause => pause | Resume => resume | Stop => stop end.

(** The control context runs beside the worker; the worker reads the
    flags between its [await]s.  A schedule lists, for each [await] of
    [run] in turn, the control calls made while the worker is suspended
    there; when the list is used up no further call is ever made.  (A call
    made between two reads of the flags without an [await] acts like a call
    made during the [await] before or after them: [should_stop] is read at
    the top of the loop body and after each sleep of the pause wait,
    [is_paused] at the head of the pause wait.) *)
Abbreviation Schedule := (list (list Control)).

Definition deliver (calls : list Control) (st : RunnerState) : RunnerState :=
  fold_left (fun s c => control c s) calls st.

(** One [await] of the worker. *)
Definition await (sched : Schedule) (st : RunnerState) : Schedule * RunnerState :=
  match sched with
  | [] => ([], st)
  | calls :: sched' => (sched', deliver calls st)
  end.

(** Lines 166-169: [while self.is_paused: await asyncio.sleep(1) ...].
    [None] for the schedule: the loop never ends. *)
Fixpoint pause_wait (sched : Schedule) (st : RunnerState)
  : option Schedule * RunnerState :=
  if is_paused st then
    match sched with
    | [] => (None, st)
    | calls :: sched' =>
        let st' := deliver calls st in
        if should_stop st' then (Some sched', st')       (* [break] *)
        else pause_wait sched' st'
    end
  else (Some sched, st).

Definition report_progress (current total : Z) (st : RunnerState) : RunnerState :=
  {| is_running := is_running st; is_paused := is_paused st;
     should_stop := should_stop st; results := results st;
     started := started st; progress := progress st ++ [(current, total)];
     sheet_updates := sheet_updates st; browser_stops := browser_stops st |}.

Definition record_start (account : AccountRow) (p : Processed) (st : RunnerState)
  : RunnerState :=
  {| is_running := is_running st; is_paused := is_paused st;
     should_stop := should_stop st; results := results st;
     started := started st ++ [account]; progress := progress st;
     sheet_updates := sheet_updates st ++ updates p;
     browser_stops := browser_stops st |}.

Definition append_result (result : AutomationResult) (st : RunnerState) : RunnerState :=
  {| is_running := is_running st; is_paused := is_paused st;
     should_stop := should_stop st; results := results st ++ [result];
     started := started st; progress := progress st;
     sheet_updates := sheet_updates st; browser_stops := browser_stops st |}.

Inductive LoopExit :=
| Exhausted                 (* every record was visited *)
| Interrupted               (* [break] at line 163 *)
| Aborted (e : exn)         (* an exception left the loop *)
| Hung.                     (* the pause wait never ends *)

(** Lines 159-188: the [for idx, account in enumerate(self.accounts)]
    loop, from index [idx] on. *)
Fixpoint run_loop (process : AccountRow -> Processed) (total : Z)
         (accounts : list AccountRow) (idx : Z) (sched : Schedule)
         (st : RunnerState) : LoopExit * RunnerState :=
  match accounts with
  | [] => (Exhausted, st)
  | account :: rest =>
      if should_stop st then (Interrupted, st)
      else
        match pause_wait sched st with
        | (None, st1) => (Hung, st1)
        | (Some sched1, st1) =>
            let st2 := report_progress (idx + 1) total st1 in
            let p := process account in
            let '(sched2, st3) := await sched1 (record_start account p st2) in
            match returned p with
            | Raised e => (Aborted e, st3)
            | Ok result =>
                let st4 := append_result result st3 in
                let '(sched3, st5) := await sched2 st4 in    (* [sleep(2)] *)
                run_loop process total rest (idx + 1) sched3 st5
            end
        end
  end.

(** What the collaborators of [run] do. *)
Record RunEnv := {
  connect_ok : bool;                        (* [sheets_client.connect] *)
  all_values : list (list pystr);           (* the worksheet *)
  row_to_image : outcome (gmap Z pystr);    (* [download_all], second component *)
  start_ok : bool;                          (* [automation.start()] *)
  restore_env : RestoreEnv;
  cred_env : CredEnv;
  auth0 : AuthState;
  site : AccountRow -> Workflow;
  schedule : Schedule
}.

Inductive RunReturn :=
| Returns (results : list AutomationResult)
| NeverReturns.

(** The [finally] clause of [run]. *)
Definition cleanup (automation_created : bool) (st : RunnerState) : RunnerState :=
  {| is_running := false; is_paused := is_paused st;
     should_stop := should_stop st; results := results st;
     started := started st; progress := progress st;
     sheet_updates := sheet_updates st;
     browser_stops := if automation_created then S (browser_stops st)
                      else browser_stops st |}.

Definition stop_browser (st : RunnerState) : RunnerState :=
  {| is_running := is_running st; is_paused := is_paused st;
     should_stop := should_stop st; results := results st;
     started := started st; progress := progress st;
     sheet_updates := sheet_updates st; browser_stops := S (browser_stops st) |}.

(** The records [run] works on: [get_enabled_rows] of the worksheet. *)
Definition eligible `{UnicodeTable} (config : RunnerConfig) (env : RunEnv)
  : outcome (list AccountRow) :=
  get_enabled_rows (Some (all_values env)) (get_column_config config).

(** The call of [process_account] at lines 179-184. *)
Definition process_with (config : RunnerConfig) (env : RunEnv)
           (images : gmap Z pystr) (account : AccountRow) : Processed :=
  process_account (email config) (site env account) account
                  (default [] (images !! Sheets.row_number account))
                  (get_column_config config).

(** [AutomationRunner.run], started in state [st0]. *)
Definition run `{UnicodeTable} (config : RunnerConfig) (env : RunEnv)
           (st0 : RunnerState) : RunReturn * RunnerState :=
  let st := {| is_running := true; is_paused := is_paused st0;
               should_stop := false; results := [];
               started := started st0; progress := progress st0;
               sheet_updates := sheet_updates st0;
               browser_stops := browser_stops st0 |} in
  if negb (connect_ok env) then (Returns [], cleanup false st)
  else
    match eligible config env with
    | Raised _ => (Returns (results st), cleanup false st)
    | Ok accounts =>
        if negb (truthy accounts) then (Returns [], cleanup false st)
        else
          match row_to_image env with
          | Raised _ => (Returns (results st), cleanup false st)
          | Ok images =>
              let '(sched1, st1) := await (schedule env) st in   (* [start()] *)
              if negb (start_ok env) then (Returns [], cleanup true st1)
              else
                let '(sched2, st2) := await sched1 st1 in        (* [login()] *)
                match fst (fst (login (restore_env env) (cred_env env) (auth0 env))) with
                | Raised _ => (Returns (results st2), cleanup true st2)
                | Ok false => (Returns [], cleanup true (stop_browser st2))
                | Ok true =>
                    match run_loop (process_with config env images) (len accounts)
                                   accounts 0 sched2 st2 with
                    | (Hung, st3) => (NeverReturns, st3)
                    | (_, st3) => (Returns (results st3), cleanup true st3)
                    end
                end
          end
    end.

End Runner.

(* ===================================================================== *)
(** ** app.py: the challenge gate *)
(* ===================================================================== *)

Module App.

(** The state shared by the worker thread and the window: the flag of
    [self._captcha_event], the [threading.Event] objects created, the
    [captcha_required] notifications emitted and those whose dialog is
    still to be answered, and the time in milliseconds. *)
Record AppState := {
  captcha_event : bool;
  events_created : nat;
  emitted : nat;
  pending : nat;
  clock_ms : Z
}.

(** How the operator closes a [CaptchaDialog]. *)
Inductive Answer := Accepted | Rejected.

(** Line 945: [self._captcha_event = threading.Event()] *)
Definition create_event (st : AppState) : AppState :=
  {| captcha_event := false; events_created := S (events_created st);
     emitted := emitted st; pending := pending st; clock_ms := clock_ms st |}.

(** [LineAutomationApp._on_captcha_required], run by the window for a
    notification; [answer] is what [dialog.exec()] returns. *)
Definition _on_captcha_required (answer : Answer) (st : AppState) : AppState :=
  match pending st with
  | O => st                                   (* no notification, no dialog *)
  | S n =>
      {| captcha_event := match answer with
                          | Accepted => true
                          | Rejected => captcha_event st
                          end;
         events_created := events_created st; emitted := emitted st;
         pending := n; clock_ms := clock_ms st |}
  end.

(** [self.worker_signals.captcha_required.emit()] *)
Definition emit (st : AppState) : AppState :=
  {| captcha_event := captcha_event st; events_created := events_created st;
     emitted := S (emitted st); pending := S (pending st);
     clock_ms := clock_ms st |}.

(** [self._captcha_event.clear()] *)
Definition clear (st : AppState) : AppState :=
  {| captcha_event := false; events_created := events_created st;
     emitted := emitted st; pending := pending st; clock_ms := clock_ms st |}.

Definition POLL_MS : Z := 500.

(** [await asyncio.sleep(0.5)]: the dialogs answered meanwhile take
    effect, and the clock advances by the interval. *)
Definition tick (ms : Z) (st : AppState) : AppState :=
  {| captcha_event := captcha_event st; events_created := events_created st;
     emitted := emitted st; pending := pending st;
     clock_ms := clock_ms st + ms |}.

Definition sleep (answers : list Answer) (st : AppState) : AppState :=
  tick POLL_MS (fold_left (fun s a => _on_captcha_required a s) answers st).

(** Lines 952-954.  The schedule lists, for each sleep in turn, the
    answers the operator gives during it; when it is used up the operator
    gives no further answer.  [None]: the loop never ends. *)
Fixpoint poll (sched : list (list Answer)) (st : AppState)
  : option (list (list Answer)) * AppState :=
  if captcha_event st then (Some sched, clear st)
  else
    match sched with
    | [] => (None, st)
    | answers :: sched' => poll sched' (sleep answers st)
    end.

(** [captcha_callback] *)
Definition captcha_callback (sched : list (list Answer)) (st : AppState)
  : option (list (list Answer)) * AppState :=
  poll sched (emit st).

End App.

(* ===================================================================== *)
(** ** The statements of the specification, in its own words *)
(* ===================================================================== *)

Module SheetsSpec.

(** The rows with their sheet numbers, the first one numbered [first]. *)
Fixpoint numbered (rows : list (list pystr)) (first : Z) : list (Z * list pystr) :=
  match rows with
  | [] => []
  | row :: rest => (first, row) :: numbered rest (first + 1)
  end.

(** The cell of the enabled column, when the column is mapped and the
    row reaches it. *)
Definition enabled_cell (ci : ColIndices) (row : list pystr) : option pystr :=
  if (0 <=? ix_enabled ci) && (ix_enabled ci <? len row)
  then Some (nth (Z.to_nat (ix_enabled ci)) row [])
  else None.

(** A row is eligible when that cell, trimmed and uppercased, is one of
    the allow-list tokens. *)
Definition is_eligible `{UnicodeTable} (ci : ColIndices) (nr : Z * list pystr) : bool :=
  match enabled_cell ci (snd nr) with
  | Some cell => in_list (upper (strip cell)) ENABLED_VALUES
  | None => false
  end.

(** The eligible rows after the header rows, in sheet order, cut at the
    maximum. *)
Definition enabled_rows_spec `{UnicodeTable} (column_config : gmap pystr pystr)
           (all_values : list (list pystr)) : list AccountRow :=
  let ci := col_indices column_config in
  firstn (Z.to_nat MAX_ACCOUNTS)
         (map (fun nr => make_account ci (fst nr) (snd nr))
              (List.filter (is_eligible ci)
                           (numbered (skipn (Z.to_nat HEADER_ROWS) all_values)
                                     (HEADER_ROWS + 1)))).

End SheetsSpec.

Module WriteBackSpec.

(** One update for a slot that holds a value and whose column is
    configured, that is, is not the sentinel "-"; none otherwise. *)
Definition guarded (row : Z) (col_letter value : pystr) (populated : bool)
  : list CellUpdate :=
  if populated && negb (eqb col_letter (py "-"))
  then [{| upd_row := row; upd_col_letter := col_letter; upd_value := value |}]
  else [].

End WriteBackSpec.

Module RunnerSpec.
Import Runner.

(** Two states of the runner hold the same work: the same results, the
    same records started and the same cell updates. *)
Definition same_work (st st' : RunnerState) : Prop :=
  results st' = results st /\ started st' = started st
  /\ sheet_updates st' = sheet_updates st.

(** The image paths [run] works with. *)
Definition images_of (env : RunEnv) : gmap Z pystr :=
  match row_to_image env with
  | Ok images => images
  | Raised _ => ∅
  end.

(** The result of the workflow of one record in a run. *)
Definition result_in (env : RunEnv) (account : AccountRow)
  : Automation.AutomationResult :=
  fst (Automation.create_account
         (site env account) account
         (default [] (images_of env !! Sheets.row_number account))).

End RunnerSpec.

Module AuthSpec.
Import Automation.

Definition is_attempt (e : AuthEvent) : bool :=
  match e with EvLoginWithCredentials => true | _ => false end.

Definition is_save (e : AuthEvent) : bool :=
  match e with EvSaveSession _ => true | _ => false end.

Definition is_clear (e : AuthEvent) : bool :=
  match e with EvClearSession _ => true | _ => false end.

(** How many events of a kind a run has. *)
Definition count (kind : AuthEvent -> bool) (events : list AuthEvent) : nat :=
  length (List.filter kind events).

(** The address is the authenticated manager surface. *)
Definition on_manager (url : pystr) : bool :=
  contains url (py "manager.line.biz") && negb (contains url (py "login")).

End AuthSpec.

Module WorkflowSpec.
Import Automation.

(** The address holds an identifier: an '@' followed by an alphanumeric
    character. *)
Definition has_identifier (url : pystr) : Prop :=
  exists before c after,
    url = before ++ 64%N :: c :: after /\ is_alnum c = true.

(** The workflow of a record stops at the creation: the result is a
    failure with a message, and no later phase is called. *)
Definition stops_at_creation (w : Workflow) (account : AccountRow)
           (image_path : pystr) : Prop :=
  success (fst (create_account w account image_path)) = false
  /\ error_message (fst (create_account w account image_path)) <> []
  /\ snd (create_account w account image_path) = [].

(** "Failure to extract an identifier is a hard failure for the record." *)
Definition missing_identifier_is_fatal (w : Workflow) (account : AccountRow)
           (image_path : pystr) : Prop :=
  creation_steps w = None ->
  ~ has_identifier (reloaded_url w) ->
  stops_at_creation w account image_path.

End WorkflowSpec.

Module TokenSpec.
Import Automation.

(** "the characters a-z, A-Z, 0-9, '+', '/', '='" *)
Definition alphabet : pystr :=
  py "abcdefghijklmnopqrstuvwxyzABCDEFGHIJKLMNOPQRSTUVWXYZ0123456789+/=".

(** "length greater than 100, contains no space character, and consists
    only of the characters" of the alphabet *)
Definition token_shape (s : pystr) : Prop :=
  100 < len s /\ ~ In 32%N s /\ Forall (fun c => In c alphabet) s.

(** A text node the scan takes: it has a text, and the text without its
    button label and surrounding whitespace has the shape of a token. *)
Definition accepted (r : TextRead) : Prop :=
  match r with
  | ReadText (Some text) => text <> [] /\ token_shape (strip_label text)
  | _ => False
  end.

Definition raises (r : TextRead) : Prop :=
  match r with ReadRaises _ => True | ReadText _ => False end.

End TokenSpec.

(* ===================================================================== *)
(** ** Concrete runs *)
(* ===================================================================== *)

Module Examples.
Import Automation Runner.

(** A channel access token: 121 characters of the base64 alphabet. *)
Definition token121 : pystr :=
  py "A1b2C3d4+/A1b2C3d4+/A1b2C3d4+/A1b2C3d4+/A1b2C3d4+/A1b2C3d4+/A1b2C3d4+/A1b2C3d4+/A1b2C3d4+/A1b2C3d4+/A1b2C3d4+/A1b2C3d4+/=".

Definition account (row : Z) (name : string) : AccountRow :=
  {| Sheets.row_number := row; Sheets.enabled := true;
     Sheets.line_name := py name; Sheets.icon_image_url := [];
     Sheets.basic_id := []; Sheets.access_token := [];
     Sheets.permission_link := []; Sheets.friend_link := [];
     Sheets.business_account := [] |}.

Definition perm_ok : PermissionPage :=
  {| perm_open := None;
     perm_value := Ok (py "https://manager.line.biz/invite/p1");
     perm_close := None |}.

Definition friend_ok : FriendPage :=
  {| friend_open := None;
     url_element := Some {| el_input_value := Ok (py "https://lin.ee/f1");
                            el_text_content := Ok None |} |}.

(** The console shows the token in a node that also holds the label of
    the reissue button. *)
Definition token_ok : TokenPage :=
  {| console_steps := None;
     elements := Ok [ReadText (Some (py "Channel access token"));
                     ReadText None;
                     ReadText (Some (token121 ++ py " Reissue"))];
     copyable := Ok None;
     debug_dump := None |}.

(** The console never opens the channel. *)
Definition token_failed : TokenPage :=
  {| console_steps := Some (py "Timeout 10000ms exceeded.");
     elements := Ok []; copyable := Ok None; debug_dump := None |}.

(** A record for which every phase works. *)
Definition site_ok : Workflow :=
  {| creation_steps := None;
     reloaded_url := py "https://manager.line.biz/account/@abc123/home";
     icon_steps := None; api_steps := None;
     perm_page := perm_ok; friend_page := friend_ok; token_page := token_ok |}.

(** The same, but the credential extraction fails. *)
Definition site_no_token : Workflow :=
  {| creation_steps := None;
     reloaded_url := py "https://manager.line.biz/account/@abc123/home";
     icon_steps := None; api_steps := None;
     perm_page := perm_ok; friend_page := friend_ok; token_page := token_failed |}.

(** The page after the creation is the account list, whose address holds
    no identifier; the pages of the later phases, addressed without an
    identifier, do not show what the phases look for. *)
Definition perm_missing : PermissionPage :=
  {| perm_open := Some (py "Timeout 30000ms exceeded.");
     perm_value := Ok []; perm_close := None |}.

Definition friend_missing : FriendPage :=
  {| friend_open := Some (py "Timeout 30000ms exceeded."); url_element := None |}.

Definition site_no_id : Workflow :=
  {| creation_steps := None;
     reloaded_url := py "https://manager.line.biz/";
     icon_steps := None; api_steps := Some (py "Timeout 30000ms exceeded.");
     perm_page := perm_missing; friend_page := friend_missing;
     token_page := token_failed |}.

(** A configuration that names the two input columns and leaves the
    output columns at their default. *)
Definition config_inputs_only : RunnerConfig :=
  {| email := py "owner@example.com"; password := py "secret";
     sheet_url := py "https://docs.google.com/spreadsheets/d/abc/edit";
     sheet_name := py "Sheet1"; icon_save_path := py "/tmp/icons";
     headless := false; biz_manager_enabled := false; biz_manager_name := [];
     col_enabled := py "A"; col_line_name := py "B"; col_icon_image := [];
     col_basic_id := []; col_access_token := []; col_permission_link := [];
     col_friend_link := []; col_business_account := [] |}.

(** Columns as the window's combo boxes give them; the access token is
    not mapped. *)
Definition config_columns : RunnerConfig :=
  {| email := py "owner@example.com"; password := py "secret";
     sheet_url := py "https://docs.google.com/spreadsheets/d/abc/edit";
     sheet_name := py "Sheet1"; icon_save_path := py "/tmp/icons";
     headless := false; biz_manager_enabled := false; biz_manager_name := [];
     col_enabled := py "A"; col_line_name := py "B"; col_icon_image := py "-";
     col_basic_id := py "C"; col_access_token := py "D";
     col_permission_link := py "E"; col_friend_link := py "F";
     col_business_account := py "G" |}.

(** Two header rows, then three eligible rows and one that is not. *)
Definition sheet : list (list pystr) :=
  [ [py "enabled"; py "name"; py "id"];
    [py "-"; py "-"; py "-"];
    [py "TRUE"; py "Shop A"];
    [py " 1 "; py "Shop B"];
    [py "FALSE"; py "Shop D"];
    [[26377; 21177]%N; py "Shop C"] ].

Definition restore_ok : RestoreEnv :=
  {| add_cookies_raises := None; navigate_raises := None;
     restored_url := py "https://manager.line.biz/"; unlink_raises := false |}.

(** The stored session is refused: the manager sends the browser to the
    login page. *)
Definition restore_expired : RestoreEnv :=
  {| add_cookies_raises := None; navigate_raises := None;
     restored_url := py "https://account.line.biz/login?redirectUri=x";
     unlink_raises := false |}.

(** The login form is refused as well. *)
Definition cred_refused : CredEnv :=
  {| login_nav := None; form_steps := None; captcha_after_submit := false;
     url_wait := Some (py "Timeout 10000ms exceeded.");
     url_on_timeout := py "https://account.line.biz/login";
     captcha_on_timeout := false;
     url_after_retry := py "https://account.line.biz/login";
     browser_cookies := Ok [py "ses=2"]; save_fault := WriteOk |}.

Definition auth_stored : AuthState :=
  {| fs := Some (Stored [py "ses=1"]); is_logged_in := false;
     context_cookies := [] |}.

(** A run over [sheet] in which the browser and the site work, under the
    control calls of [sched]. *)
Definition env_with (sched : Schedule) : RunEnv :=
  {| connect_ok := true; all_values := sheet; row_to_image := Ok ∅;
     start_ok := true; restore_env := restore_ok; cred_env := cred_refused;
     auth0 := auth_stored; site := fun _ => site_ok; schedule := sched |}.

(** Nothing happens while the browser starts and logs in; the operator
    pauses while the first record is processed, and stops during the
    second sleep of the pause wait before the second record. *)
Definition stop_while_paused : Schedule :=
  [ []; []; [Pause]; []; []; [Stop] ].

(** The state of the window when a run begins: no event yet. *)
Definition app0 : App.AppState :=
  {| App.captcha_event := false; App.events_created := 0; App.emitted := 0;
     App.pending := 0; App.clock_ms := 0 |}.

End Examples.

From Stdlib Require Import Sorted.
From Stdlib Require QArith_base.

(* ===================================================================== *)
(** ** core/sheets_client.py: addresses and column options *)
(* ===================================================================== *)

Module SheetUrl.

(** a character of the class [[a-zA-Z0-9-_]] *)
Definition is_id_char (c : N) : bool :=
  is_alnum c || (c =? 45)%N || (c =? 95)%N.

(** [re.search(marker + '([a-zA-Z0-9-_]+)', url)] for a literal [marker]:
    group 1 of the leftmost match. *)
Fixpoint search_after (marker url : pystr) : option pystr :=
  match url with
  | [] => None
  | _ :: rest =>
      if startswith url marker
         && truthy (take_while is_id_char (skipn (length marker) url))
      then Some (take_while is_id_char (skipn (length marker) url))
      else search_after marker rest
  end.

(** [SheetsClient.extract_spreadsheet_id] *)
Definition extract_spreadsheet_id (url : pystr) : option pystr :=
  match search_after (py "/d/") url with
  | Some id => Some id
  | None => search_after (py "key=") url
  end.

(** [SheetsClient.validate_url] *)
Definition validate_url (url : pystr) : bool :=
  match extract_spreadsheet_id url with Some _ => true | None => false end.

(** [get_column_options] *)
Definition get_column_options : list pystr :=
  [py "-"]
    ++ map (fun i => [65 + N.of_nat i]%N) (seq 0 26)
    ++ map (fun i => py "A" ++ [65 + N.of_nat i]%N) (seq 0 26).

End SheetUrl.

Module SheetsMore.

(** an ASCII letter *)
Definition is_letter (c : N) : bool := between 65 90 c || between 97 122 c.

(** A record comes from the sheet row whose number it carries: the row
    lies after the header rows, is eligible, and gives the fields. *)
Definition built_from (ci : ColIndices) `{UnicodeTable}
           (all_values : list (list pystr)) (a : AccountRow) : Prop :=
  exists row,
    nth_error all_values (Z.to_nat (Sheets.row_number a - 1)) = Some row
    /\ HEADER_ROWS < Sheets.row_number a
    /\ SheetsSpec.is_eligible ci (Sheets.row_number a, row) = true
    /\ a = make_account ci (Sheets.row_number a) row.

End SheetsMore.

(* ===================================================================== *)
(** ** core/line_automation.py: challenge detection and modal dialogs *)
(* ===================================================================== *)

Module Urls.

(** [LINE_LOGIN_URL] of config/settings.py *)
Definition LINE_LOGIN_URL : pystr :=
  py "https://account.line.biz/login?redirectUri="
  ++ py "https%3A%2F%2Faccount.line.biz%2Foauth2%2Fcallback%3F"
  ++ py "client_id%3D10%26code_challenge%3DoC9gWsWHhnh2rWpdcqQekSk2AoBeoEOAKZXdAy6qgXk%26"
  ++ py "code_challenge_method%3DS256%26redirect_uri%3Dhttps%253A%252F%252Fmanager.line.biz%252Fapi%252Foauth2%252FbizId%252Fcallback%26"
  ++ py "response_type%3Dcode%26state%3DaChi64NNfukeomNfi1i2Mz8nN23iJKZt".

End Urls.

Module Captcha.

Abbreviation Q := QArith_base.Q.

(** the number 10 *)
Definition ten : Q := QArith_base.Qmake 10 1.

(** The part of a bounding box the detection reads. *)
Record Box := { width : Q; height : Q }.

(** What the page answers for one selector: [query_selector] raises, finds
    nothing, or finds an element with what [is_visible()] and
    [bounding_box()] give for it. *)
Inductive Probe :=
| QueryRaises (e : exn)
| Absent
| Present (visible : outcome bool) (bounding_box : outcome (option Box)).

Definition quoted (s : string) : pystr := [34%N] ++ py s ++ [34%N].

(** [captcha_selectors] *)
Definition captcha_selectors : list pystr :=
  [ py "iframe[src*=" ++ quoted "recaptcha" ++ py "]";
    py "iframe[title*=" ++ quoted "reCAPTCHA" ++ py "]";
    py ".g-recaptcha";
    py "#recaptcha";
    py "div[data-sitekey]" ].

(** [x > 10] *)
Definition over_ten (x : Q) : bool := negb (QArith_base.Qle_bool x ten).

(** The [for selector in captcha_selectors] loop of [_detect_captcha]. *)
Fixpoint detect_loop (page : pystr -> Probe) (selectors : list pystr) : outcome bool :=
  match selectors with
  | [] => Ok false
  | selector :: rest =>
      match page selector with
      | QueryRaises e => Raised e
      | Absent => detect_loop page rest
      | Present (Raised e) _ => Raised e
      | Present (Ok false) _ => detect_loop page rest
      | Present (Ok true) (Raised e) => Raised e
      | Present (Ok true) (Ok None) => detect_loop page rest
      | Present (Ok true) (Ok (Some box)) =>
          if over_ten (width box) && over_ten (height box) then Ok true
          else detect_loop page rest
      end
  end.

(** [LineAutomation._detect_captcha] *)
Definition _detect_captcha (page : pystr -> Probe) : bool :=
  match detect_loop page captcha_selectors with
  | Ok found => found
  | Raised _ => false
  end.

(** The element of a probe is shown: visible, wider and higher than 10. *)
Definition shown (p : Probe) : Prop :=
  exists box, p = Present (Ok true) (Ok (Some box))
              /\ QArith_base.Qlt ten (width box)
              /\ QArith_base.Qlt ten (height box).

(** A call for a probe raises. *)
Definition probe_raises (p : Probe) : Prop :=
  match p with
  | QueryRaises _ => True
  | Present (Raised _) _ => True
  | Present (Ok true) (Raised _) => True
  | _ => False
  end.

End Captcha.

Module Modal.

(** How one round of [_close_modal_popups] dismissed the modal. *)
Inductive Dismissal :=
| ClickedClose         (* 'button.btn-secondary:has-text("閉じる")' *)
| ClickedAnyClose      (* 'button:has-text("閉じる")' *)
| PressedEscape.

(** What the page shows in one round: whether a modal is there, what the
    query for each close button finds ([None] no button, [Some None] a
    button whose click works, [Some (Some e)] one whose click raises), and
    whether pressing Escape raises. *)
Record Round := {
  modal : outcome bool;
  close_btn : outcome (option (option exn));
  close_btn2 : outcome (option (option exn));
  escape : option exn
}.

(** The [for _ in range(5)] loop, from round [i] with [left] rounds to go:
    what it returns or raises, and the dismissals it completed. *)
Fixpoint close_rounds (page : nat -> Round) (i left : nat)
  : outcome unit * list Dismissal :=
  match left with
  | O => (Ok tt, [])
  | S left' =>
      let continue (d : Dismissal) :=
        let '(r, ds) := close_rounds page (S i) left' in (r, d :: ds) in
      match modal (page i) with
      | Raised e => (Raised e, [])
      | Ok false => (Ok tt, [])
      | Ok true =>
          match close_btn (page i) with
          | Ok (Some None) => continue ClickedClose
          | _ =>
              match close_btn2 (page i) with
              | Ok (Some None) => continue ClickedAnyClose
              | _ =>
                  match escape (page i) with
                  | Some e => (Raised e, [])
                  | None => continue PressedEscape
                  end
              end
          end
      end
  end.

(** [LineAutomation._close_modal_popups] *)
Definition _close_modal_popups (page : nat -> Round) : outcome unit * list Dismissal :=
  close_rounds page 0 5.

(** A click on the button found by a query went through. *)
Definition clicked (query : outcome (option (option exn))) : Prop :=
  query = Ok (Some None).

(** What a round looked like when it ended with dismissal [d]. *)
Definition dismissed_by (r : Round) (d : Dismissal) : Prop :=
  modal r = Ok true
  /\ match d with
     | ClickedClose => clicked (close_btn r)
     | ClickedAnyClose => ~ clicked (close_btn r) /\ clicked (close_btn2 r)
     | PressedEscape =>
         ~ clicked (close_btn r) /\ ~ clicked (close_btn2 r) /\ escape r = None
     end.

(** What a round looked like when exception [e] left it. *)
Definition raised_in (r : Round) (e : exn) : Prop :=
  modal r = Raised e
  \/ (modal r = Ok true /\ ~ clicked (close_btn r) /\ ~ clicked (close_btn2 r)
      /\ escape r = Some e).

End Modal.

(* ===================================================================== *)
(** ** core/automation_runner.py: what a run leaves behind *)
(* ===================================================================== *)

Module RunnerMore.
Import Automation Runner.

(** [run] got as far as constructing the [LineAutomation] object: the
    sheet was reached, some record is eligible and the download
    returned. *)
Definition automation_created `{UnicodeTable} (config : RunnerConfig) (env : RunEnv)
  : bool :=
  connect_ok env
  && match eligible config env with Ok (_ :: _) => true | _ => false end
  && match row_to_image env with Ok _ => true | Raised _ => false end.

(** The browser started and [login] returned False. *)
Definition login_refused (env : RunEnv) : bool :=
  start_ok env
  && match fst (fst (login (restore_env env) (cred_env env) (auth0 env))) with
     | Ok false => true
     | _ => false
     end.

(** The progress reports [(1, total)], ..., [(n, total)]. *)
Definition reports (n : nat) (total : Z) : list (Z * Z) :=
  map (fun i => (Z.of_nat i + 1, total)) (seq 0 n).

End RunnerMore.

(* ===================================================================== *)
(** ** line-automation/core/stealth_browser.py: tabs *)
(* ===================================================================== *)

Module Browser.

(** A page object, by identity. *)
Abbreviation Page := nat.

(** The fields of a [StealthBrowser] the tab functions touch:
    [self.page] and [self.pages]. *)
Record Tabs := { page : option Page; pages : list Page }.

(** What the browser shows while [switch_to_new_tab] polls:
    [self.context.pages] at the poll of each number, and what
    [wait_for_load_state()] and [apply_stealth_async] raise for a page. *)
Record TabEnv := {
  context_pages : nat -> list Page;
  load_raises : Page -> option exn;
  stealth_raises : Page -> option exn
}.

(** [pages[-1]], [None] for the empty list *)
Fixpoint latest (ps : list Page) : option Page :=
  match ps with
  | [] => None
  | [p] => Some p
  | _ :: rest => latest rest
  end.

(** The [for _ in range(10)] loop of [switch_to_new_tab], from poll [i]
    with [left] polls to go.  The third component counts the sleeps of
    half a second. *)
Fixpoint switch_polls (env : TabEnv) (st : Tabs) (i left : nat)
  : outcome (option Page) * Tabs * nat :=
  match left with
  | O => (Ok None, st, i)
  | S left' =>
      let ps := context_pages env i in
      match latest ps with
      | None => switch_polls env st (S i) left'
      | Some latest_page =>
          if bool_decide (Some latest_page = page st)
          then switch_polls env st (S i) left'
          else
            match load_raises env latest_page with
            | Some e => (Raised e, st, S i)
            | None =>
                let st' := {| page := Some latest_page; pages := ps |} in
                match stealth_raises env latest_page with
                | Some e => (Raised e, st', S i)
                | None => (Ok (Some latest_page), st', S i)
                end
            end
      end
  end.

(** [StealthBrowser.switch_to_new_tab] *)
Definition switch_to_new_tab (env : TabEnv) (st : Tabs)
  : outcome (option Page) * Tabs * nat :=
  switch_polls env st 0 10.

Definition VALUE_ERROR : exn := py "ValueError".

(** [list.remove]: the list without the first occurrence, [None] when
    there is none (Python raises ValueError). *)
Fixpoint remove_first (x : Page) (l : list Page) : option (list Page) :=
  match l with
  | [] => None
  | y :: rest =>
      if Nat.eqb x y then Some rest
      else match remove_first x rest with
           | Some rest' => Some (y :: rest')
           | None => None
           end
  end.

(** [StealthBrowser.close_current_tab]; [close_raises] is what
    [current_page.close()] raises.  The pages closed come third.  (After
    the removal from a list of more than one page, [self.pages[-1]]
    exists.) *)
Definition close_current_tab (close_raises : option exn) (st : Tabs)
  : outcome unit * Tabs * list Page :=
  if (1 <? length (pages st))%nat then
    match page st with
    | None => (Raised VALUE_ERROR, st, [])
    | Some current_page =>
        match remove_first current_page (pages st) with
        | None => (Raised VALUE_ERROR, st, [])
        | Some rest =>
            match close_raises with
            | Some e => (Raised e, {| page := page st; pages := rest |}, [])
            | None =>
                (Ok tt, {| page := latest rest; pages := rest |}, [current_page])
            end
        end
    end
  else (Ok tt, st, []).

(** At poll [k] the context shows no page, or its last page is the
    current one. *)
Definition stays (env : TabEnv) (st : Tabs) (k : nat) : Prop :=
  latest (context_pages env k) = None \/ latest (context_pages env k) = page st.

(** At poll [k] the last page of the context is [p], another page than
    the current one. *)
Definition differs (env : TabEnv) (st : Tabs) (k : nat) (p : Page) : Prop :=
  latest (context_pages env k) = Some p /\ Some p <> page st.

(** The state after a switch at poll [k] to page [p]. *)
Definition switched (env : TabEnv) (k : nat) (p : Page) : Tabs :=
  {| page := Some p; pages := context_pages env k |}.

End Browser.

(* ===================================================================== *)
(** ** Further concrete scenarios *)
(* ===================================================================== *)

Module MoreExamples.
Import Automation Runner Examples.

(** The records of [sheet] under [config_columns]. *)
Definition sheet_rows : list AccountRow :=
  match get_enabled_rows (H := uncased) (Some sheet)
                         (get_column_config config_columns) with
  | Ok rows => rows
  | Raised _ => []
  end.

(** The login form is refused and the browser stays on the login page,
    whose address names the manager in its redirect parameter. *)
Definition cred_stuck : CredEnv :=
  {| login_nav := None; form_steps := None; captcha_after_submit := false;
     url_wait := Some (py "Timeout 10000ms exceeded.");
     url_on_timeout := Urls.LINE_LOGIN_URL;
     captcha_on_timeout := false;
     url_after_retry := Urls.LINE_LOGIN_URL;
     browser_cookies := Ok [py "ses=0"]; save_fault := WriteOk |}.

(** The login form is accepted. *)
Definition cred_ok : CredEnv :=
  {| login_nav := None; form_steps := None; captcha_after_submit := false;
     url_wait := None;
     url_on_timeout := [];
     captcha_on_timeout := false;
     url_after_retry := [];
     browser_cookies := Ok [py "ses=3"]; save_fault := WriteOk |}.

(** No session file yet. *)
Definition auth_none : AuthState :=
  {| fs := None; is_logged_in := false; context_cookies := [] |}.

(** A session file that does not parse. *)
Definition auth_garbled : AuthState :=
  {| fs := Some Unreadable; is_logged_in := false; context_cookies := [] |}.

(** A page that shows the challenge in the element [#recaptcha]. *)
Definition recaptcha_page (selector : pystr) : Captcha.Probe :=
  if eqb selector (py "#recaptcha")
  then Captcha.Present (Ok true)
         (Ok (Some {| Captcha.width := QArith_base.Qmake 304 1;
                      Captcha.height := QArith_base.Qmake 78 1 |}))
  else Captcha.Absent.

(** Two modals, one after the other, each with a working close button. *)
Definition modal_twice (i : nat) : Modal.Round :=
  {| Modal.modal := Ok (i <? 2)%nat;
     Modal.close_btn := Ok (Some None);
     Modal.close_btn2 := Ok None;
     Modal.escape := None |}.

(** The operator pauses during the first record and resumes two sleeps
    later. *)
Definition pause_and_resume : Schedule :=
  [ []; []; [Pause]; []; []; [Resume] ].

(** The operator stops while the first record is processed. *)
Definition stop_in_first_record : Schedule :=
  [ []; []; [Stop] ].

(** Two tabs are open, the second is current; a third opens before the
    third poll. *)
Definition two_tabs : Browser.Tabs :=
  {| Browser.page := Some 2%nat; Browser.pages := [1%nat; 2%nat] |}.

Definition third_tab_opens : Browser.TabEnv :=
  {| Browser.context_pages :=
       fun j => if (j <? 2)%nat then [1%nat; 2%nat] else [1%nat; 2%nat; 3%nat];
     Browser.load_raises := fun _ => None;
     Browser.stealth_raises := fun _ => None |}.

End MoreExamples.

(* ===================================================================== *)
(** * Properties *)
(* ===================================================================== *)

Section StringFacts.

Lemma between_spec (lo hi c : N) :
  between lo hi c = true <-> (lo <= c /\ c <= hi)%N.
Proof. unfold between. rewrite andb_true_iff, !N.leb_le. reflexivity. Qed.

Lemma isspace_range (c : N) : isspace c = true -> (c <= 32 \/ 133 <= c)%N.
Proof.
  unfold isspace. rewrite !orb_true_iff, !between_spec, !N.eqb_eq. lia.
Qed.

Lemma is_alnum_range (c : N) : is_alnum c = true -> (48 <= c /\ c <= 122)%N.
Proof.
  unfold is_alnum. rewrite !orb_true_iff, !between_spec. lia.
Qed.

(** What [lstrip] leaves does not start with whitespace. *)
Lemma lstrip_head (s : pystr) (c : N) (r : pystr) :
  lstrip s = c :: r -> isspace c = false.
Proof.
  induction s as [|a s IH]; cbn [lstrip]; [discriminate|].
  destruct (isspace a) eqn:Ha; [exact IH|].
  intros [= <- _]. exact Ha.
Qed.

(** What [strip] leaves does not end with whitespace. *)
Lemma strip_last (s body : pystr) (c : N) :
  strip s = body ++ [c] -> isspace c = false.
Proof.
  unfold strip, rstrip. intros Hs.
  apply (f_equal (@rev N)) in Hs.
  rewrite rev_involutive, rev_app_distr in Hs. cbn [rev app] in Hs.
  exact (lstrip_head _ _ _ Hs).
Qed.

Lemma lstrip_id (s : pystr) :
  Forall (fun c => isspace c = false) s -> lstrip s = s.
Proof. destruct 1 as [|c s Hc _]; cbn [lstrip]; [|rewrite Hc]; reflexivity. Qed.

(** A string without whitespace is left as it is by [strip]. *)
Lemma strip_id (s : pystr) :
  Forall (fun c => isspace c = false) s -> strip s = s.
Proof.
  intros Hs. unfold strip, rstrip. rewrite (lstrip_id s Hs).
  rewrite lstrip_id; [apply rev_involutive|].
  apply List.Forall_rev. exact Hs.
Qed.

Lemma take_while_split (p : N -> bool) (s : pystr) :
  s = take_while p s ++ skipn (length (take_while p s)) s.
Proof.
  induction s as [|c s IH]; cbn [take_while]; [reflexivity|].
  destruct (p c); cbn [length skipn app]; [f_equal; exact IH | reflexivity].
Qed.

Lemma take_while_all (p : N -> bool) (s : pystr) :
  Forall (fun c => p c = true) s -> take_while p s = s.
Proof.
  induction 1 as [|c s Hc _ IH]; cbn [take_while]; [reflexivity|].
  rewrite Hc, IH. reflexivity.
Qed.

Lemma take_while_Forall (p : N -> bool) (s : pystr) :
  Forall (fun c => p c = true) (take_while p s).
Proof.
  induction s as [|c s IH]; cbn [take_while]; [constructor|].
  destruct (p c) eqn:Hc; constructor; assumption.
Qed.

(** [" " not in s] *)
Lemma contains_space (s : pystr) : contains s (py " ") = true <-> In 32%N s.
Proof.
  induction s as [|c s IH].
  - cbn. split; [discriminate | tauto].
  - change (contains (c :: s) (py " "))
      with (((32 =? c)%N && true) || contains s (py " ")).
    rewrite orb_true_iff, andb_true_r, N.eqb_eq, IH. cbn [In].
    split; intros [H|H]; auto.
Qed.

Lemma eqb_spec (s t : pystr) : eqb s t = true <-> s = t.
Proof. unfold eqb. apply bool_decide_eq_true. Qed.

End StringFacts.

Section SheetsFacts.
Context `{U : UnicodeTable}.
Import SheetsSpec.

Lemma len_app {A} (l1 l2 : list A) : len (l1 ++ l2) = len l1 + len l2.
Proof. unfold len. rewrite length_app. lia. Qed.

Lemma firstn_all_app {A} (n : nat) (l1 l2 : list A) :
  length l1 = n -> firstn n (l1 ++ l2) = l1.
Proof.
  intros <-. rewrite firstn_app, Nat.sub_diag, firstn_all. simpl.
  apply app_nil_r.
Qed.

(** The loop of [get_enabled_rows] computes the eligible rows appended to
    what it has already, cut at the maximum. *)
Lemma enabled_loop_spec (ci : ColIndices) (rows : list (list pystr)) :
  forall (row_idx : Z) (acc : list AccountRow),
    (length acc <= Z.to_nat MAX_ACCOUNTS)%nat ->
    enabled_loop ci rows row_idx acc =
    firstn (Z.to_nat MAX_ACCOUNTS)
           (acc ++ map (fun nr => make_account ci (fst nr) (snd nr))
                       (List.filter (is_eligible ci) (numbered rows row_idx))).
Proof.
  induction rows as [|row rest IH]; intros row_idx acc Hacc.
  - simpl. rewrite app_nil_r, firstn_all2; [reflexivity | exact Hacc].
  - cbn [enabled_loop numbered List.filter].
    destruct (MAX_ACCOUNTS <=? len acc) eqn:Hfull.
    + apply Z.leb_le in Hfull. symmetry. apply firstn_all_app.
      unfold len, MAX_ACCOUNTS in *. lia.
    + apply Z.leb_gt in Hfull.
      unfold is_eligible at 1, enabled_cell. cbn [snd fst].
      destruct (ix_enabled ci <? 0) eqn:Hneg.
      * apply Z.ltb_lt in Hneg.
        replace (0 <=? ix_enabled ci) with false by (symmetry; apply Z.leb_gt; lia).
        cbn [orb andb]. apply IH, Hacc.
      * apply Z.ltb_ge in Hneg.
        replace (0 <=? ix_enabled ci) with true by (symmetry; apply Z.leb_le; lia).
        cbn [orb andb].
        destruct (len row <=? ix_enabled ci) eqn:Hout.
        -- apply Z.leb_le in Hout.
           replace (ix_enabled ci <? len row) with false
             by (symmetry; apply Z.ltb_ge; lia).
           apply IH, Hacc.
        -- apply Z.leb_gt in Hout.
           replace (ix_enabled ci <? len row) with true
             by (symmetry; apply Z.ltb_lt; lia).
           destruct (in_list _ ENABLED_VALUES) eqn:Hin; cbn [negb].
           ++ rewrite IH.
              ** cbn [map fst snd]. rewrite <- app_assoc. reflexivity.
              ** rewrite length_app. cbn [length].
                 unfold len, MAX_ACCOUNTS in *. lia.
           ++ apply IH, Hacc.
Qed.

(** On a connected worksheet [get_enabled_rows] raises nothing. *)
Lemma get_enabled_rows_connected (column_config : gmap pystr pystr)
      (all_values : list (list pystr)) :
  exists rows, get_enabled_rows (Some all_values) column_config = Ok rows.
Proof.
  unfold get_enabled_rows.
  destruct (len all_values <? HEADER_ROWS + 1); eexists; reflexivity.
Qed.

(** C4. [get_enabled_rows] returns exactly the rows after the two header
    rows whose enabled cell, trimmed and uppercased, is one of the
    allow-list tokens, in sheet order, cut at [MAX_ACCOUNTS]; a row whose
    enabled column is unmapped or out of range is left out. *)
Theorem get_enabled_rows_spec (column_config : gmap pystr pystr)
        (all_values : list (list pystr)) :
  get_enabled_rows (Some all_values) column_config
  = Ok (enabled_rows_spec column_config all_values).
Proof.
  unfold get_enabled_rows, enabled_rows_spec.
  destruct (len all_values <? HEADER_ROWS + 1) eqn:Hshort.
  - apply Z.ltb_lt in Hshort.
    rewrite skipn_all2; [reflexivity|].
    unfold len, HEADER_ROWS in *. lia.
  - rewrite enabled_loop_spec; [reflexivity|]. simpl. lia.
Qed.

End SheetsFacts.

Section WriteBackFacts.
Import Automation Runner WriteBackSpec.

(** The dictionary of [get_column_config] holds the eight column fields. *)
Lemma column_config_lookup (config : RunnerConfig) :
  get_column_config config !! py "col_basic_id" = Some (col_basic_id config)
  /\ get_column_config config !! py "col_permission_link" = Some (col_permission_link config)
  /\ get_column_config config !! py "col_friend_link" = Some (col_friend_link config)
  /\ get_column_config config !! py "col_access_token" = Some (col_access_token config)
  /\ get_column_config config !! py "col_business_account"
     = Some (col_business_account config)
  /\ get_column_config config !! py "col_enabled" = Some (col_enabled config).
Proof. repeat split; vm_compute; reflexivity. Qed.

(** A guarded write over that dictionary never raises, and issues its
    update exactly when the slot is populated and the field is not "-". *)
Lemma write_back_config (config : RunnerConfig) (key : string) (col : pystr)
      (has_value : bool) (row : Z) (value : pystr) (issued : list CellUpdate) :
  get_column_config config !! py key = Some col ->
  write_back has_value row (get_column_config config) key value issued
  = (Ok tt, issued ++ guarded row col value has_value).
Proof.
  intros Hk. unfold write_back, subscript, guarded. rewrite Hk.
  cbn [from_option id].
  destruct (has_value && negb (eqb col (py "-"))); [reflexivity|].
  rewrite app_nil_r. reflexivity.
Qed.

(** The write-back of [process_account], field by field. *)
Lemma write_results_config (config : RunnerConfig) (account : AccountRow)
      (r : AutomationResult) :
  write_results (email config) account (get_column_config config) r
  = (Ok tt,
     if success r then
       guarded (Sheets.row_number account) (col_basic_id config)
               (basic_id r) (truthy (basic_id r))
       ++ guarded (Sheets.row_number account) (col_permission_link config)
                  (permission_link r) (truthy (permission_link r))
       ++ guarded (Sheets.row_number account) (col_friend_link config)
                  (friend_link r) (truthy (friend_link r))
       ++ guarded (Sheets.row_number account) (col_access_token config)
                  (default [] (access_token r)) (truthy_opt (access_token r))
       ++ guarded (Sheets.row_number account) (col_business_account config)
                  (email config) true
     else []).
Proof.
  destruct (column_config_lookup config) as (Hb & Hp & Hf & Ht & Ha & _).
  unfold write_results. destruct (success r); [|reflexivity].
  rewrite (write_back_config _ _ _ _ _ _ _ Hb). cbn [and_then app].
  rewrite (write_back_config _ _ _ _ _ _ _ Hp). cbn [and_then].
  rewrite (write_back_config _ _ _ _ _ _ _ Hf). cbn [and_then].
  rewrite (write_back_config _ _ _ _ _ _ _ Ht). cbn [and_then].
  rewrite (write_back_config _ _ _ _ _ _ _ Ha).
  rewrite <- !app_assoc. reflexivity.
Qed.

(** [process_account] always returns the result of [create_account]. *)
Lemma process_account_returns (config : RunnerConfig) (w : Workflow)
      (account : AccountRow) (image_path : pystr) :
  returned (process_account (email config) w account image_path
                            (get_column_config config))
  = Ok (fst (create_account w account image_path)).
Proof.
  unfold process_account.
  destruct (create_account w account image_path) as [r calls].
  rewrite write_results_config. reflexivity.
Qed.

Lemma process_account_updates (config : RunnerConfig) (w : Workflow)
      (account : AccountRow) (image_path : pystr) :
  updates (process_account (email config) w account image_path
                           (get_column_config config))
  = snd (write_results (email config) account (get_column_config config)
                       (fst (create_account w account image_path))).
Proof.
  unfold process_account.
  destruct (create_account w account image_path) as [r calls].
  cbn [fst]. destruct (write_results _ _ _ r) as [[u|e] issued]; reflexivity.
Qed.

End WriteBackFacts.

Section ColumnFacts.
Context `{U : UnicodeTable}.
Import Automation Runner WriteBackSpec.

(** The decoder on the addresses the specification lists, in both cases,
    and on the two spellings of "no mapping". *)
Lemma col_letter_examples :
  _col_letter_to_index (py "A") = 0
  /\ _col_letter_to_index (py "Z") = 25
  /\ _col_letter_to_index (py "AA") = 26
  /\ _col_letter_to_index (py "AZ") = 51
  /\ _col_letter_to_index (py "a") = 0
  /\ _col_letter_to_index (py "az") = 51
  /\ _col_letter_to_index (py "-") = -1
  /\ _col_letter_to_index [] = -1.
Proof. repeat split; vm_compute; reflexivity. Qed.

Lemma guarded_not_dash (row : Z) (col value : pystr) (populated : bool) :
  Forall (fun u => upd_col_letter u <> py "-") (guarded row col value populated).
Proof.
  unfold guarded, eqb. destruct populated; cbn [andb]; [|constructor].
  case_bool_decide; cbn [negb]; repeat constructor. assumption.
Qed.

(** No update is ever addressed to the sentinel "-". *)
Lemma dash_never_written (config : RunnerConfig) (w : Workflow)
      (account : AccountRow) (image_path : pystr) :
  Forall (fun u => upd_col_letter u <> py "-")
         (updates (process_account (email config) w account image_path
                                   (get_column_config config))).
Proof.
  rewrite process_account_updates, write_results_config. cbn [snd].
  destruct (success _); [|constructor].
  repeat (apply Forall_app; split); apply guarded_not_dash.
Qed.

End ColumnFacts.

Section EmptyMapping.
Context `{U : UnicodeTable}.
Import Automation Runner WriteBackSpec.

Lemma guarded_empty_column (row : Z) (value : pystr) (populated : bool) :
  populated = true ->
  guarded row [] value populated
  = [{| upd_row := row; upd_col_letter := []; upd_value := value |}].
Proof. intros ->. reflexivity. Qed.

Lemma truthy_nonempty {A} (l : list A) : l <> [] -> truthy l = true.
Proof. destruct l; [congruence | reflexivity]. Qed.

(** C10. The write-back guard of [process_account] holds an update back
    only for the mapping "-": the updates are, slot by slot, one for each
    populated slot whose mapping differs from "-".  The empty string, which
    is the default of every column field of [RunnerConfig], counts as
    configured: a successful record with a non-empty identifier,
    permission link, friend link or token gets an [update_cell] call whose
    column letter is empty, although [_col_letter_to_index] decodes the
    empty string like "-", to -1. *)
Theorem empty_mapping_is_written (config : RunnerConfig) (w : Workflow)
        (account : AccountRow) (image_path : pystr) :
  let p := process_account (email config) w account image_path
                           (get_column_config config) in
  let r := fst (create_account w account image_path) in
  let row := Sheets.row_number account in
  let empty_update value :=
    {| upd_row := row; upd_col_letter := []; upd_value := value |} in
  updates p
  = (if success r then
       guarded row (col_basic_id config) (basic_id r) (truthy (basic_id r))
       ++ guarded row (col_permission_link config) (permission_link r)
                  (truthy (permission_link r))
       ++ guarded row (col_friend_link config) (friend_link r)
                  (truthy (friend_link r))
       ++ guarded row (col_access_token config) (default [] (access_token r))
                  (truthy_opt (access_token r))
       ++ guarded row (col_business_account config) (email config) true
     else [])
  /\ (success r = true -> basic_id r <> [] -> col_basic_id config = [] ->
      In (empty_update (basic_id r)) (updates p))
  /\ (success r = true -> permission_link r <> [] ->
      col_permission_link config = [] ->
      In (empty_update (permission_link r)) (updates p))
  /\ (success r = true -> friend_link r <> [] -> col_friend_link config = [] ->
      In (empty_update (friend_link r)) (updates p))
  /\ (success r = true -> truthy_opt (access_token r) = true ->
      col_access_token config = [] ->
      In (empty_update (default [] (access_token r))) (updates p))
  /\ _col_letter_to_index [] = -1
  /\ _col_letter_to_index (py "-") = -1
  /\ (forall e pw url name path,
         let d := default_config e pw url name path in
         col_enabled d = [] /\ col_line_name d = [] /\ col_icon_image d = []
         /\ col_basic_id d = [] /\ col_access_token d = []
         /\ col_permission_link d = [] /\ col_friend_link d = []
         /\ col_business_account d = []).
Proof.
  intros p r row empty_update.
  assert (Hupd : updates p = snd (write_results (email config) account
                                   (get_column_config config) r))
    by apply process_account_updates.
  rewrite write_results_config in Hupd. cbn [snd] in Hupd. fold row in Hupd.
  split; [exact Hupd|].
  repeat split; try reflexivity.
  - intros Hs Hv Hc. rewrite Hupd, Hs, Hc.
    rewrite guarded_empty_column by (apply truthy_nonempty, Hv).
    apply in_or_app. left. left. reflexivity.
  - intros Hs Hv Hc. rewrite Hupd, Hs, Hc.
    rewrite (guarded_empty_column row (permission_link r))
      by (apply truthy_nonempty, Hv).
    apply in_or_app. right. apply in_or_app. left. left. reflexivity.
  - intros Hs Hv Hc. rewrite Hupd, Hs, Hc.
    rewrite (guarded_empty_column row (friend_link r))
      by (apply truthy_nonempty, Hv).
    do 2 (apply in_or_app; right). apply in_or_app. left. left. reflexivity.
  - intros Hs Hv Hc. rewrite Hupd, Hs, Hc.
    rewrite (guarded_empty_column row (default [] (access_token r))) by exact Hv.
    do 3 (apply in_or_app; right). apply in_or_app. left. left. reflexivity.
Qed.

(** C7. When the creation works, the permission link and the friend link
    are read, and the credential extraction yields no token, the record is
    reported with success=true, both links in their slots and no token;
    the updates are one for each populated slot whose column is not "-"
    (identifier, permission link, friend link), then the one of the owning
    account, and none for the token. *)
Theorem partial_success_write_back (config : RunnerConfig) (w : Workflow)
        (account : AccountRow) (image_path plink flink : pystr)
        (el : UrlElement) :
  creation_steps w = None ->
  perm_open (perm_page w) = None ->
  perm_value (perm_page w) = Ok plink -> plink <> [] ->
  friend_open (friend_page w) = None ->
  url_element (friend_page w) = Some el ->
  el_input_value el = Ok flink -> flink <> [] ->
  truthy_opt (fst (_get_access_token (token_page w))) = false ->
  let p := process_account (email config) w account image_path
                           (get_column_config config) in
  let row := Sheets.row_number account in
  let id := _extract_basic_id (reloaded_url w) in
  exists r,
    returned p = Ok r
    /\ success r = true
    /\ permission_link r = plink
    /\ friend_link r = flink
    /\ truthy_opt (access_token r) = false
    /\ updates p
       = guarded row (col_basic_id config) id (truthy id)
         ++ (if eqb (col_permission_link config) (py "-") then []
             else [{| upd_row := row;
                      upd_col_letter := col_permission_link config;
                      upd_value := plink |}])
         ++ (if eqb (col_friend_link config) (py "-") then []
             else [{| upd_row := row;
                      upd_col_letter := col_friend_link config;
                      upd_value := flink |}])
         ++ (if eqb (col_business_account config) (py "-") then []
             else [{| upd_row := row;
                      upd_col_letter := col_business_account config;
                      upd_value := email config |}]).
Proof.
  intros Hc Hpo Hpv Hpne Hfo Hfe Hfv Hfne Htok p row id.
  assert (Hperm : _add_permission (perm_page w) = plink).
  { unfold _add_permission. rewrite Hpo, Hpv. reflexivity. }
  assert (Hfriend : _get_friend_link (friend_page w) = flink).
  { unfold _get_friend_link. rewrite Hfo, Hfe, Hfv.
    rewrite (truthy_nonempty _ Hfne). reflexivity. }
  assert (Hr : fst (create_account w account image_path)
               = {| row_number := row; success := true; basic_id := id;
                    permission_link := plink; friend_link := flink;
                    access_token := fst (_get_access_token (token_page w));
                    error_message := [] |}).
  { unfold create_account. rewrite Hc, Hperm, Hfriend. reflexivity. }
  eexists. split; [apply process_account_returns|].
  rewrite Hr. cbn [success permission_link friend_link access_token].
  repeat split; try assumption.
  subst p. rewrite process_account_updates, write_results_config, Hr.
  cbn [snd success basic_id permission_link friend_link access_token
       Automation.row_number].
  rewrite Htok, (truthy_nonempty _ Hpne), (truthy_nonempty _ Hfne).
  unfold guarded at 2 3 4 5. cbn [andb].
  destruct (eqb (col_permission_link config) (py "-")),
           (eqb (col_friend_link config) (py "-")),
           (eqb (col_business_account config) (py "-")); reflexivity.
Qed.

End EmptyMapping.

Section WorkflowRuns.
Import Automation Runner Examples.

(** The theorem at a record whose console never opens the channel. *)
Lemma partial_success_write_back_witness :
  exists r,
    returned (process_account (email config_columns) site_no_token
                              (account 3 "Shop") []
                              (get_column_config config_columns)) = Ok r
    /\ success r = true
    /\ permission_link r = py "https://manager.line.biz/invite/p1"
    /\ friend_link r = py "https://lin.ee/f1"
    /\ truthy_opt (access_token r) = false
    /\ updates (process_account (email config_columns) site_no_token
                                (account 3 "Shop") []
                                (get_column_config config_columns))
       = [ {| upd_row := 3; upd_col_letter := py "C"; upd_value := py "@abc123" |};
           {| upd_row := 3; upd_col_letter := py "E";
              upd_value := py "https://manager.line.biz/invite/p1" |};
           {| upd_row := 3; upd_col_letter := py "F";
              upd_value := py "https://lin.ee/f1" |};
           {| upd_row := 3; upd_col_letter := py "G";
              upd_value := py "owner@example.com" |} ].
Proof.
  apply (partial_success_write_back config_columns site_no_token
           (account 3 "Shop") [] (py "https://manager.line.biz/invite/p1")
           (py "https://lin.ee/f1")
           {| el_input_value := Ok (py "https://lin.ee/f1");
              el_text_content := Ok None |});
    first [reflexivity | discriminate].
Defined.

(** The theorem at a configuration that leaves the output columns empty. *)
Lemma empty_mapping_is_written_witness :
  In {| upd_row := 3; upd_col_letter := []; upd_value := py "@abc123" |}
     (updates (process_account (email config_inputs_only) site_ok
                               (account 3 "Shop A") []
                               (get_column_config config_inputs_only))).
Proof.
  apply (proj1 (proj2 (empty_mapping_is_written (U := uncased) config_inputs_only
                         site_ok (account 3 "Shop A") [])));
    first [reflexivity | discriminate].
Defined.

(** C3, at a configuration that maps the input columns only: the column of
    the identifier is decoded to "no mapping", and the identifier, both
    links, the token and the login address are each written with an empty
    column letter, for the record alone and for every record of a run;
    the label handed to [update_acell] is the row number alone. *)
Theorem unmapped_column_is_written :
  _col_letter_to_index (H := uncased) (col_basic_id config_inputs_only) = -1
  /\ updates (process_account (email config_inputs_only) site_ok
                              (account 3 "Shop A") []
                              (get_column_config config_inputs_only))
     = [ {| upd_row := 3; upd_col_letter := []; upd_value := py "@abc123" |};
         {| upd_row := 3; upd_col_letter := [];
            upd_value := py "https://manager.line.biz/invite/p1" |};
         {| upd_row := 3; upd_col_letter := [];
            upd_value := py "https://lin.ee/f1" |};
         {| upd_row := 3; upd_col_letter := []; upd_value := token121 |};
         {| upd_row := 3; upd_col_letter := [];
            upd_value := py "owner@example.com" |} ]
  /\ map (fun u => (upd_row u, upd_col_letter u))
         (sheet_updates (snd (run (H := uncased) config_inputs_only
                                  (env_with []) initial)))
     = [ (3, []); (3, []); (3, []); (3, []); (3, []);
         (4, []); (4, []); (4, []); (4, []); (4, []);
         (6, []); (6, []); (6, []); (6, []); (6, []) ]
  /\ update_cell true {| upd_row := 3; upd_col_letter := [];
                         upd_value := py "@abc123" |}
     = Some (py "3", py "@abc123").
Proof. repeat split; vm_compute; reflexivity. Qed.

End WorkflowRuns.

Section TokenFacts.
Import Automation TokenSpec.

Lemma is_token_char_range (c : N) : is_token_char c = true -> (43 <= c /\ c <= 122)%N.
Proof.
  unfold is_token_char. rewrite !orb_true_iff, !N.eqb_eq.
  intros [[[H|H]|H]|H]; [apply is_alnum_range in H| | |]; lia.
Qed.

(** The character class of the pattern is the alphabet the specification
    spells out. *)
Lemma is_token_char_alphabet (c : N) : is_token_char c = true <-> In c alphabet.
Proof.
  split.
  - intros Hc.
    assert (Htable : forallb (fun n => implb (is_token_char (N.of_nat n))
                                            (existsb (N.eqb (N.of_nat n)) alphabet))
                             (seq 0 123) = true) by (vm_compute; reflexivity).
    rewrite forallb_forall in Htable.
    specialize (Htable (N.to_nat c)).
    rewrite N2Nat.id, Hc in Htable. cbn [implb] in Htable.
    destruct (is_token_char_range c Hc) as [_ Hhi].
    assert (Hin : In (N.to_nat c) (seq 0 123)) by (apply in_seq; lia).
    apply Htable, existsb_exists in Hin. destruct Hin as (x & Hx & Heq).
    apply N.eqb_eq in Heq. subst x. exact Hx.
  - intros Hin.
    assert (Hall : forallb is_token_char alphabet = true) by (vm_compute; reflexivity).
    rewrite forallb_forall in Hall. apply Hall, Hin.
Qed.

Lemma token_char_not_space (c : N) : is_token_char c = true -> isspace c = false.
Proof.
  intros Hc. apply is_token_char_range in Hc.
  destruct (isspace c) eqn:Hs; [|reflexivity].
  apply isspace_range in Hs. lia.
Qed.

(** The pattern on a string that does not end with a newline. *)
Lemma re_match_token_spec (s : pystr) :
  (forall body, s <> body ++ [10%N]) ->
  re_match_token s = true <-> s <> [] /\ Forall (fun c => is_token_char c = true) s.
Proof.
  intros Hnl. unfold re_match_token.
  pose proof (take_while_split is_token_char s) as Hsplit.
  pose proof (take_while_Forall is_token_char s) as Hrun.
  set (run := take_while is_token_char s) in *.
  set (rest := skipn (length run) s) in *.
  rewrite andb_true_iff, orb_true_iff, !eqb_spec. split.
  - intros [Hne [Hrest|Hrest]].
    + rewrite Hrest, app_nil_r in Hsplit. rewrite Hsplit.
      split; [|exact Hrun]. destruct run; [discriminate Hne | discriminate].
    + rewrite Hrest in Hsplit. destruct (Hnl run Hsplit).
  - intros [Hne Hall].
    assert (Hrun_s : run = s) by (apply take_while_all, Hall).
    split.
    + rewrite Hrun_s. destruct s; [congruence | reflexivity].
    + left. subst rest. rewrite Hrun_s. apply skipn_all.
Qed.

(** The compared text never ends with whitespace. *)
Lemma strip_label_last (text body : pystr) (c : N) :
  strip_label text = body ++ [c] -> isspace c = false.
Proof.
  unfold strip_label.
  destruct (endswith (strip text) (py "Reissue"));
    [|destruct (endswith (strip text) REISSUE_JA)]; apply strip_last.
Qed.

(** Line 823 tests the shape the specification describes. *)
Lemma looks_like_token_shape (text : pystr) :
  looks_like_token (strip_label text) = true <-> token_shape (strip_label text).
Proof.
  unfold looks_like_token, token_shape.
  rewrite !andb_true_iff, negb_true_iff, Z.ltb_lt.
  rewrite re_match_token_spec.
  - rewrite <- not_true_iff_false, contains_space.
    split.
    + intros [[Hlen Hsp] [_ Hall]]. repeat split; try assumption.
      eapply List.Forall_impl; [|exact Hall]. intros c. apply is_token_char_alphabet.
    + intros (Hlen & Hsp & Hall). repeat split; try assumption.
      * intros E. rewrite E in Hlen. vm_compute in Hlen. discriminate Hlen.
      * eapply List.Forall_impl; [|exact Hall]. intros c. apply is_token_char_alphabet.
  - intros body E. apply strip_label_last in E. discriminate E.
Qed.

Lemma token_shape_nonempty (s : pystr) : token_shape s -> truthy s = true.
Proof.
  intros [Hlen _]. destruct s; [vm_compute in Hlen; discriminate Hlen | reflexivity].
Qed.

Lemma token_shape_strip (s : pystr) : token_shape s -> strip s = s.
Proof.
  intros (_ & _ & Hall). apply strip_id.
  eapply List.Forall_impl; [|exact Hall].
  intros c Hc. apply token_char_not_space, is_token_char_alphabet, Hc.
Qed.

(** The loop passes over the nodes that neither raise nor are accepted. *)
Lemma scan_elements_skip (before rest : list TextRead) :
  Forall (fun r => ~ raises r) before ->
  Forall (fun r => ~ accepted r) before ->
  scan_elements (before ++ rest) = scan_elements rest.
Proof.
  induction before as [|r before IH]; intros Hr Ha; [reflexivity|].
  inversion Hr as [|? ? Hr1 Hr2]; subst. inversion Ha as [|? ? Ha1 Ha2]; subst.
  cbn [app scan_elements].
  destruct r as [e|[text|]].
  - destruct Hr1. exact I.
  - destruct (truthy text) eqn:Ht; cbn [negb]; [|apply IH; assumption].
    destruct (looks_like_token (strip_label text)) eqn:Hl; [|apply IH; assumption].
    destruct Ha1. split.
    + destruct text; [discriminate Ht | discriminate].
    + apply looks_like_token_shape, Hl.
  - apply IH; assumption.
Qed.

Lemma scan_elements_hit (text : pystr) (after : list TextRead) :
  accepted (ReadText (Some text)) ->
  scan_elements (ReadText (Some text) :: after) = Ok (strip_label text).
Proof.
  intros [Hne Hshape]. cbn [scan_elements].
  destruct text; [congruence|]. cbn [truthy negb].
  apply looks_like_token_shape in Hshape. rewrite Hshape. reflexivity.
Qed.

(** C8. The scan takes a text node exactly when its text, without a
    trailing "Reissue" or "再発行" and surrounding whitespace, is longer
    than 100, holds no space and only characters of the base64 alphabet;
    the first such node in scan order gives the token; when there is none
    the [content] attribute of [div.copyable] is consulted. *)
Theorem token_scan_first_match (page : TokenPage) (els : list TextRead) :
  console_steps page = None ->
  elements page = Ok els ->
  Forall (fun r => ~ raises r) els ->
  (forall text,
      (token_shape (strip_label text) ->
       scan_elements [ReadText (Some text)] = Ok (strip_label text))
      /\ (~ token_shape (strip_label text) ->
          scan_elements [ReadText (Some text)] = Ok []))
  /\ (forall before text after,
         els = before ++ ReadText (Some text) :: after ->
         Forall (fun r => ~ accepted r) before ->
         accepted (ReadText (Some text)) ->
         _get_access_token page = (Some (strip_label text), [EvScan]))
  /\ (Forall (fun r => ~ accepted r) els ->
      In EvFallback (snd (_get_access_token page))
      /\ fst (find_token page)
         = match copyable page with
           | Ok (Some (Ok content)) => content
           | _ => Some []
           end).
Proof.
  intros Hsteps Hels Hraise. split; [|split].
  - intros text. split.
    + intros Hshape. cbn [scan_elements].
      destruct (truthy text) eqn:Ht; cbn [negb].
      * apply looks_like_token_shape in Hshape. rewrite Hshape. reflexivity.
      * destruct text; [|discriminate Ht].
        destruct Hshape as [Hlen _]. vm_compute in Hlen. discriminate Hlen.
    + intros Hno. cbn [scan_elements].
      destruct (truthy text); cbn [negb]; [|reflexivity].
      destruct (looks_like_token (strip_label text)) eqn:Hl; [|reflexivity].
      destruct Hno. apply looks_like_token_shape, Hl.
  - intros before text after -> Hbefore Hacc.
    apply Forall_app in Hraise. destruct Hraise as [Hr1 _].
    unfold _get_access_token, find_token. rewrite Hsteps, Hels.
    rewrite scan_elements_skip by assumption.
    rewrite scan_elements_hit by assumption.
    destruct Hacc as [_ Hshape].
    rewrite (token_shape_nonempty _ Hshape). cbn [negb].
    pose proof (token_shape_nonempty _ Hshape) as Hne.
    destruct (strip_label text) as [|c t] eqn:E; [discriminate Hne|].
    rewrite <- E in *. rewrite (token_shape_strip _ Hshape). reflexivity.
  - intros Hnone.
    assert (Hscan : scan_elements els = Ok []).
    { rewrite <- (app_nil_r els). rewrite scan_elements_skip by assumption.
      reflexivity. }
    unfold _get_access_token, find_token. rewrite Hsteps, Hels, Hscan.
    cbn [truthy negb].
    destruct (copyable page) as [[[content|e]|]|e]; cbn [fst snd];
      try (split; [right; left; reflexivity | reflexivity]).
    destruct content as [[|c t]|]; cbn [fst snd];
      (split; [right; left; reflexivity | reflexivity]).
Qed.

End TokenFacts.

Section IdentifierFacts.
Import Automation Runner WorkflowSpec WriteBackSpec.

(** [_extract_basic_id] gives the empty string exactly for the addresses
    without an identifier. *)
Lemma extract_basic_id_none (url : pystr) :
  _extract_basic_id url = [] <-> ~ has_identifier url.
Proof.
  induction url as [|a rest IH].
  - split; [|reflexivity].
    intros _ (before & c & after & E & _). destruct before; discriminate E.
  - cbn [_extract_basic_id].
    destruct ((a =? 64)%N && truthy (take_while is_alnum rest)) eqn:Hhit.
    + split; [discriminate|]. intros Hno. destruct Hno.
      apply andb_true_iff in Hhit. destruct Hhit as [Ha Hrun].
      apply N.eqb_eq in Ha. subst a.
      destruct rest as [|c after]; [discriminate Hrun|].
      cbn [take_while] in Hrun. destruct (is_alnum c) eqn:Hc; [|discriminate Hrun].
      exists [], c, after. split; [reflexivity | exact Hc].
    + rewrite IH. split.
      * intros Hrest (before & c & after & E & Hc).
        destruct before as [|b before]; cbn [app] in E.
        -- injection E as -> ->. cbn [take_while] in Hhit.
           rewrite Hc in Hhit. discriminate Hhit.
        -- injection E as -> ->. apply Hrest.
           exists before, c, after. split; [reflexivity | exact Hc].
      * intros Hall (before & c & after & E & Hc). apply Hall.
        exists (a :: before), c, after. split; [rewrite E; reflexivity | exact Hc].
Qed.

(** C2, as amended.  An address without an identifier raises nothing:
    [_extract_basic_id] gives the empty string and [create_account] goes
    on.  Every later phase is called with the empty identifier (the icon
    phase when an image path is given), the result has success=true with
    an empty identifier and no error message, and the write-back holds no
    update for the identifier.  The workflow stops early, with
    success=false and the message of the exception, when a step of the
    creation raises. *)
Theorem missing_identifier_continues (w : Workflow) (account : AccountRow)
        (image_path : pystr) :
  creation_steps w = None ->
  ~ has_identifier (reloaded_url w) ->
  let r := fst (create_account w account image_path) in
  let row := Sheets.row_number account in
  _extract_basic_id (reloaded_url w) = []
  /\ success r = true
  /\ basic_id r = []
  /\ error_message r = []
  /\ snd (create_account w account image_path)
     = (if truthy image_path then [Call_change_icon [] image_path] else [])
       ++ [Call_enable_messaging_api []; Call_add_permission [];
           Call_get_friend_link [];
           Call_get_access_token (Sheets.line_name account)]
  /\ (forall config,
         updates (process_account (email config) w account image_path
                                  (get_column_config config))
         = guarded row (col_permission_link config) (permission_link r)
                   (truthy (permission_link r))
           ++ guarded row (col_friend_link config) (friend_link r)
                      (truthy (friend_link r))
           ++ guarded row (col_access_token config) (default [] (access_token r))
                      (truthy_opt (access_token r))
           ++ guarded row (col_business_account config) (email config) true)
  /\ (forall w' e,
         creation_steps w' = Some e ->
         create_account w' account image_path
         = ({| row_number := row; success := false; basic_id := [];
               permission_link := []; friend_link := [];
               access_token := Some []; error_message := e |}, [])).
Proof.
  intros Hsteps Hno r row.
  apply extract_basic_id_none in Hno.
  assert (Hc : create_account w account image_path
               = ({| row_number := row; success := true; basic_id := [];
                     permission_link := _add_permission (perm_page w);
                     friend_link := _get_friend_link (friend_page w);
                     access_token := fst (_get_access_token (token_page w));
                     error_message := [] |},
                  (if truthy image_path then [Call_change_icon [] image_path] else [])
                    ++ [Call_enable_messaging_api []; Call_add_permission [];
                        Call_get_friend_link [];
                        Call_get_access_token (Sheets.line_name account)])).
  { unfold create_account. rewrite Hsteps, Hno. reflexivity. }
  subst r. rewrite Hc. cbn [fst snd success basic_id error_message].
  repeat split; try assumption.
  - intros config. rewrite process_account_updates, write_results_config, Hc.
    reflexivity.
  - intros w' e He. unfold create_account. rewrite He. reflexivity.
Qed.

End IdentifierFacts.

Section WorkflowCounterexamples.
Import Automation Runner Examples WorkflowSpec TokenSpec.

(** C2 fails on the code: the page after the creation holds no
    identifier, yet the record is reported as a success and every later
    phase has run. *)
Lemma missing_identifier_is_fatal_counterexample :
  ~ missing_identifier_is_fatal site_no_id (account 3 "Shop") [].
Proof.
  intros Hclaim. destruct Hclaim as (Hfail & _).
  - reflexivity.
  - apply extract_basic_id_none. vm_compute. reflexivity.
  - vm_compute in Hfail. discriminate Hfail.
Qed.

(** The theorem at the record of the counterexample. *)
Lemma missing_identifier_continues_witness :
  success (fst (create_account site_no_id (account 3 "Shop") [])) = true
  /\ snd (create_account site_no_id (account 3 "Shop") [])
     = [Call_enable_messaging_api []; Call_add_permission [];
        Call_get_friend_link []; Call_get_access_token (py "Shop")].
Proof.
  assert (Hno : ~ has_identifier (reloaded_url site_no_id))
    by (apply extract_basic_id_none; vm_compute; reflexivity).
  destruct (missing_identifier_continues site_no_id (account 3 "Shop") []
              eq_refl Hno) as (_ & Hs & _ & _ & Hcalls & _).
  split; [exact Hs | exact Hcalls].
Defined.

(** The theorem at a console page whose third node holds the token and the
    label of the reissue button. *)
Lemma token_scan_first_match_witness :
  _get_access_token token_ok = (Some token121, [EvScan]).
Proof.
  assert (Hr : Forall (fun r => ~ raises r)
                      [ReadText (Some (py "Channel access token"));
                       ReadText None;
                       ReadText (Some (token121 ++ py " Reissue"))])
    by (repeat constructor; intros []).
  destruct (token_scan_first_match token_ok _ eq_refl eq_refl Hr)
    as (_ & Hfirst & _).
  apply (Hfirst [ReadText (Some (py "Channel access token")); ReadText None]
                (token121 ++ py " Reissue") []).
  - reflexivity.
  - repeat constructor.
    + intros [_ [Hlen _]]. vm_compute in Hlen. discriminate Hlen.
    + intros [].
  - split; [discriminate|].
    apply looks_like_token_shape. vm_compute. reflexivity.
Defined.

End WorkflowCounterexamples.

Section LoopFacts.
Import Automation Runner RunnerSpec.

Lemma same_work_refl (st : RunnerState) : same_work st st.
Proof. repeat split. Qed.

Lemma same_work_trans (a b c : RunnerState) :
  same_work a b -> same_work b c -> same_work a c.
Proof. unfold same_work. intros (?&?&?) (?&?&?). repeat split; congruence. Qed.

Lemma control_same_work (c : Control) (st : RunnerState) :
  same_work st (control c st).
Proof. destruct c; repeat split. Qed.

Lemma deliver_same_work (calls : list Control) (st : RunnerState) :
  same_work st (deliver calls st).
Proof.
  unfold deliver. revert st.
  induction calls as [|c calls IH]; intros st; cbn [fold_left].
  - apply same_work_refl.
  - eapply same_work_trans; [apply control_same_work | apply IH].
Qed.

Lemma await_same_work (sched : Schedule) (st : RunnerState) :
  same_work st (snd (await sched st)).
Proof.
  destruct sched; cbn [await snd];
    [apply same_work_refl | apply deliver_same_work].
Qed.

Lemma pause_wait_same_work (sched : Schedule) :
  forall st, same_work st (snd (pause_wait sched st)).
Proof.
  induction sched as [|calls sched IH]; intros st; cbn [pause_wait].
  - destruct (is_paused st); apply same_work_refl.
  - destruct (is_paused st); [|apply same_work_refl].
    destruct (should_stop (deliver calls st)) eqn:Hs; cbn [snd].
    + apply deliver_same_work.
    + eapply same_work_trans; [apply deliver_same_work | apply IH].
Qed.

(** Once set, [should_stop] stays set: no control call clears it. *)
Lemma deliver_keeps_stop (calls : list Control) (st : RunnerState) :
  should_stop st = true -> should_stop (deliver calls st) = true.
Proof.
  unfold deliver. revert st.
  induction calls as [|c calls IH]; intros st Hs; cbn [fold_left]; [exact Hs|].
  apply IH. destruct c; [exact Hs | exact Hs | reflexivity].
Qed.

Lemma await_keeps_stop (sched : Schedule) (st : RunnerState) :
  should_stop st = true -> should_stop (snd (await sched st)) = true.
Proof.
  destruct sched; cbn [await snd]; [tauto | apply deliver_keeps_stop].
Qed.

Variable process : AccountRow -> Processed.
Variable result_of : AccountRow -> AutomationResult.
Hypothesis process_returns : forall a, returned (process a) = Ok (result_of a).

(** The loop appends, for a prefix of the records and in their order, one
    result per record handed to [process_account]; it visits every record
    unless it is interrupted or hangs in a pause. *)
Lemma run_loop_prefix (total : Z) (accounts : list AccountRow) :
  forall (idx : Z) (sched : Schedule) (st : RunnerState),
  exists n : nat,
    let out := run_loop process total accounts idx sched st in
    (n <= length accounts)%nat
    /\ started (snd out) = started st ++ firstn n accounts
    /\ results (snd out) = results st ++ map result_of (firstn n accounts)
    /\ (fst out = Exhausted -> n = length accounts)
    /\ (forall e, fst out <> Aborted e).
Proof.
  induction accounts as [|account rest IH]; intros idx sched st.
  - exists 0%nat. cbn. rewrite !app_nil_r. repeat split; [lia | discriminate].
  - cbn [run_loop].
    destruct (should_stop st) eqn:Hstop.
    + exists 0%nat. cbn. rewrite !app_nil_r.
      repeat split; [lia | discriminate | discriminate].
    + pose proof (pause_wait_same_work sched st) as Hw.
      destruct (pause_wait sched st) as [[sched1|] st1]; cbn [snd] in Hw.
      * pose proof (await_same_work sched1
                      (record_start account (process account)
                         (report_progress (idx + 1) total st1))) as Hw2.
        destruct (await sched1 _) as [sched2 st3]. cbn [snd] in Hw2.
        rewrite process_returns.
        pose proof (await_same_work sched2 (append_result (result_of account) st3))
          as Hw3.
        destruct (await sched2 _) as [sched3 st5]. cbn [snd] in Hw3.
        destruct (IH (idx + 1) sched3 st5) as (n & Hn & Hst & Hres & Hex & Hab).
        exists (S n). cbn zeta in *. cbn [firstn map length].
        destruct Hw as (Hr1 & Hs1 & _). destruct Hw2 as (Hr2 & Hs2 & _).
        destruct Hw3 as (Hr3 & Hs3 & _).
        cbn [results started record_start append_result report_progress] in *.
        repeat split.
        -- lia.
        -- rewrite Hst, Hs3, Hs2, Hs1, <- app_assoc. reflexivity.
        -- rewrite Hres, Hr3, Hr2, Hr1, <- app_assoc. reflexivity.
        -- intros E. f_equal. apply Hex, E.
        -- exact Hab.
      * exists 0%nat. cbn. rewrite !app_nil_r.
        destruct Hw as (Hr1 & Hs1 & _).
        repeat split; [lia | congruence | congruence | discriminate | discriminate].
Qed.

(** Without a control call and without a pause at the start, the loop
    visits every record. *)
Lemma run_loop_undisturbed (total : Z) (accounts : list AccountRow) :
  forall (idx : Z) (sched : Schedule) (st : RunnerState),
    Forall (fun calls => calls = []) sched ->
    is_paused st = false -> should_stop st = false ->
    fst (run_loop process total accounts idx sched st) = Exhausted.
Proof.
  assert (Hawait : forall sched st,
             Forall (fun calls => calls = []) sched ->
             Forall (fun calls => calls = []) (fst (await sched st))
             /\ snd (await sched st) = st).
  { intros sched st Hq. destruct Hq as [|calls sched Hc Hq]; cbn [await fst snd].
    - split; [constructor | reflexivity].
    - subst calls. split; [exact Hq | reflexivity]. }
  induction accounts as [|account rest IH]; intros idx sched st Hq Hp Hs;
    [reflexivity|].
  cbn [run_loop]. rewrite Hs.
  assert (Hwait : pause_wait sched st = (Some sched, st))
    by (destruct sched; cbn [pause_wait]; rewrite Hp; reflexivity).
  rewrite Hwait.
  destruct (Hawait sched
              (record_start account (process account)
                 (report_progress (idx + 1) total st)) Hq) as [Hq2 E2].
  destruct (await sched _) as [sched2 st3]. cbn [fst snd] in Hq2, E2. subst st3.
  rewrite process_returns.
  destruct (Hawait sched2
              (append_result (result_of account)
                 (record_start account (process account)
                    (report_progress (idx + 1) total st))) Hq2) as [Hq3 E3].
  destruct (await sched2 _) as [sched3 st5]. cbn [fst snd] in Hq3, E3. subst st5.
  apply IH; assumption.
Qed.

(** The defect behind C1: a stop that arrives during the pause wait before
    a record ends the wait, and the record is processed all the same. *)
Lemma stop_in_pause_wait_processes (total : Z) (account : AccountRow)
      (rest : list AccountRow) (idx : Z) (sched : Schedule) (st : RunnerState) :
  is_paused st = true -> should_stop st = false ->
  let out := run_loop process total (account :: rest) idx ([Stop] :: sched) st in
  started (snd out) = started st ++ [account]
  /\ results (snd out) = results st ++ [result_of account].
Proof.
  intros Hp Hs. cbn [run_loop pause_wait]. rewrite Hs, Hp.
  cbn [deliver fold_left control stop set_flags should_stop].
  set (st2 := record_start account (process account) _).
  assert (Hs2 : should_stop st2 = true) by reflexivity.
  pose proof (await_same_work sched st2) as Hw2.
  pose proof (await_keeps_stop sched st2 Hs2) as Hk2.
  destruct (await sched st2) as [sched2 st3]. cbn [snd] in Hw2, Hk2.
  rewrite process_returns.
  set (st4 := append_result (result_of account) st3).
  assert (Hs4 : should_stop st4 = true) by exact Hk2.
  pose proof (await_same_work sched2 st4) as Hw3.
  pose proof (await_keeps_stop sched2 st4 Hs4) as Hk3.
  destruct (await sched2 st4) as [sched3 st5]. cbn [snd] in Hw3, Hk3.
  destruct Hw2 as (Hr2 & Hst2 & _). destruct Hw3 as (Hr3 & Hst3 & _).
  assert (Hout : snd (run_loop process total rest (idx + 1) sched3 st5) = st5).
  { destruct rest; cbn [run_loop]; [|rewrite Hk3]; reflexivity. }
  cbn zeta. rewrite Hout, Hst3, Hr3. subst st4 st2.
  cbn [started results append_result record_start report_progress set_flags]
    in *.
  rewrite Hst2, Hr2. split; reflexivity.
Qed.

End LoopFacts.

Section RunFacts.
Context `{U : UnicodeTable}.
Import Automation Runner RunnerSpec SheetsSpec.

Lemma create_account_row (w : Workflow) (account : AccountRow) (image_path : pystr) :
  row_number (fst (create_account w account image_path)) = Sheets.row_number account.
Proof. unfold create_account. destruct (creation_steps w); reflexivity. Qed.

Lemma cleanup_same_work (b : bool) (st : RunnerState) : same_work st (cleanup b st).
Proof. repeat split. Qed.

Lemma await_quiet (sched : Schedule) (st : RunnerState) :
  Forall (fun calls => calls = []) sched -> await sched st = (tl sched, st).
Proof. destruct 1 as [|calls sched -> _]; reflexivity. Qed.

Lemma quiet_tl (sched : Schedule) :
  Forall (fun calls => calls = []) sched ->
  Forall (fun calls => calls = []) (tl sched).
Proof. destruct 1; [constructor | assumption]. Qed.

(** The records started and the results, at every exit of [run]. *)
Lemma run_prefix (config : RunnerConfig) (env : RunEnv) (st0 : RunnerState) :
  let out := run config env st0 in
  exists (n : nat) (accounts : list AccountRow),
    eligible config env = Ok accounts
    /\ (n <= length accounts)%nat
    /\ started (snd out) = started st0 ++ firstn n accounts
    /\ results (snd out) = map (result_in env) (firstn n accounts)
    /\ (forall returned_list,
           fst out = Returns returned_list -> returned_list = results (snd out)).
Proof.
  intros out. subst out. unfold run, eligible.
  destruct (get_enabled_rows_connected (get_column_config config) (all_values env))
    as [accounts Hrows].
  rewrite Hrows.
  set (st := {| is_running := true; is_paused := is_paused st0;
                should_stop := false; results := []; started := started st0;
                progress := progress st0; sheet_updates := sheet_updates st0;
                browser_stops := browser_stops st0 |}).
  (* the exits before the loop: nothing started, nothing appended *)
  assert (Hearly : forall (f : AccountRow -> AutomationResult) (b : bool)
                          (st' : RunnerState) (ret : RunReturn),
             same_work st st' ->
             (ret = Returns [] \/ ret = Returns (results st')) ->
             exists (n : nat) (accounts' : list AccountRow),
               Ok accounts = Ok accounts'
               /\ (n <= length accounts')%nat
               /\ started (snd (ret, cleanup b st')) = started st0 ++ firstn n accounts'
               /\ results (snd (ret, cleanup b st'))
                  = map f (firstn n accounts')
               /\ (forall returned_list,
                      fst (ret, cleanup b st') = Returns returned_list ->
                      returned_list = results (snd (ret, cleanup b st')))).
  { intros f b st' ret (Hr & Hs & _) Hret.
    exists 0%nat, accounts. cbn [fst snd firstn map].
    change (results (cleanup b st')) with (results st').
    change (started (cleanup b st')) with (started st').
    rewrite Hr, Hs, app_nil_r. cbn [results started st].
    repeat split; try reflexivity; try lia.
    intros l E. destruct Hret as [-> | ->]; injection E as <-;
      [reflexivity | rewrite Hr; reflexivity]. }
  destruct (connect_ok env) eqn:Hconn; cbn [negb].
  2: { apply Hearly; [apply same_work_refl | left; reflexivity]. }
  destruct (truthy accounts) eqn:Hacc; cbn [negb].
  2: { apply Hearly; [apply same_work_refl | left; reflexivity]. }
  unfold result_in, images_of.
  destruct (row_to_image env) as [images|e] eqn:Himg.
  2: { apply (Hearly _ false st (Returns (results st)));
       [apply same_work_refl | right; reflexivity]. }
  pose proof (await_same_work (schedule env) st) as Hw1.
  destruct (await (schedule env) st) as [sched1 st1]. cbn [snd] in Hw1.
  destruct (start_ok env) eqn:Hstart; cbn [negb].
  2: { apply (Hearly _ true st1 (Returns []));
       [exact Hw1 | left; reflexivity]. }
  pose proof (await_same_work sched1 st1) as Hw2.
  destruct (await sched1 st1) as [sched2 st2]. cbn [snd] in Hw2.
  pose proof (same_work_trans _ _ _ Hw1 Hw2) as Hw12.
  destruct (fst (fst (login (restore_env env) (cred_env env) (auth0 env))))
    as [[|]|e] eqn:Hlogin.
  2: { apply (Hearly _ true (stop_browser st2) (Returns []));
       [exact Hw12 | left; reflexivity]. }
  2: { apply (Hearly _ true st2 (Returns (results st2)));
       [exact Hw12 | right; reflexivity]. }
  (* the loop *)
  set (result_of := fun a : AccountRow =>
                      fst (create_account (site env a) a
                             (default [] (images !! Sheets.row_number a)))).
  destruct (run_loop_prefix (process_with config env images) result_of
              (fun a => process_account_returns config (site env a) a _)
              (len accounts) accounts 0 sched2 st2)
    as (n & Hn & Hst & Hres & _).
  cbn zeta in Hn, Hst, Hres.
  destruct Hw12 as (Hr12 & Hs12 & _).
  rewrite Hr12 in Hres. rewrite Hs12 in Hst. cbn [results started st] in Hres, Hst.
  cbn [app] in Hres.
  destruct (run_loop (process_with config env images) (len accounts) accounts 0
                     sched2 st2) as [exit st3].
  cbn [fst snd] in *.
  exists n, accounts.
  destruct exit as [| |e|]; cbn [fst snd];
    change (results (cleanup true st3)) with (results st3);
    change (started (cleanup true st3)) with (started st3);
    (split; [reflexivity|]); (split; [exact Hn|]); (split; [exact Hst|]);
    (split; [exact Hres|]);
    intros l E; try discriminate E; injection E as <-; reflexivity.
Qed.

(** Without a control call, and when the preparation succeeds, [run]
    returns the results of all the eligible records. *)
Lemma run_undisturbed (config : RunnerConfig) (env : RunEnv) (st0 : RunnerState)
      (accounts : list AccountRow) :
  eligible config env = Ok accounts ->
  connect_ok env = true ->
  row_to_image env = Ok (images_of env) ->
  start_ok env = true ->
  fst (fst (login (restore_env env) (cred_env env) (auth0 env))) = Ok true ->
  is_paused st0 = false ->
  Forall (fun calls => calls = []) (schedule env) ->
  let out := run config env st0 in
  fst out = Returns (results (snd out))
  /\ results (snd out) = map (result_in env) accounts.
Proof.
  intros Hel Hconn Himg Hstart Hlogin Hp Hq out. subst out.
  unfold run. rewrite Hel, Hconn, Himg, Hstart, Hlogin. cbn [negb].
  destruct (truthy accounts) eqn:Hacc; cbn [negb].
  2: { destruct accounts; [split; reflexivity | discriminate Hacc]. }
  rewrite (await_quiet _ _ Hq).
  rewrite (await_quiet _ _ (quiet_tl _ Hq)).
  set (st := {| is_running := true; is_paused := is_paused st0;
                should_stop := false; results := []; started := started st0;
                progress := progress st0; sheet_updates := sheet_updates st0;
                browser_stops := browser_stops st0 |}).
  set (process := process_with config env (images_of env)).
  pose proof (run_loop_undisturbed process (result_in env)
                (fun a => process_account_returns config (site env a) a _)
                (len accounts) accounts 0 (tl (tl (schedule env))) st
                (quiet_tl _ (quiet_tl _ Hq)) Hp eq_refl) as Hexit.
  destruct (run_loop_prefix process (result_in env)
              (fun a => process_account_returns config (site env a) a _)
              (len accounts) accounts 0 (tl (tl (schedule env))) st)
    as (n & _ & _ & Hres & Hex & _).
  cbn zeta in Hres, Hex.
  destruct (run_loop process (len accounts) accounts 0 (tl (tl (schedule env))) st)
    as [exit st3].
  cbn [fst snd] in *. subst exit. cbn [fst snd].
  change (results (cleanup true st3)) with (results st3).
  split; [reflexivity|].
  rewrite Hres, (Hex eq_refl), firstn_all. subst st. reflexivity.
Qed.

(** C5. [run] appends one result per record it hands to
    [process_account], in the order of the eligible records: the records
    started are the first [n] eligible records, the results are the
    results of their workflows, result i carries the row number of
    eligible record i, and the list returned is that list.  When no
    control call is made and the preparation succeeds, [run] returns and
    [n] is the number of eligible records. *)
Theorem one_result_per_record (config : RunnerConfig) (env : RunEnv)
        (st0 : RunnerState) :
  let out := run config env st0 in
  exists (n : nat) (accounts : list AccountRow),
    eligible config env = Ok accounts
    /\ (n <= length accounts)%nat
    /\ started (snd out) = started st0 ++ firstn n accounts
    /\ results (snd out) = map (result_in env) (firstn n accounts)
    /\ map row_number (results (snd out))
       = map Sheets.row_number (firstn n accounts)
    /\ (forall returned_list,
           fst out = Returns returned_list -> returned_list = results (snd out))
    /\ (connect_ok env = true ->
        row_to_image env = Ok (images_of env) ->
        start_ok env = true ->
        fst (fst (login (restore_env env) (cred_env env) (auth0 env))) = Ok true ->
        is_paused st0 = false ->
        Forall (fun calls => calls = []) (schedule env) ->
        fst out = Returns (results (snd out)) /\ n = length accounts).
Proof.
  intros out.
  destruct (run_prefix config env st0) as (n & accounts & Hel & Hn & Hst & Hres & Hret).
  fold out in Hst, Hres, Hret.
  exists n, accounts.
  repeat (split; [assumption|]).
  split; [|split; [exact Hret|]].
  - rewrite Hres, map_map. apply map_ext. intros a. apply create_account_row.
  - intros Hconn Himg Hstart Hlogin Hp Hq.
    destruct (run_undisturbed config env st0 accounts Hel Hconn Himg Hstart
                Hlogin Hp Hq) as [Hr Hall].
    fold out in Hr, Hall. split; [exact Hr|].
    rewrite Hall in Hres. apply (f_equal (@length _)) in Hres.
    rewrite !length_map, length_firstn in Hres. lia.
Qed.

End RunFacts.

Section Runs.
Import Automation Runner Examples.

(** The scenario of the specification: of the rows "TRUE", "1", "FALSE"
    and "有効", the three eligible ones are returned, in sheet order. *)
Example eligible_rows_of_sheet :
  match get_enabled_rows (H := uncased) (Some sheet)
                         (get_column_config config_columns) with
  | Ok rows => map (fun a => (Sheets.row_number a, Sheets.line_name a)) rows
  | Raised _ => []
  end
  = [(3, py "Shop A"); (4, py "Shop B"); (6, py "Shop C")].
Proof. vm_compute. reflexivity. Qed.

(** The theorem at a run without control calls. *)
Lemma one_result_per_record_witness :
  fst (run (H := uncased) config_columns (env_with []) initial)
  = Returns (results (snd (run (H := uncased) config_columns (env_with []) initial))).
Proof.
  destruct (one_result_per_record (U := uncased) config_columns (env_with []) initial)
    as (n & accounts & _ & _ & _ & _ & _ & _ & Hfull).
  apply Hfull; first [reflexivity | constructor].
Defined.

(** C1, on the run over [sheet] in which the operator pauses during the
    first record and stops during the pause wait before the second: the
    second record (row 4) is handed to [process_account] all the same and
    its result is appended; only the third (row 6) is left out. *)
Theorem stop_during_pause_wait_starts_record :
  let out := run (H := uncased) config_columns (env_with stop_while_paused)
                 initial in
  fst out = Returns (results (snd out))
  /\ map Sheets.row_number (started (snd out)) = [3; 4]
  /\ map row_number (results (snd out)) = [3; 4]
  /\ progress (snd out) = [(1, 3); (2, 3)]
  /\ should_stop (snd out) = true.
Proof. vm_compute. repeat split; reflexivity. Qed.

(** The wait in which that stop arrives: the runner is paused after the
    first record, sleeps once with no call, and is stopped in its second
    sleep; the wait ends with no call left and the stop flag set. *)
Example pause_wait_ended_by_stop :
  let paused := pause initial in
  let waited := pause_wait [ []; [Stop] ] paused in
  is_paused paused = true
  /\ fst waited = Some []
  /\ should_stop (snd waited) = true.
Proof. vm_compute. repeat split; reflexivity. Qed.

End Runs.

Section LoginFacts.
Import Automation AuthSpec.

(** C6. With a stored session whose cookies the browser takes and whose
    restore reaches a page: when the page is not the manager surface (the
    address lacks the manager host or holds "login") and the file can be
    removed, [clear_session] is called once and removes the file, then
    [_login_with_credentials] is entered exactly once, and when [login]
    reports failure the file is still absent; when the page is the manager
    surface, [login] succeeds with no interactive login and no save, and
    the file is untouched. *)
Theorem restore_failure_single_login (renv : RestoreEnv) (cenv : CredEnv)
        (st : AuthState) (cookies : list Cookie) :
  fs st = Some (Stored cookies) ->
  add_cookies_raises renv = None ->
  navigate_raises renv = None ->
  let out := login renv cenv st in
  let events := snd out in
  let st' := snd (fst out) in
  (on_manager (restored_url renv) = false ->
   unlink_raises renv = false ->
   count is_clear events = 1%nat
   /\ In (EvClearSession true) events
   /\ fs (snd (fst (_try_restore_session renv st))) = None
   /\ count is_attempt events = 1%nat
   /\ (fst (fst out) = Ok false -> fs st' = None))
  /\ (on_manager (restored_url renv) = true ->
      fst (fst out) = Ok true
      /\ count is_attempt events = 0%nat
      /\ count is_save events = 0%nat
      /\ fs st' = fs st
      /\ is_logged_in st' = true).
Proof.
  intros Hfs Hadd Hnav out events st'. subst st' events out.
  unfold login, _try_restore_session, on_manager.
  rewrite Hfs, Hadd, Hnav. cbn [has_session load_session negb].
  split.
  - intros Hurl Hunlink. rewrite Hurl, Hunlink.
    cbn [fs clear_session].
    unfold _login_with_credentials, _save_session, save_session.
    destruct cookies as [|c cookies]; cbn [truthy app];
      destruct (login_nav cenv), (form_steps cenv), (captcha_after_submit cenv),
               (url_wait cenv), (captcha_on_timeout cenv);
      cbn [fst snd fs app];
      repeat match goal with
             | |- context [if contains ?u ?n then _ else _] =>
                 destruct (contains u n)
             | |- context [match browser_cookies cenv with _ => _ end] =>
                 destruct (browser_cookies cenv)
             | |- context [match save_fault cenv with _ => _ end] =>
                 destruct (save_fault cenv)
             end;
      cbn; repeat split; auto; discriminate.
  - intros Hurl. rewrite Hurl.
    destruct cookies as [|c cookies]; cbn; repeat split; reflexivity.
Qed.

End LoginFacts.

Section LoginRuns.
Import Automation AuthSpec Examples.

(** The theorem at a stored session that the manager refuses. *)
Lemma restore_failure_single_login_witness :
  count is_clear (snd (login restore_expired cred_refused auth_stored)) = 1%nat
  /\ In (EvClearSession true) (snd (login restore_expired cred_refused auth_stored))
  /\ fs (snd (fst (_try_restore_session restore_expired auth_stored))) = None
  /\ count is_attempt (snd (login restore_expired cred_refused auth_stored)) = 1%nat
  /\ (fst (fst (login restore_expired cred_refused auth_stored)) = Ok false ->
      fs (snd (fst (login restore_expired cred_refused auth_stored))) = None).
Proof.
  apply (proj1 (restore_failure_single_login restore_expired cred_refused
                  auth_stored [py "ses=1"] eq_refl eq_refl eq_refl));
    reflexivity.
Defined.

(** The run of that session: the restore is refused, the file is removed,
    the form is submitted once, and [login] reports failure. *)
Example expired_session_run :
  login restore_expired cred_refused auth_stored
  = (Ok false,
     {| fs := None; is_logged_in := false; context_cookies := [py "ses=1"] |},
     [EvLoadSession; EvAddCookies [py "ses=1"]; EvNavigate LINE_MANAGER_URL;
      EvClearSession true; EvLoginWithCredentials; EvSubmitCredentials]).
Proof. vm_compute. reflexivity. Qed.

End LoginRuns.

Section GateFacts.
Import App.

Lemma tick_tick (a b : Z) (st : AppState) : tick a (tick b st) = tick (b + a) st.
Proof. unfold tick. cbn. f_equal. lia. Qed.

Lemma tick_zero (st : AppState) : tick 0 st = st.
Proof. destruct st. unfold tick. cbn. f_equal. lia. Qed.

(** While the operator gives no answer the wait goes on, one interval per
    sleep. *)
Lemma poll_quiet (quiet : list (list Answer)) :
  forall (sched : list (list Answer)) (st : AppState),
    Forall (fun slot => slot = []) quiet ->
    captcha_event st = false ->
    poll (quiet ++ sched) st = poll sched (tick (POLL_MS * len quiet) st).
Proof.
  induction quiet as [|slot quiet IH]; intros sched st Hq Hev.
  - cbn [app]. change (POLL_MS * len (@nil (list Answer))) with 0.
    rewrite tick_zero. reflexivity.
  - inversion Hq as [|? ? Hslot Hq']; subst.
    cbn [app poll]. rewrite Hev.
    unfold sleep. cbn [fold_left].
    rewrite IH by (assumption || exact Hev).
    rewrite tick_tick. do 2 f_equal.
    unfold len. cbn [length]. lia.
Qed.

(** Answers only take notifications away. *)
Lemma answers_pending (answers : list Answer) :
  forall st, (pending (fold_left (fun s a => _on_captcha_required a s) answers st)
              <= pending st)%nat.
Proof.
  induction answers as [|a answers IH]; intros st; cbn [fold_left]; [lia|].
  etransitivity; [apply IH|].
  unfold _on_captcha_required.
  destruct (pending st) eqn:E; cbn [pending]; rewrite ?E; lia.
Qed.

Lemma poll_pending (sched : list (list Answer)) :
  forall st, (pending (snd (poll sched st)) <= pending st)%nat.
Proof.
  induction sched as [|answers sched IH]; intros st; cbn [poll].
  - destruct (captcha_event st); cbn; lia.
  - destruct (captcha_event st); cbn [snd clear pending]; [lia|].
    etransitivity; [apply IH|]. apply answers_pending.
Qed.

Lemma poll_events_created (sched : list (list Answer)) :
  forall st, events_created (snd (poll sched st)) = events_created st.
Proof.
  assert (Hans : forall answers st,
             events_created (fold_left (fun s a => _on_captcha_required a s)
                                       answers st) = events_created st).
  { induction answers as [|a answers IH]; intros st; cbn [fold_left]; [reflexivity|].
    rewrite IH. unfold _on_captcha_required. destruct (pending st); reflexivity. }
  induction sched as [|answers sched IH]; intros st; cbn [poll].
  - destruct (captcha_event st); reflexivity.
  - destruct (captcha_event st); [reflexivity|].
    rewrite IH. apply Hans.
Qed.

(** Without an answer the wait never ends. *)
Lemma poll_unanswered (quiet : list (list Answer)) :
  forall st, Forall (fun slot => slot = []) quiet ->
             captcha_event st = false ->
             fst (poll quiet st) = None.
Proof.
  induction quiet as [|slot quiet IH]; intros st Hq Hev; cbn [poll]; rewrite Hev.
  - reflexivity.
  - inversion Hq as [|? ? Hslot Hq']; subst. apply IH; [assumption | exact Hev].
Qed.

(** C9. A wait begun with the flag clear and no dialog open ends at the
    end of the very sleep in which the operator accepts the dialog (the
    worker is released within one poll interval of the signal), with the
    flag cleared again and no dialog left; it emits one notification,
    creates no event object, and at no point of any wait is more than one
    notification outstanding.  A later detection therefore waits afresh:
    without a new answer it never passes, and with one it ends at the
    sleep of that answer. *)
Theorem challenge_signal_single_use (quiet : list (list Answer))
        (more : list Answer) (rest : list (list Answer)) (st : AppState) :
  captcha_event st = false ->
  pending st = 0%nat ->
  Forall (fun slot => slot = []) quiet ->
  let out := captcha_callback (quiet ++ (Accepted :: more) :: rest) st in
  fst out = Some rest
  /\ clock_ms (snd out) = clock_ms st + POLL_MS * (len quiet + 1)
  /\ captcha_event (snd out) = false
  /\ pending (snd out) = 0%nat
  /\ emitted (snd out) = S (emitted st)
  /\ events_created (snd out) = events_created st
  /\ (forall sched, (pending (snd (captcha_callback sched st)) <= 1)%nat)
  /\ (forall quiet2,
         Forall (fun slot => slot = []) quiet2 ->
         fst (captcha_callback quiet2 (snd out)) = None)
  /\ (forall quiet2 more2 rest2,
         Forall (fun slot => slot = []) quiet2 ->
         let out2 := captcha_callback (quiet2 ++ (Accepted :: more2) :: rest2)
                                      (snd out) in
         fst out2 = Some rest2
         /\ clock_ms (snd out2)
            = clock_ms (snd out) + POLL_MS * (len quiet2 + 1)
         /\ captcha_event (snd out2) = false).
Proof.
  (* one wait, from any state with the flag clear and no dialog open *)
  assert (Hwait : forall quiet more rest st,
             captcha_event st = false -> pending st = 0%nat ->
             Forall (fun slot => slot = []) quiet ->
             captcha_callback (quiet ++ (Accepted :: more) :: rest) st
             = (Some rest,
                {| captcha_event := false; events_created := events_created st;
                   emitted := S (emitted st); pending := 0;
                   clock_ms := clock_ms st + POLL_MS * (len quiet + 1) |})).
  { clear. intros quiet more rest st Hev Hpen Hq.
    unfold captcha_callback. rewrite poll_quiet by (assumption || exact Hev).
    cbn [poll tick emit captcha_event]. rewrite Hev.
    unfold sleep. cbn [fold_left].
    unfold _on_captcha_required at 2.
    change (pending (tick (POLL_MS * len quiet) (emit st))) with (S (pending st)).
    rewrite Hpen.
    assert (Hmore : forall l s, pending s = 0%nat ->
               fold_left (fun s a => _on_captcha_required a s) l s = s).
    { induction l as [|a l IH]; intros s Hs; cbn [fold_left]; [reflexivity|].
      unfold _on_captcha_required at 2. rewrite Hs. apply IH, Hs. }
    rewrite Hmore by reflexivity.
    destruct rest; cbn [poll tick captcha_event clear events_created emitted
                             pending clock_ms];
      unfold clear, tick, emit; cbn;
      (f_equal; f_equal; lia). }
  intros Hev Hpen Hq out. subst out.
  rewrite (Hwait quiet more rest st Hev Hpen Hq). cbn [fst snd].
  cbn [captcha_event pending emitted events_created clock_ms].
  repeat split.
  - intros sched. unfold captcha_callback.
    etransitivity; [apply poll_pending|]. cbn [emit pending]. lia.
  - intros quiet2 Hq2. unfold captcha_callback.
    apply poll_unanswered; [exact Hq2 | reflexivity].
  - rewrite Hwait by (reflexivity || assumption). reflexivity.
  - rewrite Hwait by (reflexivity || assumption). reflexivity.
  - rewrite Hwait by (reflexivity || assumption). reflexivity.
Qed.

End GateFacts.

Section GateRuns.
Import App Examples.

(** The theorem at a wait that is answered during its third sleep. *)
Lemma challenge_signal_single_use_witness :
  fst (captcha_callback [ []; []; [Accepted]; [] ] app0) = Some [ [] ]
  /\ clock_ms (snd (captcha_callback [ []; []; [Accepted]; [] ] app0)) = 1500
  /\ captcha_event (snd (captcha_callback [ []; []; [Accepted]; [] ] app0)) = false.
Proof.
  destruct (challenge_signal_single_use [ []; [] ] [] [ [] ] app0 eq_refl eq_refl)
    as (H1 & H2 & H3 & _).
  - repeat constructor.
  - split; [exact H1 | split; [exact H2 | exact H3]].
Defined.

End GateRuns.

(* ===================================================================== *)
(** * Further properties of the code *)
(* ===================================================================== *)

Section AddressFacts.
Import SheetUrl.

Lemma startswith_spec (s prefix : pystr) :
  startswith s prefix = true <-> exists rest, s = prefix ++ rest.
Proof.
  revert s. induction prefix as [|p prefix IH]; intros s; cbn [startswith].
  - split; [intros _; exists s; reflexivity | reflexivity].
  - destruct s as [|c s].
    + split; [discriminate | intros [rest E]; discriminate E].
    + rewrite andb_true_iff, N.eqb_eq, IH. split.
      * intros [-> [rest ->]]. exists rest. reflexivity.
      * intros [rest E]. injection E as -> ->. split; [reflexivity | eauto].
Qed.

Lemma skipn_app_exact {A} (l1 l2 : list A) : skipn (length l1) (l1 ++ l2) = l2.
Proof. induction l1; [reflexivity | assumption]. Qed.

(** What follows the longest run of a class does not start in the class. *)
Lemma take_while_stops (p : N -> bool) (s : pystr) :
  match skipn (length (take_while p s)) s with
  | [] => True
  | c :: _ => p c = false
  end.
Proof.
  induction s as [|c s IH]; cbn [take_while]; [exact I|].
  destruct (p c) eqn:Hc; cbn [length skipn]; [exact IH | exact Hc].
Qed.

Lemma take_while_run (p : N -> bool) (run rest : pystr) :
  Forall (fun c => p c = true) run ->
  match rest with [] => True | c :: _ => p c = false end ->
  take_while p (run ++ rest) = run.
Proof.
  intros Hrun Hrest. induction Hrun as [|c run Hc _ IH]; cbn [app take_while].
  - destruct rest as [|c rest]; [reflexivity|].
    cbn [take_while]. rewrite Hrest. reflexivity.
  - rewrite Hc, IH. reflexivity.
Qed.

(** A match of [search_after] is a non-empty run of identifier characters
    that stands in the address right after the marker and ends where the
    class ends. *)
Lemma search_after_sound (marker url id : pystr) :
  search_after marker url = Some id ->
  id <> []
  /\ Forall (fun c => is_id_char c = true) id
  /\ exists before after,
       url = before ++ marker ++ id ++ after
       /\ match after with [] => True | c :: _ => is_id_char c = false end.
Proof.
  induction url as [|c rest IH]; cbn [search_after]; [discriminate|].
  destruct (startswith (c :: rest) marker
            && truthy (take_while is_id_char (skipn (length marker) (c :: rest))))
    eqn:Hhit.
  - intros [= <-]. apply andb_true_iff in Hhit. destruct Hhit as [Hm Hne].
    apply startswith_spec in Hm. destruct Hm as [tail E].
    rewrite E, skipn_app_exact in *.
    split; [destruct (take_while is_id_char tail); [discriminate Hne | discriminate]|].
    split; [apply take_while_Forall|].
    exists [], (skipn (length (take_while is_id_char tail)) tail).
    cbn [app]. split.
    + f_equal. apply take_while_split.
    + apply take_while_stops.
  - intros Hrest. destruct (IH Hrest) as (Hne & Hall & before & after & E & Hafter).
    split; [exact Hne|]. split; [exact Hall|].
    exists (c :: before), after. split; [rewrite E; reflexivity | exact Hafter].
Qed.

(** [search_after] finds nothing exactly when the marker is nowhere
    followed by an identifier character. *)
Lemma search_after_none (marker url : pystr) :
  search_after marker url = None
  <-> ~ exists before c after,
        url = before ++ marker ++ c :: after /\ is_id_char c = true.
Proof.
  induction url as [|a rest IH]; cbn [search_after].
  - split; [|reflexivity]. intros _ (before & c & after & E & _).
    destruct before; [destruct marker|]; discriminate E.
  - destruct (startswith (a :: rest) marker
              && truthy (take_while is_id_char (skipn (length marker) (a :: rest))))
      eqn:Hhit.
    + split; [discriminate|]. intros Hno. destruct Hno.
      apply andb_true_iff in Hhit. destruct Hhit as [Hm Hne].
      apply startswith_spec in Hm. destruct Hm as [tail E].
      rewrite E, skipn_app_exact in Hne.
      destruct tail as [|c tail]; [discriminate Hne|]. cbn [take_while] in Hne.
      destruct (is_id_char c) eqn:Hc; [|discriminate Hne].
      exists [], c, tail. split; [exact E | exact Hc].
    + rewrite IH. split.
      * intros Hrest (before & c & after & E & Hc).
        destruct before as [|b before].
        -- cbn [app] in E.
           assert (Hm : startswith (a :: rest) marker = true)
             by (apply startswith_spec; eauto).
           rewrite Hm, E, skipn_app_exact in Hhit. cbn [take_while] in Hhit.
           rewrite Hc in Hhit. discriminate Hhit.
        -- injection E as -> ->. apply Hrest. eauto.
      * intros Hall (before & c & after & E & Hc). apply Hall.
        exists (a :: before), c, after. split; [rewrite E; reflexivity | exact Hc].
Qed.

(** X5. An identifier returned by [extract_spreadsheet_id] is not empty,
    holds identifier characters only, and stands in the address right after
    "/d/" or, when no "/d/" is followed by an identifier character, right
    after "key="; it ends where the identifier characters end. *)
Theorem extract_spreadsheet_id_sound (url id : pystr) :
  extract_spreadsheet_id url = Some id ->
  id <> []
  /\ Forall (fun c => is_id_char c = true) id
  /\ exists marker before after,
       url = before ++ marker ++ id ++ after
       /\ match after with [] => True | c :: _ => is_id_char c = false end
       /\ (marker = py "/d/"
           \/ marker = py "key=" /\ search_after (py "/d/") url = None).
Proof.
  unfold extract_spreadsheet_id.
  destruct (search_after (py "/d/") url) as [id1|] eqn:H1.
  - intros [= <-].
    destruct (search_after_sound _ _ _ H1) as (Hne & Hall & before & after & E & Ha).
    split; [exact Hne|]. split; [exact Hall|].
    exists (py "/d/"), before, after. auto.
  - intros H2.
    destruct (search_after_sound _ _ _ H2) as (Hne & Hall & before & after & E & Ha).
    split; [exact Hne|]. split; [exact Hall|].
    exists (py "key="), before, after. auto.
Qed.

(** X6. [validate_url] refuses exactly the addresses in which neither
    "/d/" nor "key=" is followed by a letter, a digit, "-" or "_". *)
Theorem validate_url_spec (url : pystr) :
  validate_url url = false
  <-> ~ exists marker before c after,
        (marker = py "/d/" \/ marker = py "key=")
        /\ url = before ++ marker ++ c :: after /\ is_id_char c = true.
Proof.
  unfold validate_url, extract_spreadsheet_id.
  assert (Hfound : forall marker id,
             search_after marker url = Some id ->
             exists before c after,
               url = before ++ marker ++ c :: after /\ is_id_char c = true).
  { intros marker id H.
    destruct (search_after_sound _ _ _ H) as (Hne & Hall & before & after & E & _).
    destruct id as [|c id]; [congruence|].
    exists before, c, (id ++ after). split; [exact E|].
    inversion Hall; assumption. }
  destruct (search_after (py "/d/") url) as [id1|] eqn:H1.
  - split; [discriminate|]. intros Hno. destruct Hno.
    destruct (Hfound _ _ H1) as (before & c & after & E & Hc).
    exists (py "/d/"), before, c, after. auto.
  - destruct (search_after (py "key=") url) as [id2|] eqn:H2.
    + split; [discriminate|]. intros Hno. destruct Hno.
      destruct (Hfound _ _ H2) as (before & c & after & E & Hc).
      exists (py "key="), before, c, after. auto.
    + split; [|reflexivity]. intros _ (marker & before & c & after & Hm & E & Hc).
      apply search_after_none in H1. apply search_after_none in H2.
      destruct Hm as [-> | ->]; [apply H1 | apply H2]; eauto.
Qed.

Lemma startswith_app (prefix rest : pystr) : startswith (prefix ++ rest) prefix = true.
Proof. apply startswith_spec. eauto. Qed.

Lemma search_after_here (marker id after : pystr) :
  marker <> [] ->
  id <> [] ->
  Forall (fun c => is_id_char c = true) id ->
  match after with [] => True | c :: _ => is_id_char c = false end ->
  search_after marker (marker ++ id ++ after) = Some id.
Proof.
  intros Hm Hne Hall Hafter.
  destruct marker as [|m marker]; [congruence|].
  change ((m :: marker) ++ id ++ after) with (m :: (marker ++ id ++ after)).
  cbn [search_after].
  change (m :: marker ++ id ++ after) with ((m :: marker) ++ id ++ after).
  rewrite startswith_app, skipn_app_exact, take_while_run by assumption.
  destruct id; [congruence | reflexivity].
Qed.

Lemma search_after_miss (marker : pystr) (c : N) (url : pystr) :
  startswith (c :: url) marker = false ->
  search_after marker (c :: url) = search_after marker url.
Proof. intros H. cbn [search_after]. rewrite H. reflexivity. Qed.

(** X7. The address of a spreadsheet as the browser shows it gives back
    its identifier: whatever non-empty identifier of letters, digits, "-"
    and "_" follows "https://docs.google.com/spreadsheets/d/", and whatever
    follows the identifier from its first other character on. *)
Theorem extract_spreadsheet_id_roundtrip (id after : pystr) :
  id <> [] ->
  Forall (fun c => is_id_char c = true) id ->
  match after with [] => True | c :: _ => is_id_char c = false end ->
  extract_spreadsheet_id
    (py "https://docs.google.com/spreadsheets/d/" ++ id ++ after)
  = Some id.
Proof.
  intros Hne Hall Hafter. unfold extract_spreadsheet_id.
  assert (E : search_after (py "/d/")
                (py "https://docs.google.com/spreadsheets/d/" ++ id ++ after)
              = Some id).
  { let p := eval vm_compute in (py "https://docs.google.com/spreadsheets") in
    change (py "https://docs.google.com/spreadsheets/d/")
      with (p ++ py "/d/").
    rewrite <- app_assoc. cbn [app].
    repeat (rewrite search_after_miss by reflexivity).
    apply search_after_here; [discriminate | assumption..]. }
  rewrite E. reflexivity.
Qed.

End AddressFacts.

Section AddressRuns.
Import SheetUrl.

(** The round trip at an address with an edit suffix. *)
Lemma extract_spreadsheet_id_roundtrip_witness :
  extract_spreadsheet_id
    (py "https://docs.google.com/spreadsheets/d/1AbC-dEf_9/edit#gid=0")
  = Some (py "1AbC-dEf_9").
Proof.
  apply (extract_spreadsheet_id_roundtrip (py "1AbC-dEf_9") (py "/edit#gid=0")).
  - discriminate.
  - repeat constructor.
  - reflexivity.
Defined.

(** An identifier that was found, in an address that carries both forms:
    the one after "/d/" is taken. *)
Lemma extract_spreadsheet_id_sound_witness :
  extract_spreadsheet_id (py "https://x.test/ccc?key=zzz&u=/d/abc") = Some (py "abc")
  /\ Forall (fun c => is_id_char c = true) (py "abc").
Proof.
  destruct (extract_spreadsheet_id_sound
              (py "https://x.test/ccc?key=zzz&u=/d/abc") (py "abc") eq_refl)
    as (Hne & Hall & _).
  split; [reflexivity | assumption].
Defined.

(** An address that is refused. *)
Lemma validate_url_spec_witness :
  ~ exists marker before c after,
      (marker = py "/d/" \/ marker = py "key=")
      /\ py "https://docs.google.com/spreadsheets/d/" = before ++ marker ++ c :: after
      /\ is_id_char c = true.
Proof.
  apply (proj1 (validate_url_spec (py "https://docs.google.com/spreadsheets/d/"))).
  reflexivity.
Defined.

End AddressRuns.

Section DecoderFacts.
Context `{U : UnicodeTable}.
Import SheetUrl SheetsMore SheetsSpec.

(** The value the decoder folds over an uppercased string. *)
Local Abbreviation digits_value :=
  (fold_left (fun result char => result * 26 + (Z.of_N char - 65 + 1))).

Lemma is_letter_spec (c : N) :
  is_letter c = true <-> ((65 <= c /\ c <= 90) \/ (97 <= c /\ c <= 122))%N.
Proof. unfold is_letter. rewrite orb_true_iff, !between_spec. reflexivity. Qed.

(** [upper] on ASCII letters: one capital letter for each letter. *)
Lemma upper_letters (s : pystr) :
  Forall (fun c => is_letter c = true) s ->
  length (upper s) = length s
  /\ Forall (fun c => (65 <= c /\ c <= 90)%N) (upper s).
Proof.
  induction 1 as [|c s Hc _ [IHlen IHall]]; [split; [reflexivity | constructor]|].
  unfold upper in *. cbn [flat_map]. unfold upper_cp at 1 3.
  apply is_letter_spec in Hc.
  destruct (between 97 122 c) eqn:Hlow.
  - apply between_spec in Hlow. cbn [app length]. split; [congruence|].
    constructor; [lia | exact IHall].
  - assert (Hup : (65 <= c /\ c <= 90)%N).
    { destruct Hc as [Hc|Hc]; [exact Hc|].
      apply between_spec in Hc. congruence. }
    replace (c <? 128)%N with true by (symmetry; apply N.ltb_lt; lia).
    cbn [app length]. split; [congruence|]. constructor; assumption.
Qed.

Lemma digits_value_snoc (s : pystr) (c : N) (start : Z) :
  digits_value (s ++ [c]) start = digits_value s start * 26 + (Z.of_N c - 65 + 1).
Proof. rewrite fold_left_app. reflexivity. Qed.

Lemma digits_value_positive (s : pystr) :
  Forall (fun c => (65 <= c /\ c <= 90)%N) s ->
  0 <= digits_value s 0 /\ (s <> [] -> 1 <= digits_value s 0).
Proof.
  induction s as [|c s IH] using rev_ind; intros Hall.
  - split; [reflexivity | congruence].
  - apply Forall_app in Hall. destruct Hall as [Hs Hc].
    inversion Hc as [|? ? Hc1 _]; subst.
    destruct (IH Hs) as [H0 _]. rewrite digits_value_snoc. split; intros; lia.
Qed.

(** Bijective base 26: the value determines the capital letters. *)
Lemma digits_value_injective (s : pystr) :
  forall t,
    Forall (fun c => (65 <= c /\ c <= 90)%N) s ->
    Forall (fun c => (65 <= c /\ c <= 90)%N) t ->
    digits_value s 0 = digits_value t 0 -> s = t.
Proof.
  induction s as [|c s IH] using rev_ind; intros t Hs Ht E.
  - destruct t as [|d t]; [reflexivity|].
    destruct (digits_value_positive _ Ht) as [_ H1].
    specialize (H1 ltac:(discriminate)).
    change (digits_value [] 0) with 0 in E. lia.
  - destruct t as [|d t _] using rev_ind.
    + destruct (digits_value_positive _ Hs) as [_ H1].
      specialize (H1 ltac:(intros X; destruct s; discriminate X)).
      change (digits_value [] 0) with 0 in E. lia.
    + apply Forall_app in Hs. destruct Hs as [Hs Hc].
      apply Forall_app in Ht. destruct Ht as [Ht Hd].
      inversion Hc as [|? ? Hc1 _]; subst. inversion Hd as [|? ? Hd1 _]; subst.
      rewrite !digits_value_snoc in E.
      assert (Ev : digits_value s 0 = digits_value t 0) by lia.
      assert (Ec : c = d) by lia.
      rewrite (IH t Hs Ht Ev), Ec. reflexivity.
Qed.

Lemma col_letter_of_letters (s : pystr) :
  s <> [] ->
  Forall (fun c => is_letter c = true) s ->
  _col_letter_to_index s = digits_value (upper s) 0 - 1.
Proof.
  intros Hne Hall. unfold _col_letter_to_index.
  destruct s as [|c s]; [congruence|]. cbn [truthy negb orb].
  replace (eqb (c :: s) (py "-")) with false; [reflexivity|].
  symmetry. apply not_true_iff_false. rewrite eqb_spec. intros E.
  inversion Hall as [|? ? Hc _]; subst. injection E as -> _.
  discriminate Hc.
Qed.

(** X2. On non-empty strings of ASCII letters the decoder is bijective
    base 26 without regard to case: the index is never negative, and two
    strings have the same index exactly when they are the same letters up
    to case. *)
Theorem col_letter_to_index_injective (s t : pystr) :
  s <> [] -> t <> [] ->
  Forall (fun c => is_letter c = true) s ->
  Forall (fun c => is_letter c = true) t ->
  0 <= _col_letter_to_index s
  /\ (_col_letter_to_index s = _col_letter_to_index t <-> upper s = upper t).
Proof.
  intros Hs Ht Hls Hlt.
  rewrite !col_letter_of_letters by assumption.
  destruct (upper_letters s Hls) as [Hlen_s Hup_s].
  destruct (upper_letters t Hlt) as [Hlen_t Hup_t].
  split.
  - destruct (digits_value_positive _ Hup_s) as [_ H1].
    assert (upper s <> []) by (intros E; rewrite E in Hlen_s; destruct s; [congruence | discriminate]).
    specialize (H1 H). lia.
  - split.
    + intros E. apply digits_value_injective; [assumption.. | lia].
    + intros ->. reflexivity.
Qed.

(** X1. The options of the column boxes and the decoder agree: there are
    53 different options, and the option at position [i] decodes to column
    [i - 1], the first one ("-") to -1. *)
Theorem column_options_decode :
  length get_column_options = 53%nat
  /\ NoDup get_column_options
  /\ forall (i : nat) (letter : pystr),
       nth_error get_column_options i = Some letter ->
       _col_letter_to_index letter = Z.of_nat i - 1.
Proof.
  split; [reflexivity|]. split.
  - apply (bool_decide_unpack _). vm_compute. exact I.
  - assert (Hall : map _col_letter_to_index get_column_options
                   = map (fun i => Z.of_nat i - 1) (seq 0 53))
      by (vm_compute; reflexivity).
    intros i letter Hi.
    assert (Hlt : (i < 53)%nat).
    { change 53%nat with (length get_column_options).
      apply nth_error_Some. rewrite Hi. discriminate. }
    apply (map_nth_error _col_letter_to_index) in Hi.
    rewrite Hall in Hi.
    rewrite (map_nth_error (fun i => Z.of_nat i - 1) i (seq 0 53) (d := i)) in Hi.
    + injection Hi as <-. reflexivity.
    + rewrite nth_error_nth' with (d := 0%nat) by (rewrite length_seq; exact Hlt).
      rewrite seq_nth by exact Hlt. reflexivity.
Qed.

End DecoderFacts.

Section EnabledRowsFacts.
Context `{U : UnicodeTable}.
Import SheetsMore SheetsSpec.

Lemma numbered_In (rows : list (list pystr)) :
  forall (first n : Z) (row : list pystr),
    In (n, row) (numbered rows first) ->
    exists k : nat, n = first + Z.of_nat k /\ nth_error rows k = Some row.
Proof.
  induction rows as [|r rows IH]; intros first n row Hin; [destruct Hin|].
  cbn [numbered In] in Hin. destruct Hin as [[= <- <-]|Hin].
  - exists 0%nat. split; [lia | reflexivity].
  - destruct (IH _ _ _ Hin) as (k & -> & Hk).
    exists (S k). split; [lia | exact Hk].
Qed.

(** The numbers of the rows that pass a filter grow strictly, from the
    first number on. *)
Lemma numbered_sorted (keep : Z * list pystr -> bool) (rows : list (list pystr)) :
  forall first : Z,
    StronglySorted Z.lt (map fst (List.filter keep (numbered rows first)))
    /\ Forall (fun n => first <= n) (map fst (List.filter keep (numbered rows first))).
Proof.
  induction rows as [|r rows IH]; intros first; cbn [numbered List.filter].
  - split; constructor.
  - destruct (IH (first + 1)) as [Hs Hb].
    assert (Hb' : Forall (fun n => first < n)
                         (map fst (List.filter keep (numbered rows (first + 1))))).
    { eapply List.Forall_impl; [|exact Hb]. cbn. intros; lia. }
    destruct (keep (first, r)); cbn [map fst].
    + split; [constructor; assumption|].
      constructor; [lia|]. eapply List.Forall_impl; [|exact Hb']. cbn. intros; lia.
    + split; [exact Hs|]. eapply List.Forall_impl; [|exact Hb']. cbn. intros; lia.
Qed.

Lemma In_firstn {A} (n : nat) (l : list A) (x : A) : In x (firstn n l) -> In x l.
Proof.
  intros H. rewrite <- (firstn_skipn n l). apply in_or_app. left. exact H.
Qed.

Lemma firstn_sorted (n : nat) (l : list Z) :
  StronglySorted Z.lt l -> StronglySorted Z.lt (firstn n l).
Proof.
  intros Hs. revert n. induction Hs as [|x l Hs IH Hx]; intros [|n]; cbn [firstn];
    try constructor.
  - apply IH.
  - apply List.Forall_forall. intros y Hy.
    apply In_firstn in Hy. revert y Hy. apply List.Forall_forall. exact Hx.
Qed.

Lemma enabled_rows_computed (column_config : gmap pystr pystr)
      (all_values : list (list pystr)) (rows : list AccountRow) :
  get_enabled_rows (Some all_values) column_config = Ok rows ->
  rows = firstn (Z.to_nat MAX_ACCOUNTS)
           (map (fun nr => make_account (col_indices column_config) (fst nr) (snd nr))
                (List.filter (is_eligible (col_indices column_config))
                             (numbered (skipn (Z.to_nat HEADER_ROWS) all_values)
                                       (HEADER_ROWS + 1)))).
Proof.
  unfold get_enabled_rows.
  destruct (len all_values <? HEADER_ROWS + 1) eqn:Hshort; intros [= <-].
  - apply Z.ltb_lt in Hshort. rewrite skipn_all2; [reflexivity|].
    unfold len, HEADER_ROWS in *. lia.
  - rewrite enabled_loop_spec by (cbn; lia). reflexivity.
Qed.

(** X3. The records [get_enabled_rows] returns are at most 100, carry
    strictly growing row numbers (so no two share one), and each is built
    from the sheet row of its own 1-based number, a row after the two
    header rows, within the sheet and eligible. *)
Theorem get_enabled_rows_invariants (column_config : gmap pystr pystr)
        (all_values : list (list pystr)) (rows : list AccountRow) :
  get_enabled_rows (Some all_values) column_config = Ok rows ->
  (length rows <= 100)%nat
  /\ StronglySorted Z.lt (map Sheets.row_number rows)
  /\ Forall (fun a => Sheets.enabled a = true
                      /\ Sheets.row_number a <= len all_values
                      /\ built_from (col_indices column_config) all_values a) rows.
Proof.
  intros Hrows. apply enabled_rows_computed in Hrows.
  set (ci := col_indices column_config) in *.
  set (kept := List.filter (is_eligible ci)
                 (numbered (skipn (Z.to_nat HEADER_ROWS) all_values)
                           (HEADER_ROWS + 1))) in *.
  split; [|split].
  - rewrite Hrows, length_firstn.
    change (Z.to_nat MAX_ACCOUNTS) with 100%nat. lia.
  - rewrite Hrows, <- firstn_map, map_map. cbn [Sheets.row_number make_account].
    apply firstn_sorted.
    exact (proj1 (numbered_sorted (is_eligible ci) _ _)).
  - rewrite Hrows. apply List.Forall_forall. intros a Ha.
    apply In_firstn in Ha. apply in_map_iff in Ha.
    destruct Ha as ([n row] & <- & Hin). cbn [fst snd].
    apply filter_In in Hin. destruct Hin as [Hin Hel].
    apply numbered_In in Hin. destruct Hin as (k & -> & Hk).
    assert (Hk' : nth_error all_values (2 + k) = Some row).
    { rewrite <- Hk. symmetry. apply nth_error_skipn. }
    assert (Hlt : (2 + k < length all_values)%nat).
    { apply nth_error_Some. rewrite Hk'. discriminate. }
    split; [reflexivity|]. cbn [Sheets.row_number make_account].
    split; [unfold len, HEADER_ROWS; lia|].
    exists row. cbn [Sheets.row_number make_account].
    repeat split.
    + rewrite <- Hk'. f_equal. unfold HEADER_ROWS. lia.
    + unfold HEADER_ROWS. lia.
    + exact Hel.
Qed.

Lemma nothing_eligible (ci : ColIndices) (l : list (Z * list pystr)) :
  ix_enabled ci < 0 -> List.filter (is_eligible ci) l = [].
Proof.
  intros Hneg. induction l as [|nr l IH]; [reflexivity|].
  cbn [List.filter]. unfold is_eligible at 1, enabled_cell.
  replace (0 <=? ix_enabled ci) with false by (symmetry; apply Z.leb_gt; lia).
  exact IH.
Qed.

(** X4. [get_enabled_rows] returns no record, and raises nothing, when the
    configuration has no "col_enabled" key or maps it to the empty string
    or to "-", and when the sheet has no row after the two header rows;
    without a worksheet it raises. *)
Theorem get_enabled_rows_nothing (column_config : gmap pystr pystr)
        (all_values : list (list pystr)) :
  (column_config !! py "col_enabled" = None
   \/ column_config !! py "col_enabled" = Some []
   \/ column_config !! py "col_enabled" = Some (py "-")
   \/ (length all_values <= 2)%nat) ->
  get_enabled_rows (Some all_values) column_config = Ok []
  /\ get_enabled_rows None column_config = Raised NOT_CONNECTED.
Proof.
  intros Hcase. split; [|reflexivity].
  destruct (get_enabled_rows_connected column_config all_values) as [rows Hrows].
  rewrite Hrows. f_equal. apply enabled_rows_computed in Hrows. rewrite Hrows.
  destruct Hcase as [H|[H|[H|H]]].
  1-3: rewrite nothing_eligible; [reflexivity|];
       unfold col_indices, cfg_get; cbn [ix_enabled]; rewrite H; reflexivity.
  rewrite skipn_all2 by (change (Z.to_nat HEADER_ROWS) with 2%nat; lia).
  reflexivity.
Qed.

End EnabledRowsFacts.

Section IdentifierMore.
Import Automation Runner WorkflowSpec WriteBackSpec TokenSpec.

Lemma extract_basic_id_found (tail after : pystr) :
  tail <> [] ->
  Forall (fun c => is_alnum c = true) tail ->
  match after with [] => True | c :: _ => is_alnum c = false end ->
  _extract_basic_id (64%N :: tail ++ after) = 64%N :: tail.
Proof.
  intros Hne Hall Hafter. cbn [_extract_basic_id].
  rewrite take_while_run by assumption.
  destruct tail; [congruence | reflexivity].
Qed.

Lemma has_identifier_tail (a : N) (url : pystr) :
  has_identifier url -> has_identifier (a :: url).
Proof.
  intros (before & c & after & E & Hc).
  exists (a :: before), c, after. split; [rewrite E; reflexivity | exact Hc].
Qed.

(** X8. [_extract_basic_id] returns the leftmost identifier of the address
    with all its alphanumeric characters: either the address holds no '@'
    followed by an alphanumeric character and the result is empty, or the
    result is '@' with the longest run of alphanumeric characters after
    the first such '@'.  An identifier written into an address after a
    part without identifier is read back. *)
Theorem extract_basic_id_leftmost :
  (forall url,
      (_extract_basic_id url = [] /\ ~ has_identifier url)
      \/ exists before tail after,
           url = before ++ 64%N :: tail ++ after
           /\ ~ has_identifier before
           /\ tail <> []
           /\ Forall (fun c => is_alnum c = true) tail
           /\ match after with [] => True | c :: _ => is_alnum c = false end
           /\ _extract_basic_id url = 64%N :: tail)
  /\ (forall before tail after,
         ~ has_identifier before ->
         tail <> [] ->
         Forall (fun c => is_alnum c = true) tail ->
         match after with [] => True | c :: _ => is_alnum c = false end ->
         _extract_basic_id (before ++ 64%N :: tail ++ after) = 64%N :: tail).
Proof.
  split.
  - induction url as [|a rest IH].
    + left. split; [reflexivity|]. apply extract_basic_id_none. reflexivity.
    + cbn [_extract_basic_id].
      destruct ((a =? 64)%N && truthy (take_while is_alnum rest)) eqn:Hhit.
      * right. apply andb_true_iff in Hhit. destruct Hhit as [Ha Hrun].
        apply N.eqb_eq in Ha. subst a.
        exists [], (take_while is_alnum rest),
               (skipn (length (take_while is_alnum rest)) rest).
        cbn [app]. repeat split.
        -- f_equal. apply take_while_split.
        -- apply extract_basic_id_none. reflexivity.
        -- destruct (take_while is_alnum rest); [discriminate Hrun | discriminate].
        -- apply take_while_Forall.
        -- apply take_while_stops.
      * destruct IH as [[E Hno]|(before & tail & after & E & Hno & Hne & Hall & Ha & Hr)].
        -- left. split; [exact E|].
           apply extract_basic_id_none. cbn [_extract_basic_id].
           rewrite Hhit. exact E.
        -- right. exists (a :: before), tail, after.
           repeat split; try assumption.
           ++ rewrite E. reflexivity.
           ++ apply extract_basic_id_none. cbn [_extract_basic_id].
              assert (Hmiss : (a =? 64)%N && truthy (take_while is_alnum before) = false).
              { destruct (a =? 64)%N eqn:Ea; [|reflexivity]. cbn [andb].
                rewrite E in Hhit. cbn [andb] in Hhit.
                destruct before as [|b before]; [reflexivity|].
                cbn [app take_while] in Hhit |- *.
                destruct (is_alnum b); [discriminate Hhit | reflexivity]. }
              rewrite Hmiss. apply extract_basic_id_none, Hno.
  - intros before. induction before as [|a before IH]; intros tail after Hno Hne Hall Ha.
    + apply extract_basic_id_found; assumption.
    + cbn [app _extract_basic_id].
      assert (Hmiss : (a =? 64)%N
                      && truthy (take_while is_alnum (before ++ 64%N :: tail ++ after))
                      = false).
      { destruct (a =? 64)%N eqn:Ea; [|reflexivity]. cbn [andb].
        apply N.eqb_eq in Ea. subst a.
        destruct before as [|b before]; [reflexivity|].
        cbn [app take_while]. destruct (is_alnum b) eqn:Hb; [|reflexivity].
        destruct Hno. exists [], b, before. split; [reflexivity | exact Hb]. }
      rewrite Hmiss. apply IH; try assumption.
      intros H. apply Hno, has_identifier_tail, H.
Qed.

Lemma guarded_rows (row : Z) (col value : pystr) (populated : bool) :
  Forall (fun u => upd_row u = row) (guarded row col value populated)
  /\ (length (guarded row col value populated) <= 1)%nat.
Proof.
  unfold guarded. destruct (populated && negb (eqb col (py "-"))); cbn [length].
  - split; [repeat constructor | lia].
  - split; [constructor | lia].
Qed.

(** X9. The write-back of a record addresses the row of that record only,
    issues at most five updates, and issues none when the workflow
    failed. *)
Theorem write_back_own_row (config : RunnerConfig) (w : Workflow)
        (account : AccountRow) (image_path : pystr) :
  let p := process_account (email config) w account image_path
                           (get_column_config config) in
  Forall (fun u => upd_row u = Sheets.row_number account) (updates p)
  /\ (length (updates p) <= 5)%nat
  /\ (success (fst (create_account w account image_path)) = false ->
      updates p = []).
Proof.
  intros p. subst p. rewrite process_account_updates, write_results_config.
  cbn [snd]. destruct (success _).
  - split; [|split; [|discriminate]].
    + repeat (apply Forall_app; split); apply guarded_rows.
    + rewrite !length_app.
      repeat match goal with
             | |- context [length (guarded ?r ?c ?v ?b)] =>
                 let H := fresh in
                 pose proof (proj2 (guarded_rows r c v b)) as H;
                 generalize dependent (length (guarded r c v b)); intros
             end.
      lia.
  - split; [constructor|]. split; [cbn; lia | reflexivity].
Qed.

(** X10. For every record whose workflow succeeded, whatever its slots
    hold, the login address is written into the owning-account column
    exactly when that column is not "-". *)
Theorem owning_account_written (config : RunnerConfig) (w : Workflow)
        (account : AccountRow) (image_path : pystr) :
  success (fst (create_account w account image_path)) = true ->
  let p := process_account (email config) w account image_path
                           (get_column_config config) in
  In {| upd_row := Sheets.row_number account;
        upd_col_letter := col_business_account config;
        upd_value := email config |} (updates p)
  <-> col_business_account config <> py "-".
Proof.
  intros Hs p. split.
  - intros Hin Hdash.
    pose proof (dash_never_written config w account image_path) as Hall.
    rewrite List.Forall_forall in Hall. apply (Hall _ Hin). exact Hdash.
  - intros Hcol. subst p.
    rewrite process_account_updates, write_results_config, Hs. cbn [snd].
    do 4 (apply in_or_app; right).
    unfold guarded, eqb. rewrite bool_decide_eq_false_2 by exact Hcol.
    left. reflexivity.
Qed.

(** What the text scan leaves in [access_token]: nothing, or a string of
    the token shape. *)
Lemma scan_elements_shape (els : list TextRead) (tok : pystr) :
  scan_elements els = Ok tok -> tok = [] \/ token_shape tok.
Proof.
  induction els as [|r els IH]; cbn [scan_elements].
  - intros [= <-]. left. reflexivity.
  - destruct r as [e|[text|]]; [discriminate | | exact IH].
    destruct (truthy text); cbn [negb]; [|exact IH].
    destruct (looks_like_token (strip_label text)) eqn:Hl; [|exact IH].
    intros [= <-]. right. apply looks_like_token_shape, Hl.
Qed.

(** X11. A non-empty token returned by [_get_access_token] comes either
    from the text scan, and then has the token shape (longer than 100, no
    space, base64 alphabet), or from the [content] attribute of
    [div.copyable], which is taken without any check but stripped. *)
Theorem access_token_origin (page : TokenPage) (tok : pystr) :
  fst (_get_access_token page) = Some tok ->
  tok <> [] ->
  (token_shape tok /\ snd (_get_access_token page) = [EvScan])
  \/ (exists content,
         copyable page = Ok (Some (Ok (Some content)))
         /\ tok = strip content
         /\ snd (_get_access_token page) = [EvScan; EvFallback]).
Proof.
  unfold _get_access_token, find_token.
  destruct (console_steps page); [cbn; intros [= <-]; congruence|].
  destruct (elements page) as [els|e]; [|cbn; intros [= <-]; congruence].
  destruct (scan_elements els) as [found|e] eqn:Hscan;
    [|cbn; intros [= <-]; congruence].
  destruct (truthy found) eqn:Hfound; cbn [negb].
  - destruct found as [|c t]; [discriminate Hfound|]. cbn [fst snd].
    intros [= <-] _. left.
    destruct (scan_elements_shape _ _ Hscan) as [E|Hshape]; [discriminate E|].
    rewrite (token_shape_strip _ Hshape). split; [exact Hshape | reflexivity].
  - destruct (copyable page) as [[[content|e]|]|e];
      try (cbn; intros [= <-]; congruence).
    destruct content as [[|c t]|]; try (cbn; intros [= <-]; congruence).
    cbn [fst snd]. intros [= <-] _. right.
    exists (c :: t). repeat split.
Qed.

End IdentifierMore.

Section LoginMore.
Import Automation AuthSpec Urls.

Lemma count_app (kind : AuthEvent -> bool) (a b : list AuthEvent) :
  count kind (a ++ b) = (count kind a + count kind b)%nat.
Proof. unfold count. rewrite List.filter_app, List.length_app. reflexivity. Qed.

(** X12. After the wait for the manager address has timed out,
    [_login_with_credentials] takes any address that holds
    "manager.line.biz" for the manager, also one that holds "login":
    [LINE_LOGIN_URL] itself, which names the manager in its redirect
    parameter, counts as a successful login and the session is saved,
    although [_try_restore_session] refuses a restore that lands on the
    same address. *)
Theorem login_page_taken_for_manager (cenv : CredEnv) (st : AuthState) (e : exn) :
  login_nav cenv = None ->
  form_steps cenv = None ->
  url_wait cenv = Some e ->
  captcha_on_timeout cenv = false ->
  url_on_timeout cenv = LINE_LOGIN_URL ->
  let out := _login_with_credentials cenv st in
  fst (fst out) = Ok true
  /\ is_logged_in (snd (fst out)) = true
  /\ (forall cookies,
         browser_cookies cenv = Ok cookies -> save_fault cenv = WriteOk ->
         fs (snd (fst out)) = Some (Stored cookies))
  /\ on_manager LINE_LOGIN_URL = false
  /\ (forall renv st0 cookies,
         fs st0 = Some (Stored cookies) ->
         add_cookies_raises renv = None -> navigate_raises renv = None ->
         restored_url renv = LINE_LOGIN_URL ->
         fst (fst (_try_restore_session renv st0)) = false).
Proof.
  intros Hnav Hform Hwait Hcap Hurl out. subst out.
  assert (Hhost : contains LINE_LOGIN_URL (py "manager.line.biz") = true)
    by (vm_compute; reflexivity).
  assert (Hlogin : contains LINE_LOGIN_URL (py "login") = true)
    by (vm_compute; reflexivity).
  unfold _login_with_credentials. rewrite Hnav, Hform, Hwait, Hcap, Hurl, Hhost.
  unfold _save_session, save_session.
  split; [|split; [|split; [|split]]].
  - destruct (browser_cookies cenv); [destruct (save_fault cenv)|]; reflexivity.
  - destruct (browser_cookies cenv); [destruct (save_fault cenv)|]; reflexivity.
  - intros cookies -> ->. reflexivity.
  - unfold on_manager. rewrite Hhost, Hlogin. reflexivity.
  - intros renv st0 cookies Hfs Hadd Hn Hu.
    unfold _try_restore_session. rewrite Hfs, Hadd, Hn, Hu, Hhost, Hlogin.
    cbn [has_session load_session negb andb].
    destruct (truthy cookies), (clear_session (unlink_raises renv) _); reflexivity.
Qed.

(** What [_try_restore_session] does to the flag and which calls it makes. *)
Lemma restore_effects (renv : RestoreEnv) (st : AuthState) :
  let out := _try_restore_session renv st in
  is_logged_in (snd (fst out)) = (fst (fst out) || is_logged_in st)
  /\ count is_attempt (snd out) = 0%nat
  /\ count is_save (snd out) = 0%nat
  /\ (count is_clear (snd out) <= 1)%nat
  /\ (fst (fst out) = true -> fs (snd (fst out)) = fs st).
Proof.
  unfold _try_restore_session.
  destruct (fs st) as [[| | |cookies]|] eqn:Hfs;
    cbn [has_session load_session negb fst snd];
    try (repeat split; cbn; lia).
  destruct cookies as [|c cookies]; cbn [truthy];
    [|destruct (add_cookies_raises renv)];
    try (repeat split; cbn; lia);
    destruct (navigate_raises renv);
    try (repeat split; cbn; lia);
    destruct (contains (restored_url renv) (py "manager.line.biz")
              && negb (contains (restored_url renv) (py "login")));
    try (repeat split; cbn; try lia; try (symmetry; exact Hfs));
    destruct (unlink_raises renv); cbn; repeat split; try lia; discriminate.
Qed.

(** What [_login_with_credentials] does to the flag and which calls it
    makes. *)
Lemma credentials_effects (cenv : CredEnv) (st : AuthState) :
  let out := _login_with_credentials cenv st in
  (fst (fst out) = Ok true -> is_logged_in (snd (fst out)) = true)
  /\ (fst (fst out) <> Ok true -> snd (fst out) = st)
  /\ count is_attempt (snd out) = 1%nat
  /\ count is_clear (snd out) = 0%nat
  /\ (count is_save (snd out) <= 1)%nat
  /\ (count is_save (snd out) = 1%nat -> fst (fst out) = Ok true).
Proof.
  unfold _login_with_credentials, _save_session, save_session.
  destruct (login_nav cenv), (form_steps cenv), (captcha_after_submit cenv),
           (url_wait cenv), (captcha_on_timeout cenv);
    cbn [fst snd app];
    repeat match goal with
           | |- context [if contains ?u ?n then _ else _] => destruct (contains u n)
           | |- context [match browser_cookies cenv with _ => _ end] =>
               destruct (browser_cookies cenv)
           | |- context [match save_fault cenv with _ => _ end] =>
               destruct (save_fault cenv)
           end;
    cbn; repeat split; intros; try reflexivity; try lia; try congruence.
Qed.

(** X13. Whatever the browser and the file system do, [login] leaves
    [is_logged_in] set when it returns True and as it was otherwise; it
    enters the interactive login at most once, clears the session file at
    most once, and saves a session at most once, only when it returns True
    after an interactive login. *)
Theorem login_effects (renv : RestoreEnv) (cenv : CredEnv) (st : AuthState) :
  let out := login renv cenv st in
  (fst (fst out) = Ok true -> is_logged_in (snd (fst out)) = true)
  /\ (fst (fst out) <> Ok true ->
      is_logged_in (snd (fst out)) = is_logged_in st)
  /\ (count is_attempt (snd out) <= 1)%nat
  /\ (count is_clear (snd out) <= 1)%nat
  /\ (count is_save (snd out) <= 1)%nat
  /\ (count is_save (snd out) = 1%nat ->
      fst (fst out) = Ok true /\ count is_attempt (snd out) = 1%nat).
Proof.
  unfold login.
  pose proof (restore_effects renv st) as Hr. cbn zeta in Hr.
  destruct (_try_restore_session renv st) as [[restored st1] ev1].
  cbn [fst snd] in Hr. destruct Hr as (Hflag & Ha1 & Hs1 & Hc1 & _).
  destruct restored.
  - cbn [fst snd]. rewrite Ha1, Hs1. cbn [orb] in Hflag.
    repeat split; try assumption; try lia; congruence.
  - pose proof (credentials_effects cenv st1) as Hc. cbn zeta in Hc.
    destruct (_login_with_credentials cenv st1) as [[r st2] ev2].
    cbn [fst snd] in *. destruct Hc as (Ht & Hf & Ha2 & Hc2 & Hs2 & Hs2').
    rewrite !count_app, Ha1, Hs1, Ha2, Hc2. cbn [orb] in Hflag.
    repeat split; try assumption; try lia.
    + intros Hne. rewrite (Hf Hne). exact Hflag.
    + apply Hs2'. lia.
Qed.

(** X14. A session saved by an interactive login is used by the next
    login: when the first [login] finds no session file, logs in
    interactively and saves the cookies, a second [login] on a fresh
    object finds them, hands them to the browser and, when the manager
    accepts them, returns True without an interactive login and without
    touching the file. *)
Theorem saved_session_is_reused (renv1 renv2 : RestoreEnv) (cenv1 cenv2 : CredEnv)
        (st : AuthState) (cookies : list Cookie) :
  fs st = None ->
  login_nav cenv1 = None -> form_steps cenv1 = None -> url_wait cenv1 = None ->
  browser_cookies cenv1 = Ok cookies -> cookies <> [] ->
  save_fault cenv1 = WriteOk ->
  add_cookies_raises renv2 = None -> navigate_raises renv2 = None ->
  on_manager (restored_url renv2) = true ->
  let first := login renv1 cenv1 st in
  let fresh := {| fs := fs (snd (fst first)); is_logged_in := false;
                  context_cookies := [] |} in
  let second := login renv2 cenv2 fresh in
  fst (fst first) = Ok true
  /\ fs (snd (fst first)) = Some (Stored cookies)
  /\ fst (fst second) = Ok true
  /\ context_cookies (snd (fst second)) = cookies
  /\ count is_attempt (snd second) = 0%nat
  /\ fs (snd (fst second)) = Some (Stored cookies).
Proof.
  intros Hfs Hnav Hform Hwait Hcookies Hne Hsave Hadd Hn Hurl first fresh second.
  assert (Hfirst : first = (Ok true,
                            {| fs := Some (Stored cookies); is_logged_in := true;
                               context_cookies := context_cookies st |},
                            [EvLoginWithCredentials; EvSubmitCredentials]
                              ++ (if captcha_after_submit cenv1
                                  then [EvCaptchaWait] else [])
                              ++ [EvSaveSession true])).
  { subst first. unfold login, _try_restore_session. rewrite Hfs.
    cbn [has_session negb].
    unfold _login_with_credentials, _save_session, save_session.
    rewrite Hnav, Hform, Hwait, Hcookies, Hsave. cbn [app fs logged_in].
    destruct (captcha_after_submit cenv1); reflexivity. }
  subst second fresh. rewrite Hfirst. cbn [fst snd fs].
  unfold login, _try_restore_session. cbn [fs has_session load_session negb].
  destruct cookies as [|c cookies]; [congruence|]. cbn [truthy].
  unfold on_manager in Hurl. rewrite Hadd, Hn, Hurl.
  repeat split.
Qed.

(** X15. A session file that cannot be read, holds a falsy value, or holds
    something that is not an object is never cleared by the restore: the
    restore fails without touching the file or the browser, the
    interactive login is entered, and when that login does not succeed the
    file is still there. *)
Theorem unreadable_session_is_kept (renv : RestoreEnv) (cenv : CredEnv)
        (st : AuthState) (file : SessionFile) :
  fs st = Some file ->
  (file = Unreadable \/ file = FalsyJson \/ file = NotADict) ->
  let out := login renv cenv st in
  _try_restore_session renv st = (false, st, [EvLoadSession])
  /\ count is_clear (snd out) = 0%nat
  /\ count is_attempt (snd out) = 1%nat
  /\ (fst (fst out) <> Ok true -> fs (snd (fst out)) = Some file).
Proof.
  intros Hfs Hfile out.
  assert (Hr : _try_restore_session renv st = (false, st, [EvLoadSession])).
  { unfold _try_restore_session. rewrite Hfs.
    destruct Hfile as [-> | [-> | ->]]; reflexivity. }
  subst out. unfold login. rewrite Hr.
  pose proof (credentials_effects cenv st) as Hc. cbn zeta in Hc.
  destruct (_login_with_credentials cenv st) as [[r st2] ev2].
  cbn [fst snd] in *. destruct Hc as (_ & Hf & Ha & Hc & _).
  rewrite !count_app, Ha, Hc.
  repeat split. intros Hne. rewrite (Hf Hne). exact Hfs.
Qed.

End LoginMore.

Section ChallengeDetection.
Import Captcha.

Lemma over_ten_spec (x : Q) : over_ten x = true <-> QArith_base.Qlt ten x.
Proof.
  unfold over_ten. rewrite negb_true_iff. split.
  - intros Hle. apply QArith_base.Qnot_le_lt. intros Hx.
    apply QArith_base.Qle_bool_iff in Hx. congruence.
  - intros Hlt. destruct (QArith_base.Qle_bool x ten) eqn:Hle; [|reflexivity].
    apply QArith_base.Qle_bool_iff in Hle.
    exfalso. exact (QArith_base.Qlt_not_le _ _ Hlt Hle).
Qed.

Lemma detect_loop_found (page : pystr -> Probe) (selectors : list pystr) :
  detect_loop page selectors = Ok true
  <-> exists pre selector post,
        selectors = pre ++ selector :: post
        /\ shown (page selector)
        /\ Forall (fun s => ~ probe_raises (page s)) pre.
Proof.
  induction selectors as [|s rest IH]; cbn [detect_loop].
  - split; [discriminate|].
    intros (pre & sel & post & E & _). destruct pre; discriminate E.
  - assert (Hnext : ~ probe_raises (page s) -> ~ shown (page s) ->
                    (detect_loop page rest = Ok true
                     <-> exists pre selector post,
                           s :: rest = pre ++ selector :: post
                           /\ shown (page selector)
                           /\ Forall (fun s => ~ probe_raises (page s)) pre)).
    { intros Hnr Hns. rewrite IH. split.
      - intros (pre & sel & post & -> & Hsh & Hpre).
        exists (s :: pre), sel, post. repeat split; [exact Hsh|].
        constructor; assumption.
      - intros ([|s' pre] & sel & post & E & Hsh & Hpre); injection E as <- ->.
        + contradiction.
        + exists pre, sel, post. repeat split; [exact Hsh|].
          inversion Hpre; assumption. }
    assert (Hstop : probe_raises (page s) -> ~ shown (page s) ->
                    ~ exists pre selector post,
                        s :: rest = pre ++ selector :: post
                        /\ shown (page selector)
                        /\ Forall (fun s => ~ probe_raises (page s)) pre).
    { intros Hr Hns ([|s' pre] & sel & post & E & Hsh & Hpre); injection E as <- ->.
      - contradiction.
      - inversion Hpre; contradiction. }
    destruct (page s) as [e| |[[|]|e] [[box|]|e']] eqn:Hp;
      try (apply Hnext; [cbn; tauto | intros (b & Hb & _); discriminate Hb]);
      try (split; [discriminate|]; intros Hex; exfalso; revert Hex;
           apply Hstop; [cbn; tauto | intros (b & Hb & _); discriminate Hb]).
    destruct (over_ten (width box) && over_ten (height box)) eqn:Hbig.
    + split; [|reflexivity]. intros _.
      apply andb_true_iff in Hbig. destruct Hbig as [Hw Hh].
      exists [], s, rest. repeat split; [|constructor].
      rewrite Hp. exists box.
      split; [reflexivity|]. split; apply over_ten_spec; assumption.
    + apply Hnext; [cbn; tauto|].
      intros (b & Hb & Hw & Hh). injection Hb as <-.
      apply over_ten_spec in Hw, Hh. rewrite Hw, Hh in Hbig. discriminate Hbig.
Qed.

(** X16. [_detect_captcha] answers True exactly when some selector of its
    list finds an element that is visible and more than 10 wide and high,
    and no call for an earlier selector raised: an exception from
    [query_selector], [is_visible] or [bounding_box] ends the detection
    with False, also when a later selector would show the challenge. *)
Theorem detect_captcha_spec (page : pystr -> Probe) :
  _detect_captcha page = true
  <-> exists pre selector post,
        captcha_selectors = pre ++ selector :: post
        /\ shown (page selector)
        /\ Forall (fun s => ~ probe_raises (page s)) pre.
Proof.
  unfold _detect_captcha. rewrite <- detect_loop_found.
  destruct (detect_loop page captcha_selectors) as [[|]|e];
    split; congruence.
Qed.

End ChallengeDetection.

Section ModalFacts.
Import Modal.

Lemma close_rounds_spec (page : nat -> Round) :
  forall (left i : nat),
    let out := close_rounds page i left in
    (length (snd out) <= left)%nat
    /\ (forall k d, nth_error (snd out) k = Some d ->
                    dismissed_by (page (i + k)%nat) d)
    /\ (fst out = Ok tt -> (length (snd out) < left)%nat ->
        modal (page (i + length (snd out))%nat) = Ok false)
    /\ (forall e, fst out = Raised e ->
                  (length (snd out) < left)%nat
                  /\ raised_in (page (i + length (snd out))%nat) e).
Proof.
  induction left as [|left IH]; intros i; cbn [close_rounds].
  - cbn [fst snd length]. split; [lia|]. split; [intros [|k] d; discriminate|].
    split; [intros _ Hl; lia | discriminate].
  - assert (Hgo : forall d, dismissed_by (page i) d ->
              let out := (let '(r, ds) := close_rounds page (S i) left in
                          (r, d :: ds)) in
              (length (snd out) <= S left)%nat
              /\ (forall k d', nth_error (snd out) k = Some d' ->
                               dismissed_by (page (i + k)%nat) d')
              /\ (fst out = Ok tt -> (length (snd out) < S left)%nat ->
                  modal (page (i + length (snd out))%nat) = Ok false)
              /\ (forall e, fst out = Raised e ->
                            (length (snd out) < S left)%nat
                            /\ raised_in (page (i + length (snd out))%nat) e)).
    { intros d Hd. specialize (IH (S i)).
      destruct (close_rounds page (S i) left) as [r ds].
      cbn [fst snd length] in *. destruct IH as (Hlen & Hnth & Hok & Hraise).
      split; [lia|]. split; [|split].
      - intros [|k] d' E; cbn [nth_error] in E.
        + injection E as <-. rewrite Nat.add_0_r. exact Hd.
        + replace (i + S k)%nat with (S i + k)%nat by lia. apply Hnth, E.
      - intros Hr Hl. replace (i + S (length ds))%nat with (S i + length ds)%nat by lia.
        apply Hok; [exact Hr | lia].
      - intros e Hr. destruct (Hraise e Hr) as [Hl Hin].
        replace (i + S (length ds))%nat with (S i + length ds)%nat by lia.
        split; [lia | exact Hin]. }
    assert (Hend : forall r : outcome unit,
              (r = Ok tt -> modal (page i) = Ok false) ->
              (forall e, r = Raised e -> raised_in (page i) e) ->
              let out := (r, @nil Dismissal) in
              (length (snd out) <= S left)%nat
              /\ (forall k d', nth_error (snd out) k = Some d' ->
                               dismissed_by (page (i + k)%nat) d')
              /\ (fst out = Ok tt -> (length (snd out) < S left)%nat ->
                  modal (page (i + length (snd out))%nat) = Ok false)
              /\ (forall e, fst out = Raised e ->
                            (length (snd out) < S left)%nat
                            /\ raised_in (page (i + length (snd out))%nat) e)).
    { intros r Hok Hr. cbn [fst snd length]. rewrite Nat.add_0_r.
      split; [lia|]. split; [intros [|k] d'; discriminate|].
      split; [intros E _; apply Hok, E|].
      intros e E. split; [lia | apply Hr, E]. }
    unfold dismissed_by, raised_in, clicked in *.
    destruct (modal (page i)) as [[|]|e] eqn:Hm.
    + destruct (close_btn (page i)) as [[[e1|]|]|e1] eqn:H1;
        try (apply Hgo; tauto);
        (destruct (close_btn2 (page i)) as [[[e2|]|]|e2] eqn:H2;
         try (apply Hgo; repeat split; congruence);
         (destruct (escape (page i)) as [e3|] eqn:H3;
          [apply Hend; [discriminate|];
           intros e [= <-]; right; repeat split; congruence
          |apply Hgo; repeat split; congruence])).
    + apply Hend; [reflexivity | discriminate].
    + apply Hend; [discriminate | intros e' [= <-]; left; reflexivity].
Qed.

(** X17. [_close_modal_popups] dismisses at most five modals, one per
    round and only in rounds that showed one; it presses Escape only when
    neither close button could be clicked, so an exception from a click is
    swallowed; it returns early exactly at the first round without a
    modal; and the only exceptions that leave it are those of the modal
    query and of the Escape key press. *)
Theorem close_modal_popups_spec (page : nat -> Round) :
  let out := _close_modal_popups page in
  (length (snd out) <= 5)%nat
  /\ (forall k d, nth_error (snd out) k = Some d -> dismissed_by (page k) d)
  /\ (fst out = Ok tt -> (length (snd out) < 5)%nat ->
      modal (page (length (snd out))) = Ok false)
  /\ (forall e, fst out = Raised e ->
                (length (snd out) < 5)%nat
                /\ raised_in (page (length (snd out))) e).
Proof. exact (close_rounds_spec page 5 0). Qed.

End ModalFacts.

Section Frames.
Import Automation Runner RunnerSpec.
Context {A : Type} (f : RunnerState -> A).
Hypothesis f_control : forall c st, f (control c st) = f st.

(** What no control call changes is the same after every [await] and
    after the pause wait. *)
Lemma deliver_frame (calls : list Control) (st : RunnerState) :
  f (deliver calls st) = f st.
Proof.
  unfold deliver. revert st.
  induction calls as [|c calls IH]; intros st; cbn [fold_left]; [reflexivity|].
  rewrite IH. apply f_control.
Qed.

Lemma await_frame (sched : Schedule) (st : RunnerState) :
  f (snd (await sched st)) = f st.
Proof. destruct sched; cbn [await snd]; [reflexivity | apply deliver_frame]. Qed.

Lemma pause_wait_frame (sched : Schedule) :
  forall st, f (snd (pause_wait sched st)) = f st.
Proof.
  induction sched as [|calls sched IH]; intros st; cbn [pause_wait].
  - destruct (is_paused st); reflexivity.
  - destruct (is_paused st); [|reflexivity].
    destruct (should_stop (deliver calls st)); cbn [snd].
    + apply deliver_frame.
    + rewrite IH. apply deliver_frame.
Qed.

Hypothesis f_progress : forall c t st, f (report_progress c t st) = f st.
Hypothesis f_start : forall a p st, f (record_start a p st) = f st.
Hypothesis f_append : forall r st, f (append_result r st) = f st.

Lemma run_loop_frame (process : AccountRow -> Processed) (total : Z)
      (accounts : list AccountRow) :
  forall (idx : Z) (sched : Schedule) (st : RunnerState),
    f (snd (run_loop process total accounts idx sched st)) = f st.
Proof.
  induction accounts as [|account rest IH]; intros idx sched st; cbn [run_loop];
    [reflexivity|].
  destruct (should_stop st); [reflexivity|].
  pose proof (pause_wait_frame sched st) as Hw.
  destruct (pause_wait sched st) as [[sched1|] st1]; cbn [snd] in Hw;
    [|exact Hw].
  pose proof (await_frame sched1
                (record_start account (process account)
                   (report_progress (idx + 1) total st1))) as Hw2.
  destruct (await sched1 _) as [sched2 st3]. cbn [snd] in Hw2.
  rewrite f_start, f_progress in Hw2.
  destruct (returned (process account)) as [result|e]; cbn [snd];
    [|congruence].
  pose proof (await_frame sched2 (append_result result st3)) as Hw3.
  destruct (await sched2 _) as [sched3 st5]. cbn [snd] in Hw3.
  rewrite f_append in Hw3. rewrite IH. congruence.
Qed.

End Frames.

Section LoopTrace.
Import Automation Runner RunnerSpec.

Variable process : AccountRow -> Processed.
Variable result_of : AccountRow -> AutomationResult.
Hypothesis process_returns : forall a, returned (process a) = Ok (result_of a).

Lemma progress_control (c : Control) (st : RunnerState) :
  progress (control c st) = progress st.
Proof. destruct c; reflexivity. Qed.

Lemma seq_reports (idx total : Z) (n : nat) :
  (idx + 1, total) :: map (fun i => (idx + 1 + 1 + Z.of_nat i, total)) (seq 0 n)
  = map (fun i => (idx + 1 + Z.of_nat i, total)) (seq 0 (S n)).
Proof.
  cbn [seq map]. f_equal; [f_equal; lia|].
  rewrite <- seq_shift, map_map. apply map_ext. intros i. f_equal. lia.
Qed.

(** The loop, for the number [n] of records it hands to
    [process_account]: the records, their results, one progress report
    per record, and the cell updates of the records, all in order. *)
Lemma run_loop_trace (total : Z) (accounts : list AccountRow) :
  forall (idx : Z) (sched : Schedule) (st : RunnerState),
  exists n : nat,
    let out := run_loop process total accounts idx sched st in
    (n <= length accounts)%nat
    /\ started (snd out) = started st ++ firstn n accounts
    /\ results (snd out) = results st ++ map result_of (firstn n accounts)
    /\ progress (snd out)
       = progress st ++ map (fun i => (idx + 1 + Z.of_nat i, total)) (seq 0 n)
    /\ sheet_updates (snd out)
       = sheet_updates st
           ++ concat (map (fun a => updates (process a)) (firstn n accounts))
    /\ (fst out = Exhausted -> n = length accounts).
Proof.
  induction accounts as [|account rest IH]; intros idx sched st.
  - exists 0%nat. cbn. rewrite !app_nil_r. repeat split; lia.
  - cbn [run_loop].
    destruct (should_stop st) eqn:Hstop.
    + exists 0%nat. cbn. rewrite !app_nil_r. repeat split; [lia | discriminate].
    + pose proof (pause_wait_same_work sched st) as Hw.
      pose proof (pause_wait_frame progress progress_control sched st) as Hp.
      destruct (pause_wait sched st) as [[sched1|] st1]; cbn [snd] in Hw, Hp.
      * set (st2 := record_start account (process account)
                      (report_progress (idx + 1) total st1)).
        pose proof (await_same_work sched1 st2) as Hw2.
        pose proof (await_frame progress progress_control sched1 st2) as Hp2.
        destruct (await sched1 st2) as [sched2 st3]. cbn [snd] in Hw2, Hp2.
        rewrite process_returns.
        pose proof (await_same_work sched2 (append_result (result_of account) st3))
          as Hw3.
        pose proof (await_frame progress progress_control sched2
                      (append_result (result_of account) st3)) as Hp3.
        destruct (await sched2 _) as [sched3 st5]. cbn [snd] in Hw3, Hp3.
        destruct (IH (idx + 1) sched3 st5)
          as (n & Hn & Hst & Hres & Hprog & Hupd & Hex).
        exists (S n). cbn zeta in *. cbn [firstn map length concat].
        destruct Hw as (Hr1 & Hs1 & Hu1). destruct Hw2 as (Hr2 & Hs2 & Hu2).
        destruct Hw3 as (Hr3 & Hs3 & Hu3). subst st2.
        cbn [results started progress sheet_updates record_start append_result
             report_progress] in *.
        split; [lia|]. split; [|split; [|split; [|split]]].
        -- rewrite Hst, Hs3, Hs2, Hs1, <- app_assoc. reflexivity.
        -- rewrite Hres, Hr3, Hr2, Hr1, <- app_assoc. reflexivity.
        -- rewrite Hprog, Hp3, Hp2, Hp, <- app_assoc. f_equal.
           apply (seq_reports idx total n).
        -- rewrite Hupd, Hu3, Hu2, Hu1, <- !app_assoc. reflexivity.
        -- intros E. f_equal. apply Hex, E.
      * exists 0%nat. cbn. rewrite !app_nil_r.
        destruct Hw as (Hr1 & Hs1 & Hu1).
        repeat split; [lia | congruence | congruence | congruence | congruence
                       | discriminate].
Qed.

Lemma deliver_no_stop (calls : list Control) (st : RunnerState) :
  ~ In Stop calls -> should_stop (deliver calls st) = should_stop st.
Proof.
  unfold deliver. revert st.
  induction calls as [|c calls IH]; intros st Hno; cbn [fold_left]; [reflexivity|].
  rewrite IH by (intros Hin; apply Hno; right; exact Hin).
  destruct c; [reflexivity | reflexivity | exfalso; apply Hno; left; reflexivity].
Qed.

Lemma await_no_stop (sched : Schedule) (st : RunnerState) :
  Forall (fun calls => ~ In Stop calls) sched ->
  Forall (fun calls => ~ In Stop calls) (fst (await sched st))
  /\ should_stop (snd (await sched st)) = should_stop st.
Proof.
  destruct 1 as [|calls sched Hc Hs]; cbn [await fst snd].
  - split; [constructor | reflexivity].
  - split; [exact Hs | apply deliver_no_stop, Hc].
Qed.

Lemma pause_wait_no_stop (sched : Schedule) :
  forall st,
    Forall (fun calls => ~ In Stop calls) sched ->
    should_stop st = false ->
    should_stop (snd (pause_wait sched st)) = false
    /\ match fst (pause_wait sched st) with
       | Some sched' => Forall (fun calls => ~ In Stop calls) sched'
       | None => is_paused (snd (pause_wait sched st)) = true
       end.
Proof.
  induction sched as [|calls sched IH]; intros st Hq Hs; cbn [pause_wait].
  - destruct (is_paused st) eqn:Hp; cbn [fst snd]; split; assumption.
  - destruct (is_paused st) eqn:Hp; cbn [fst snd]; [|split; assumption].
    inversion Hq as [|? ? Hc Hq']; subst.
    pose proof (deliver_no_stop calls st Hc) as Hd. rewrite Hs in Hd.
    rewrite Hd. apply IH; assumption.
Qed.

(** Without a stop call the loop ends only when every record was visited,
    or never: it hangs in a pause that is not resumed. *)
Lemma run_loop_no_stop (total : Z) (accounts : list AccountRow) :
  forall (idx : Z) (sched : Schedule) (st : RunnerState),
    Forall (fun calls => ~ In Stop calls) sched ->
    should_stop st = false ->
    let out := run_loop process total accounts idx sched st in
    fst out = Exhausted \/ (fst out = Hung /\ is_paused (snd out) = true).
Proof.
  induction accounts as [|account rest IH]; intros idx sched st Hq Hs;
    cbn [run_loop]; [left; reflexivity|].
  rewrite Hs.
  destruct (pause_wait_no_stop sched st Hq Hs) as [Hs1 Hq1].
  destruct (pause_wait sched st) as [[sched1|] st1]; cbn [fst snd] in Hs1, Hq1;
    [|right; split; [reflexivity | exact Hq1]].
  set (st2 := record_start account (process account)
                (report_progress (idx + 1) total st1)).
  destruct (await_no_stop sched1 st2 Hq1) as [Hq2 Hs2].
  destruct (await sched1 st2) as [sched2 st3]. cbn [fst snd] in Hq2, Hs2.
  rewrite process_returns.
  destruct (await_no_stop sched2 (append_result (result_of account) st3) Hq2)
    as [Hq3 Hs3].
  destruct (await sched2 _) as [sched3 st5]. cbn [fst snd] in Hq3, Hs3.
  apply IH; [exact Hq3|].
  rewrite Hs3. cbn [should_stop append_result]. rewrite Hs2. exact Hs1.
Qed.

Lemma deliver_stop (calls : list Control) (st : RunnerState) :
  In Stop calls -> should_stop (deliver calls st) = true.
Proof.
  unfold deliver. revert st.
  induction calls as [|c calls IH]; intros st Hin; [destruct Hin|].
  cbn [fold_left]. destruct Hin as [-> | Hin]; [|apply IH, Hin].
  apply (deliver_keeps_stop calls (control Stop st)). reflexivity.
Qed.

Lemma run_loop_stopped (total : Z) (accounts : list AccountRow) (idx : Z)
      (sched : Schedule) (st : RunnerState) :
  should_stop st = true ->
  run_loop process total accounts idx sched st
  = (match accounts with [] => Exhausted | _ => Interrupted end, st).
Proof. intros Hs. destruct accounts; cbn [run_loop]; [|rewrite Hs]; reflexivity. Qed.

Lemma half_step (k : nat) : (S (S k) / 2 = S (k / 2))%nat.
Proof.
  replace (S (S k)) with (1 * 2 + k)%nat by lia.
  rewrite Nat.div_add_l by lia. lia.
Qed.

(** A stop that arrives while record [k] is processed, or in the sleep
    after it, lets that record finish and keeps its result; no later
    record is started. *)
Lemma run_loop_stop_after (total : Z) (accounts : list AccountRow) :
  forall (quiet : Schedule) (idx : Z) (calls : list Control) (later : Schedule)
         (st : RunnerState),
    Forall (fun c => c = []) quiet -> In Stop calls ->
    is_paused st = false -> should_stop st = false ->
    let out := run_loop process total accounts idx (quiet ++ calls :: later) st in
    let n := Nat.min (length accounts) (S (length quiet / 2)) in
    started (snd out) = started st ++ firstn n accounts
    /\ results (snd out) = results st ++ map result_of (firstn n accounts)
    /\ (fst out = Exhausted \/ fst out = Interrupted).
Proof.
  induction accounts as [|account rest IH];
    intros quiet idx calls later st Hq Hin Hp Hs.
  - cbn. rewrite !app_nil_r. repeat split. left. reflexivity.
  - cbn [run_loop]. rewrite Hs.
    assert (Hwait : forall sched, pause_wait sched st = (Some sched, st))
      by (intros [|? ?]; cbn [pause_wait]; rewrite Hp; reflexivity).
    rewrite Hwait. rewrite process_returns.
    set (st2 := record_start account (process account)
                  (report_progress (idx + 1) total st)).
    assert (Hend : forall sched3 st5,
               should_stop st5 = true ->
               started st5 = started st ++ [account] ->
               results st5 = results st ++ [result_of account] ->
               forall q, (q / 2 = 0)%nat ->
               let out := run_loop process total rest (idx + 1) sched3 st5 in
               let n := Nat.min (length (account :: rest)) (S (q / 2)) in
               started (snd out) = started st ++ firstn n (account :: rest)
               /\ results (snd out)
                  = results st ++ map result_of (firstn n (account :: rest))
               /\ (fst out = Exhausted \/ fst out = Interrupted)).
    { intros sched3 st5 Hs5 Hst5 Hr5 q Hq0. rewrite Hq0.
      rewrite (run_loop_stopped _ _ _ _ _ Hs5). cbn [fst snd length].
      replace (Nat.min (S (length rest)) 1) with 1%nat by lia.
      cbn [firstn map]. split; [exact Hst5|]. split; [exact Hr5|].
      destruct rest; [left | right]; reflexivity. }
    destruct quiet as [|q1 [|q2 quiet]].
    + cbn [app await].
      pose proof (deliver_stop calls st2 Hin) as Hs3.
      pose proof (deliver_same_work calls st2) as (Hr3 & Hst3 & _).
      set (st3 := deliver calls st2) in *.
      pose proof (await_keeps_stop later (append_result (result_of account) st3) Hs3)
        as Hs5.
      pose proof (await_same_work later (append_result (result_of account) st3))
        as (Hr5 & Hst5 & _).
      destruct (await later _) as [sched3 st5]. cbn [snd] in Hs5, Hr5, Hst5.
      apply (Hend sched3 st5 Hs5); [| |reflexivity].
      * rewrite Hst5. cbn [started append_result]. rewrite Hst3. reflexivity.
      * rewrite Hr5. cbn [results append_result]. rewrite Hr3. reflexivity.
    + inversion Hq as [|? ? E1 _]; subst q1. cbn [app await deliver fold_left].
      set (st4 := append_result (result_of account) st2).
      pose proof (deliver_stop calls st4 Hin) as Hs5.
      pose proof (deliver_same_work calls st4) as (Hr5 & Hst5 & _).
      apply (Hend later (deliver calls st4) Hs5); [| |reflexivity].
      * rewrite Hst5. reflexivity.
      * rewrite Hr5. reflexivity.
    + inversion Hq as [|? ? E1 Hq1]; subst. inversion Hq1 as [|? ? E2 Hq2]; subst.
      cbn [app await deliver fold_left].
      set (st4 := append_result (result_of account) st2).
      destruct (IH quiet (idx + 1) calls later st4 Hq2 Hin Hp Hs)
        as (Hst & Hres & Hexit).
      cbn zeta in *. cbn [length]. rewrite half_step.
      cbn [Nat.min firstn map].
      split; [|split; [|exact Hexit]].
      * rewrite Hst. subst st4 st2.
        cbn [started append_result record_start report_progress].
        rewrite <- app_assoc. reflexivity.
      * rewrite Hres. subst st4 st2.
        cbn [results append_result record_start report_progress].
        rewrite <- app_assoc. reflexivity.
Qed.

End LoopTrace.

Section RunMore.
Context `{U : UnicodeTable}.
Import Automation Runner RunnerSpec RunnerMore SheetsSpec.

Lemma enabled_rows_in_sheet (column_config : gmap pystr pystr)
      (all_values : list (list pystr)) (rows : list AccountRow) :
  get_enabled_rows (Some all_values) column_config = Ok rows ->
  Forall (fun a => HEADER_ROWS < Sheets.row_number a <= len all_values) rows.
Proof.
  intros Hrows. apply enabled_rows_computed in Hrows.
  rewrite Hrows. apply List.Forall_forall. intros a Ha.
  apply In_firstn in Ha. apply in_map_iff in Ha.
  destruct Ha as ([n row] & <- & Hin). cbn [fst snd].
  apply filter_In in Hin. destruct Hin as [Hin _].
  apply numbered_In in Hin. destruct Hin as (k & -> & Hk).
  assert (Hk' : nth_error all_values (2 + k) = Some row).
  { rewrite <- Hk. symmetry. apply nth_error_skipn. }
  assert (Hlt : (2 + k < length all_values)%nat).
  { apply nth_error_Some. rewrite Hk'. discriminate. }
  cbn [Sheets.row_number make_account]. unfold len, HEADER_ROWS. lia.
Qed.

Lemma process_with_rows (config : RunnerConfig) (env : RunEnv)
      (images : gmap Z pystr) (account : AccountRow) :
  Forall (fun u => upd_row u = Sheets.row_number account)
         (updates (process_with config env images account))
  /\ (length (updates (process_with config env images account)) <= 5)%nat.
Proof.
  unfold process_with. rewrite process_account_updates, write_results_config.
  cbn [snd]. destruct (success _); [|split; [constructor | cbn; lia]].
  split.
  - repeat (apply Forall_app; split); apply guarded_rows.
  - rewrite !length_app.
    repeat match goal with
           | |- context [length (WriteBackSpec.guarded ?r ?c ?v ?b)] =>
               let H := fresh in
               pose proof (proj2 (guarded_rows r c v b)) as H;
               generalize dependent (length (WriteBackSpec.guarded r c v b)); intros
           end.
    lia.
Qed.

Lemma results_control (c : Control) (st : RunnerState) :
  results (control c st) = results st.
Proof. destruct c; reflexivity. Qed.

(** Every exit of [run]: the records started, their results, the
    progress reports and the cell updates. *)
Lemma run_trace (config : RunnerConfig) (env : RunEnv) (st0 : RunnerState) :
  let out := run config env st0 in
  exists (n : nat) (accounts : list AccountRow),
    eligible config env = Ok accounts
    /\ (n <= length accounts)%nat
    /\ started (snd out) = started st0 ++ firstn n accounts
    /\ results (snd out) = map (result_in env) (firstn n accounts)
    /\ progress (snd out) = progress st0 ++ reports n (len accounts)
    /\ sheet_updates (snd out)
       = sheet_updates st0
           ++ concat (map (fun a => updates (process_with config env (images_of env) a))
                          (firstn n accounts)).
Proof.
  intros out. subst out. unfold run.
  destruct (get_enabled_rows_connected (get_column_config config) (all_values env))
    as [accounts Hrows].
  assert (Hel : eligible config env = Ok accounts) by exact Hrows.
  rewrite Hel.
  set (st := {| is_running := true; is_paused := is_paused st0;
                should_stop := false; results := []; started := started st0;
                progress := progress st0; sheet_updates := sheet_updates st0;
                browser_stops := browser_stops st0 |}).
  assert (Hearly : forall (b : bool) (st' : RunnerState) (ret : RunReturn),
             same_work st st' -> progress st' = progress st ->
             exists (n : nat) (accounts' : list AccountRow),
               Ok accounts = Ok accounts'
               /\ (n <= length accounts')%nat
               /\ started (snd (ret, cleanup b st')) = started st0 ++ firstn n accounts'
               /\ results (snd (ret, cleanup b st'))
                  = map (result_in env) (firstn n accounts')
               /\ progress (snd (ret, cleanup b st'))
                  = progress st0 ++ reports n (len accounts')
               /\ sheet_updates (snd (ret, cleanup b st'))
                  = sheet_updates st0
                      ++ concat (map (fun a => updates (process_with config env
                                                          (images_of env) a))
                                     (firstn n accounts'))).
  { intros b st' ret (Hr & Hs & Hu) Hp.
    exists 0%nat, accounts. cbn [fst snd firstn map concat reports seq].
    change (results (cleanup b st')) with (results st').
    change (started (cleanup b st')) with (started st').
    change (progress (cleanup b st')) with (progress st').
    change (sheet_updates (cleanup b st')) with (sheet_updates st').
    rewrite Hr, Hs, Hu, Hp, !app_nil_r. cbn [results started st].
    repeat split; try reflexivity; lia. }
  destruct (connect_ok env) eqn:Hconn; cbn [negb].
  2: { apply Hearly; [apply same_work_refl | reflexivity]. }
  destruct (truthy accounts) eqn:Hacc; cbn [negb].
  2: { apply Hearly; [apply same_work_refl | reflexivity]. }
  destruct (row_to_image env) as [images|e] eqn:Himg.
  2: { apply (Hearly false st (Returns (results st)));
       [apply same_work_refl | reflexivity]. }
  assert (Himages : images_of env = images)
    by (unfold images_of; rewrite Himg; reflexivity).
  rewrite Himages in Hearly |- *.
  pose proof (await_same_work (schedule env) st) as Hw1.
  pose proof (await_frame progress progress_control (schedule env) st) as Hp1.
  destruct (await (schedule env) st) as [sched1 st1]. cbn [snd] in Hw1, Hp1.
  destruct (start_ok env) eqn:Hstart; cbn [negb].
  2: { apply (Hearly true st1 (Returns [])); assumption. }
  pose proof (await_same_work sched1 st1) as Hw2.
  pose proof (await_frame progress progress_control sched1 st1) as Hp2.
  destruct (await sched1 st1) as [sched2 st2]. cbn [snd] in Hw2, Hp2.
  pose proof (same_work_trans _ _ _ Hw1 Hw2) as Hw12.
  rewrite Hp1 in Hp2.
  destruct (fst (fst (login (restore_env env) (cred_env env) (auth0 env))))
    as [[|]|e] eqn:Hlogin.
  2: { apply (Hearly true (stop_browser st2) (Returns [])); assumption. }
  2: { apply (Hearly true st2 (Returns (results st2))); assumption. }
  set (result_of := fun a : AccountRow =>
                      fst (create_account (site env a) a
                             (default [] (images !! Sheets.row_number a)))).
  destruct (run_loop_trace (process_with config env images) result_of
              (fun a => process_account_returns config (site env a) a _)
              (len accounts) accounts 0 sched2 st2)
    as (n & Hn & Hst & Hres & Hprog & Hupd & _).
  cbn zeta in Hn, Hst, Hres, Hprog, Hupd.
  destruct Hw12 as (Hr12 & Hs12 & Hu12).
  rewrite Hr12 in Hres. rewrite Hs12 in Hst. rewrite Hu12 in Hupd.
  rewrite Hp2 in Hprog.
  cbn [results started progress sheet_updates st app] in Hres, Hst, Hprog, Hupd.
  assert (Hreports : map (fun i => (0 + 1 + Z.of_nat i, len accounts)) (seq 0 n)
                     = reports n (len accounts)).
  { unfold reports. apply map_ext. intros i. f_equal. lia. }
  rewrite Hreports in Hprog.
  assert (Hresult : map result_of (firstn n accounts)
                    = map (result_in env) (firstn n accounts)).
  { apply map_ext. intros a. unfold result_of, result_in, images_of.
    rewrite Himg. reflexivity. }
  rewrite Hresult in Hres.
  destruct (run_loop (process_with config env images) (len accounts) accounts 0
                     sched2 st2) as [exit st3].
  cbn [fst snd] in *.
  exists n, accounts.
  destruct exit as [| |e|]; cbn [fst snd];
    change (results (cleanup true st3)) with (results st3);
    change (started (cleanup true st3)) with (started st3);
    change (progress (cleanup true st3)) with (progress st3);
    change (sheet_updates (cleanup true st3)) with (sheet_updates st3);
    repeat split; assumption.
Qed.

(** X18. [on_progress_update] is called once per result, with the
    1-based position of the record and, every time, the number of
    eligible records: the reports of a run are (1, total), ...,
    (n, total) for the n results it leaves. *)
Theorem run_progress_reports (config : RunnerConfig) (env : RunEnv)
        (st0 : RunnerState) :
  let out := run config env st0 in
  exists accounts : list AccountRow,
    eligible config env = Ok accounts
    /\ (length (results (snd out)) <= length accounts)%nat
    /\ progress (snd out)
       = progress st0 ++ reports (length (results (snd out))) (len accounts)
    /\ Forall (fun report => 1 <= fst report <= snd report)
              (reports (length (results (snd out))) (len accounts)).
Proof.
  intros out.
  destruct (run_trace config env st0) as (n & accounts & Hel & Hn & _ & Hres & Hprog & _).
  fold out in Hres, Hprog.
  assert (Hlen : length (results (snd out)) = n).
  { rewrite Hres, length_map, length_firstn. lia. }
  exists accounts. rewrite Hlen.
  split; [exact Hel|]. split; [exact Hn|]. split; [exact Hprog|].
  unfold reports. apply List.Forall_forall. intros report Hin.
  apply in_map_iff in Hin. destruct Hin as (i & <- & Hi).
  apply in_seq in Hi. cbn [fst snd]. unfold len. lia.
Qed.

(** X19. Every cell a run writes lies in the row of a record it handed to
    [process_account], a row below the two header rows and within the
    sheet; a run writes at most five cells per record started. *)
Theorem run_writes_started_rows (config : RunnerConfig) (env : RunEnv)
        (st0 : RunnerState) :
  let out := run config env st0 in
  exists (written : list CellUpdate) (handled : list AccountRow),
    sheet_updates (snd out) = sheet_updates st0 ++ written
    /\ started (snd out) = started st0 ++ handled
    /\ Forall (fun u => In (upd_row u) (map Sheets.row_number handled)
                        /\ HEADER_ROWS < upd_row u <= len (all_values env))
              written
    /\ (length written <= 5 * length handled)%nat.
Proof.
  intros out.
  destruct (run_trace config env st0)
    as (n & accounts & Hel & Hn & Hst & _ & _ & Hupd).
  fold out in Hst, Hupd.
  exists (concat (map (fun a => updates (process_with config env (images_of env) a))
                      (firstn n accounts))), (firstn n accounts).
  split; [exact Hupd|]. split; [exact Hst|].
  pose proof (enabled_rows_in_sheet _ _ _ Hel) as Hrows.
  assert (Hsub : Forall (fun a => HEADER_ROWS < Sheets.row_number a
                                  <= len (all_values env)) (firstn n accounts)).
  { apply List.Forall_forall. intros a Ha. apply In_firstn in Ha.
    revert a Ha. apply List.Forall_forall. exact Hrows. }
  clear Hrows Hst Hupd Hn.
  induction (firstn n accounts) as [|a l IH]; cbn [map concat length].
  - split; [constructor | lia].
  - inversion Hsub as [|? ? Ha Hl]; subst.
    destruct (IH Hl) as [IHrows IHlen].
    destruct (process_with_rows config env (images_of env) a) as [Hrow Hfive].
    split.
    + apply Forall_app. split.
      * eapply List.Forall_impl; [|exact Hrow]. cbn beta. intros u Hu.
        rewrite Hu. split; [left; reflexivity | exact Ha].
      * eapply List.Forall_impl; [|exact IHrows]. cbn beta.
        intros u [Hin Hb]. split; [right; exact Hin | exact Hb].
    + rewrite length_app. lia.
Qed.

Lemma running_control (c : Control) (st : RunnerState) :
  is_running (control c st) = is_running st.
Proof. destruct c; reflexivity. Qed.

Lemma stops_control (c : Control) (st : RunnerState) :
  browser_stops (control c st) = browser_stops st.
Proof. destruct c; reflexivity. Qed.

Lemma run_loop_hung (process : AccountRow -> Processed) (total : Z)
      (accounts : list AccountRow) :
  forall (idx : Z) (sched : Schedule) (st : RunnerState),
    fst (run_loop process total accounts idx sched st) = Hung ->
    is_paused (snd (run_loop process total accounts idx sched st)) = true.
Proof.
  assert (Hwait : forall sched st,
             fst (pause_wait sched st) = None ->
             is_paused (snd (pause_wait sched st)) = true).
  { induction sched as [|calls sched IH]; intros st; cbn [pause_wait].
    - destruct (is_paused st) eqn:Hp; cbn [fst snd]; [tauto | discriminate].
    - destruct (is_paused st) eqn:Hp; cbn [fst snd]; [|discriminate].
      destruct (should_stop (deliver calls st)); cbn [fst snd];
        [discriminate | apply IH]. }
  induction accounts as [|account rest IH]; intros idx sched st; cbn [run_loop];
    [discriminate|].
  destruct (should_stop st); [discriminate|].
  specialize (Hwait sched st).
  destruct (pause_wait sched st) as [[sched1|] st1]; cbn [fst snd] in *;
    [|intros _; apply Hwait; reflexivity].
  destruct (await sched1 _) as [sched2 st3].
  destruct (returned (process account)); [|discriminate].
  destruct (await sched2 _) as [sched3 st5]. apply IH.
Qed.

(** X20. Every return of [run] clears [is_running]; the browser is
    stopped on every return after the [LineAutomation] object was
    constructed, twice when [login] returned False, and never before
    (the [automation] field of the runner is unset until then); a run
    that does not return hangs paused, still marked as running and with
    the browser left open. *)
Theorem run_teardown (config : RunnerConfig) (env : RunEnv) (st0 : RunnerState) :
  let out := run config env st0 in
  match fst out with
  | Returns _ =>
      is_running (snd out) = false
      /\ browser_stops (snd out)
         = (browser_stops st0
            + (if automation_created config env
               then (if login_refused env then 2 else 1)
               else 0))%nat
  | NeverReturns =>
      is_running (snd out) = true
      /\ is_paused (snd out) = true
      /\ browser_stops (snd out) = browser_stops st0
      /\ automation_created config env = true
  end.
Proof.
  intros out. subst out. unfold run, automation_created, login_refused.
  destruct (get_enabled_rows_connected (get_column_config config) (all_values env))
    as [accounts Hrows].
  assert (Hel : eligible config env = Ok accounts) by exact Hrows.
  rewrite Hel.
  set (st := {| is_running := true; is_paused := is_paused st0;
                should_stop := false; results := []; started := started st0;
                progress := progress st0; sheet_updates := sheet_updates st0;
                browser_stops := browser_stops st0 |}).
  destruct (connect_ok env); cbn [negb andb fst snd];
    [|split; [reflexivity | cbn; lia]].
  destruct accounts as [|a accounts]; cbn [truthy negb andb fst snd];
    [split; [reflexivity | cbn; lia]|].
  destruct (row_to_image env) as [images|e]; cbn [fst snd];
    [|split; [reflexivity | cbn; lia]].
  pose proof (await_frame browser_stops stops_control (schedule env) st) as Hb1.
  pose proof (await_frame is_running running_control (schedule env) st) as Hr1.
  destruct (await (schedule env) st) as [sched1 st1]. cbn [snd] in Hb1, Hr1.
  destruct (start_ok env); cbn [negb andb fst snd].
  2: { split; [reflexivity|]. cbn [cleanup browser_stops]. rewrite Hb1. cbn. lia. }
  pose proof (await_frame browser_stops stops_control sched1 st1) as Hb2.
  pose proof (await_frame is_running running_control sched1 st1) as Hr2.
  destruct (await sched1 st1) as [sched2 st2]. cbn [snd] in Hb2, Hr2.
  rewrite Hb1 in Hb2. rewrite Hr1 in Hr2. cbn [browser_stops is_running st] in Hb2, Hr2.
  destruct (fst (fst (login (restore_env env) (cred_env env) (auth0 env))))
    as [[|]|e]; cbn [fst snd].
  - pose proof (run_loop_frame browser_stops stops_control
                  (fun _ _ _ => eq_refl) (fun _ _ _ => eq_refl) (fun _ _ => eq_refl)
                  (process_with config env images) (len (a :: accounts))
                  (a :: accounts) 0 sched2 st2) as Hb3.
    pose proof (run_loop_frame is_running running_control
                  (fun _ _ _ => eq_refl) (fun _ _ _ => eq_refl) (fun _ _ => eq_refl)
                  (process_with config env images) (len (a :: accounts))
                  (a :: accounts) 0 sched2 st2) as Hr3.
    pose proof (run_loop_hung (process_with config env images) (len (a :: accounts))
                  (a :: accounts) 0 sched2 st2) as Hh.
    destruct (run_loop _ _ _ _ _ _) as [exit st3]. cbn [fst snd] in Hb3, Hr3, Hh.
    rewrite Hb2 in Hb3. rewrite Hr2 in Hr3.
    destruct exit; cbn [fst snd cleanup is_running browser_stops];
      try (split; [reflexivity | lia]).
    repeat split; [exact Hr3 | apply Hh; reflexivity | exact Hb3].
  - split; [reflexivity|]. cbn [cleanup stop_browser browser_stops]. lia.
  - split; [reflexivity|]. cbn [cleanup browser_stops]. lia.
Qed.

(** X21. Pausing never drops a record: when the preparation succeeds and
    the operator never calls [stop], whatever is paused and resumed, [run]
    either returns the results of all the eligible records, in order, or
    never returns because it waits in a pause that is not resumed. *)
Theorem pause_never_drops_a_record (config : RunnerConfig) (env : RunEnv)
        (st0 : RunnerState) (accounts : list AccountRow) :
  eligible config env = Ok accounts ->
  connect_ok env = true ->
  row_to_image env = Ok (images_of env) ->
  start_ok env = true ->
  fst (fst (login (restore_env env) (cred_env env) (auth0 env))) = Ok true ->
  Forall (fun calls => ~ In Stop calls) (schedule env) ->
  let out := run config env st0 in
  (fst out = Returns (map (result_in env) accounts)
   /\ started (snd out) = started st0 ++ accounts)
  \/ (fst out = NeverReturns /\ is_paused (snd out) = true).
Proof.
  intros Hel Hconn Himg Hstart Hlogin Hq out. subst out.
  unfold run. rewrite Hel, Hconn, Himg, Hstart, Hlogin. cbn [negb].
  destruct (truthy accounts) eqn:Hacc; cbn [negb].
  2: { destruct accounts; [|discriminate Hacc]. left. cbn. rewrite app_nil_r.
       split; reflexivity. }
  set (st := {| is_running := true; is_paused := is_paused st0;
                should_stop := false; results := []; started := started st0;
                progress := progress st0; sheet_updates := sheet_updates st0;
                browser_stops := browser_stops st0 |}).
  destruct (await_no_stop (schedule env) st Hq) as [Hq1 Hs1].
  pose proof (await_same_work (schedule env) st) as Hw1.
  destruct (await (schedule env) st) as [sched1 st1]. cbn [fst snd] in Hq1, Hs1, Hw1.
  destruct (await_no_stop sched1 st1 Hq1) as [Hq2 Hs2].
  pose proof (await_same_work sched1 st1) as Hw2.
  destruct (await sched1 st1) as [sched2 st2]. cbn [fst snd] in Hq2, Hs2, Hw2.
  assert (Hstop : should_stop st2 = false) by (rewrite Hs2, Hs1; reflexivity).
  destruct (same_work_trans _ _ _ Hw1 Hw2) as (Hr12 & Hs12 & _).
  set (process := process_with config env (images_of env)).
  pose proof (run_loop_no_stop process (result_in env)
                (fun a => process_account_returns config (site env a) a _)
                (len accounts) accounts 0 sched2 st2 Hq2 Hstop) as Hexit.
  destruct (run_loop_trace process (result_in env)
              (fun a => process_account_returns config (site env a) a _)
              (len accounts) accounts 0 sched2 st2)
    as (n & _ & Hst & Hres & _ & _ & Hex).
  cbn zeta in Hexit, Hst, Hres, Hex.
  destruct (run_loop process (len accounts) accounts 0 sched2 st2) as [exit st3].
  cbn [fst snd] in *.
  destruct Hexit as [-> | [-> Hp]].
  - left. cbn [fst snd].
    change (results (cleanup true st3)) with (results st3).
    change (started (cleanup true st3)) with (started st3).
    rewrite Hres, Hst, (Hex eq_refl), firstn_all, Hr12, Hs12. split; reflexivity.
  - right. split; [reflexivity | exact Hp].
Qed.

(** X22. A stop takes effect at the next record boundary.  When the
    preparation succeeds, nothing is paused, and the first control calls
    that arrive hold a [stop] and arrive after [quiet] suspensions of the
    worker (two for the start of the browser and the login, then two per
    record: its processing and the sleep after it), [run] returns the
    results of the records begun by then and of no other: the record
    being processed is finished and its result kept. *)
Theorem stop_lets_the_record_finish (config : RunnerConfig) (env : RunEnv)
        (st0 : RunnerState) (accounts : list AccountRow)
        (quiet : Schedule) (calls : list Control) (later : Schedule) :
  eligible config env = Ok accounts ->
  connect_ok env = true ->
  row_to_image env = Ok (images_of env) ->
  start_ok env = true ->
  fst (fst (login (restore_env env) (cred_env env) (auth0 env))) = Ok true ->
  is_paused st0 = false ->
  schedule env = quiet ++ calls :: later ->
  Forall (fun c => c = []) quiet ->
  In Stop calls ->
  let out := run config env st0 in
  let n := Nat.min (length accounts) (length quiet / 2) in
  fst out = Returns (map (result_in env) (firstn n accounts))
  /\ started (snd out) = started st0 ++ firstn n accounts.
Proof.
  intros Hel Hconn Himg Hstart Hlogin Hp Hsched Hq Hin out n. subst out.
  unfold run. rewrite Hel, Hconn, Himg, Hstart, Hlogin, Hsched. cbn [negb].
  destruct (truthy accounts) eqn:Hacc; cbn [negb].
  2: { destruct accounts; [|discriminate Hacc]. subst n. cbn.
       rewrite app_nil_r. split; reflexivity. }
  set (st := {| is_running := true; is_paused := is_paused st0;
                should_stop := false; results := []; started := started st0;
                progress := progress st0; sheet_updates := sheet_updates st0;
                browser_stops := browser_stops st0 |}).
  set (process := process_with config env (images_of env)).
  assert (Hbefore : forall sched2 st2,
             should_stop st2 = true -> same_work st st2 ->
             forall q, (q / 2 = 0)%nat ->
             let out := (let (l, st3) := run_loop process (len accounts) accounts 0
                                                  sched2 st2 in
                         match l with
                         | Hung => (NeverReturns, st3)
                         | _ => (Returns (results st3), cleanup true st3)
                         end) in
             fst out = Returns (map (result_in env)
                                    (firstn (Nat.min (length accounts) (q / 2)) accounts))
             /\ started (snd out)
                = started st0 ++ firstn (Nat.min (length accounts) (q / 2)) accounts).
  { intros sched2 st2 Hs2 (Hr & Hs & _) q ->.
    rewrite (run_loop_stopped process (len accounts) accounts 0 sched2 st2 Hs2).
    rewrite Nat.min_0_r. cbn [firstn map].
    destruct accounts; cbn [fst snd]; rewrite app_nil_r;
      change (started (cleanup true st2)) with (started st2);
      rewrite Hr, Hs; split; reflexivity. }
  destruct quiet as [|q1 [|q2 quiet]].
  - cbn [app await].
    pose proof (deliver_stop calls st Hin) as Hs1.
    pose proof (deliver_same_work calls st) as Hw1.
    pose proof (await_keeps_stop later (deliver calls st) Hs1) as Hs2.
    pose proof (await_same_work later (deliver calls st)) as Hw2.
    destruct (await later (deliver calls st)) as [sched2 st2]. cbn [snd] in Hs2, Hw2.
    apply (Hbefore sched2 st2 Hs2 (same_work_trans _ _ _ Hw1 Hw2) 0%nat).
    reflexivity.
  - inversion Hq as [|? ? E1 _]; subst q1. cbn [app await deliver fold_left].
    pose proof (deliver_stop calls st Hin) as Hs2.
    pose proof (deliver_same_work calls st) as Hw2.
    apply (Hbefore later (deliver calls st) Hs2 Hw2 1%nat). reflexivity.
  - inversion Hq as [|? ? E1 Hq1]; subst. inversion Hq1 as [|? ? E2 Hq2]; subst.
    cbn [app await deliver fold_left].
    destruct (run_loop_stop_after process (result_in env)
                (fun a => process_account_returns config (site env a) a _)
                (len accounts) accounts quiet 0 calls later st Hq2 Hin Hp eq_refl)
      as (Hst & Hres & Hexit).
    cbn zeta in Hst, Hres, Hexit. subst n. cbn [length]. rewrite half_step.
    destruct (run_loop process (len accounts) accounts 0 (quiet ++ calls :: later) st)
      as [exit st3].
    cbn [fst snd] in *.
    destruct Hexit as [-> | ->]; cbn [fst snd];
      change (started (cleanup true st3)) with (started st3);
      rewrite Hres, Hst; split; reflexivity.
Qed.

End RunMore.

Section TabFacts.
Import Browser.

Lemma latest_app (ps : list Page) (p : Page) : latest (ps ++ [p]) = Some p.
Proof.
  induction ps as [|q ps IH]; [reflexivity|].
  cbn [app latest]. destruct (ps ++ [p]) eqn:E; [|exact IH].
  destruct ps; discriminate E.
Qed.

Lemma latest_In (ps : list Page) (p : Page) : latest ps = Some p -> In p ps.
Proof.
  induction ps as [|q ps IH]; [discriminate|].
  cbn [latest]. destruct ps as [|q' ps].
  - intros [= <-]. left. reflexivity.
  - intros H. right. apply IH, H.
Qed.

Lemma remove_first_last (ps : list Page) (p : Page) :
  ~ In p ps -> remove_first p (ps ++ [p]) = Some ps.
Proof.
  induction ps as [|q ps IH]; intros Hnot; cbn [app remove_first].
  - rewrite Nat.eqb_refl. reflexivity.
  - destruct (Nat.eqb p q) eqn:E.
    + apply Nat.eqb_eq in E. exfalso. apply Hnot. left. symmetry. exact E.
    + rewrite IH; [reflexivity|]. intros Hin. apply Hnot. right. exact Hin.
Qed.

Lemma switch_polls_spec (env : TabEnv) (st : Tabs) :
  forall (left i : nat),
    let out := switch_polls env st i left in
    match fst (fst out) with
    | Ok None =>
        snd out = (i + left)%nat /\ snd (fst out) = st
        /\ (forall j, (i <= j < i + left)%nat -> stays env st j)
    | Ok (Some p) =>
        exists k, (i <= k < i + left)%nat /\ snd out = S k
                  /\ (forall j, (i <= j < k)%nat -> stays env st j)
                  /\ differs env st k p
                  /\ snd (fst out) = switched env k p
    | Raised e =>
        exists k p, (i <= k < i + left)%nat /\ snd out = S k
                    /\ (forall j, (i <= j < k)%nat -> stays env st j)
                    /\ differs env st k p
                    /\ ((load_raises env p = Some e /\ snd (fst out) = st)
                        \/ (load_raises env p = None
                            /\ stealth_raises env p = Some e
                            /\ snd (fst out) = switched env k p))
    end.
Proof.
  induction left as [|left IH]; intros i; cbn [switch_polls].
  - cbn [fst snd]. split; [lia|]. split; [reflexivity|]. intros j Hj. lia.
  - assert (Hnext : stays env st i ->
                    let out := switch_polls env st (S i) left in
                    match fst (fst out) with
                    | Ok None =>
                        snd out = (i + S left)%nat /\ snd (fst out) = st
                        /\ (forall j, (i <= j < i + S left)%nat -> stays env st j)
                    | Ok (Some p) =>
                        exists k, (i <= k < i + S left)%nat /\ snd out = S k
                                  /\ (forall j, (i <= j < k)%nat -> stays env st j)
                                  /\ differs env st k p
                                  /\ snd (fst out) = switched env k p
                    | Raised e =>
                        exists k p, (i <= k < i + S left)%nat /\ snd out = S k
                                    /\ (forall j, (i <= j < k)%nat -> stays env st j)
                                    /\ differs env st k p
                                    /\ ((load_raises env p = Some e
                                         /\ snd (fst out) = st)
                                        \/ (load_raises env p = None
                                            /\ stealth_raises env p = Some e
                                            /\ snd (fst out) = switched env k p))
                    end).
    { intros Hstay. specialize (IH (S i)). cbn zeta in IH |- *.
      assert (Hprev : forall k, (forall j, (S i <= j < k)%nat -> stays env st j) ->
                                forall j, (i <= j < k)%nat -> stays env st j).
      { intros k Hk j Hj. destruct (Nat.eq_dec j i) as [-> | Hne];
          [exact Hstay | apply Hk; lia]. }
      destruct (fst (fst (switch_polls env st (S i) left))) as [[p|]|e].
      - destruct IH as (k & Hk & Hs & Hbefore & Hd & Hst).
        exists k. split; [lia|]. split; [exact Hs|].
        split; [apply Hprev, Hbefore|]. split; assumption.
      - destruct IH as (Hs & Hst & Hall).
        split; [lia|]. split; [exact Hst|].
        apply Hprev. intros j Hj. apply Hall. lia.
      - destruct IH as (k & p & Hk & Hs & Hbefore & Hd & Hcase).
        exists k, p. split; [lia|]. split; [exact Hs|].
        split; [apply Hprev, Hbefore|]. split; assumption. }
    destruct (latest (context_pages env i)) as [p|] eqn:Hl;
      [|apply Hnext; left; exact Hl].
    case_bool_decide as Hsame; [apply Hnext; right; congruence|].
    assert (Hd : differs env st i p) by (split; assumption).
    destruct (load_raises env p) as [e|] eqn:Hload; cbn [fst snd].
    + exists i, p. split; [lia|]. split; [reflexivity|].
      split; [intros j Hj; lia|]. split; [exact Hd|].
      left. split; [exact Hload | reflexivity].
    + destruct (stealth_raises env p) as [e|] eqn:Hstealth; cbn [fst snd].
      * exists i, p. split; [lia|]. split; [reflexivity|].
        split; [intros j Hj; lia|]. split; [exact Hd|].
        right. split; [exact Hload|]. split; [exact Hstealth | reflexivity].
      * exists i. split; [lia|]. split; [reflexivity|].
        split; [intros j Hj; lia|]. split; [exact Hd | reflexivity].
Qed.

(** X23. [switch_to_new_tab] polls the context at most ten times, half a
    second apart.  It switches at the first poll at which the last page
    of the context is another page than the current one, whether or not
    that page is new, and then holds that page and the page list of that
    poll; it returns None after ten polls, unchanged, when no poll shows
    such a page.  When [wait_for_load_state] raises nothing was switched;
    when the stealth script raises the switch has already been made. *)
Theorem switch_to_new_tab_spec (env : TabEnv) (st : Tabs) :
  let out := switch_to_new_tab env st in
  match fst (fst out) with
  | Ok None =>
      snd out = 10%nat /\ snd (fst out) = st
      /\ (forall j, (j < 10)%nat -> stays env st j)
  | Ok (Some p) =>
      exists k, (k < 10)%nat /\ snd out = S k
                /\ (forall j, (j < k)%nat -> stays env st j)
                /\ differs env st k p
                /\ snd (fst out) = switched env k p
                /\ In p (pages (snd (fst out)))
  | Raised e =>
      exists k p, (k < 10)%nat /\ snd out = S k
                  /\ (forall j, (j < k)%nat -> stays env st j)
                  /\ differs env st k p
                  /\ ((load_raises env p = Some e /\ snd (fst out) = st)
                      \/ (load_raises env p = None
                          /\ stealth_raises env p = Some e
                          /\ snd (fst out) = switched env k p))
  end.
Proof.
  intros out. subst out. unfold switch_to_new_tab.
  pose proof (switch_polls_spec env st 10 0) as H. cbn zeta in H.
  destruct (fst (fst (switch_polls env st 0 10))) as [[p|]|e].
  - destruct H as (k & Hk & Hs & Hbefore & Hd & Hst).
    exists k. split; [lia|]. split; [exact Hs|].
    split; [intros j Hj; apply Hbefore; lia|]. split; [exact Hd|].
    split; [exact Hst|].
    rewrite Hst. cbn [pages switched]. apply latest_In, Hd.
  - destruct H as (Hs & Hst & Hall).
    split; [exact Hs|]. split; [exact Hst|]. intros j Hj. apply Hall. lia.
  - destruct H as (k & p & Hk & Hs & Hbefore & Hd & Hcase).
    exists k, p. split; [lia|]. split; [exact Hs|].
    split; [intros j Hj; apply Hbefore; lia|]. split; assumption.
Qed.

Lemma switch_polls_wait (env : TabEnv) (st : Tabs) (ps : list Page) :
  latest ps = page st ->
  forall (k left i : nat),
    (forall j, (i <= j < i + k)%nat -> context_pages env j = ps) ->
    switch_polls env st i (k + left) = switch_polls env st (i + k) left.
Proof.
  intros Hcur. induction k as [|k IH]; intros left i Hsame.
  - rewrite Nat.add_0_r. reflexivity.
  - cbn [Nat.add switch_polls]. rewrite (Hsame i) by lia. rewrite Hcur.
    replace (i + S k)%nat with (S i + k)%nat by lia.
    destruct (page st) as [c|].
    + rewrite bool_decide_eq_true_2 by reflexivity.
      apply IH. intros j Hj. apply Hsame. lia.
    + apply IH. intros j Hj. apply Hsame. lia.
Qed.

(** X24. Opening a tab and closing it again is a round trip.  When the
    current page is the last of the pages held, a new page appears behind
    them within ten polls, and nothing raises, [switch_to_new_tab]
    returns the new page, and [close_current_tab] after it closes that
    page only and leaves the object as it was: on the page it came from,
    with the pages it held. *)
Theorem new_tab_round_trip (env : TabEnv) (st : Tabs) (new : Page) (k : nat) :
  latest (pages st) = page st ->
  pages st <> [] ->
  ~ In new (pages st) ->
  (k < 10)%nat ->
  (forall j, (j < k)%nat -> context_pages env j = pages st) ->
  context_pages env k = pages st ++ [new] ->
  load_raises env new = None ->
  stealth_raises env new = None ->
  let opened := switch_to_new_tab env st in
  let closed := close_current_tab None (snd (fst opened)) in
  opened = (Ok (Some new), {| page := Some new; pages := pages st ++ [new] |}, S k)
  /\ closed = (Ok tt, st, [new]).
Proof.
  intros Hcur Hne Hnew Hk Hbefore Hat Hload Hstealth opened closed.
  assert (Hopened : opened = (Ok (Some new),
                              {| page := Some new; pages := pages st ++ [new] |},
                              S k)).
  { subst opened. unfold switch_to_new_tab.
    replace 10%nat with (k + S (9 - k))%nat by lia.
    rewrite (switch_polls_wait env st (pages st) Hcur k (S (9 - k)) 0)
      by (intros j Hj; apply Hbefore; lia).
    cbn [Nat.add switch_polls]. rewrite Hat, latest_app.
    rewrite bool_decide_eq_false_2.
    - rewrite Hload, Hstealth. reflexivity.
    - rewrite <- Hcur. intros E. symmetry in E. apply latest_In in E.
      contradiction. }
  split; [exact Hopened|].
  subst closed. rewrite Hopened. cbn [fst snd].
  unfold close_current_tab. cbn [page pages].
  assert (Hlen : (1 <? length (pages st ++ [new]))%nat = true).
  { apply Nat.ltb_lt. rewrite length_app. cbn [length].
    destruct (pages st); [congruence | cbn [length]; lia]. }
  rewrite Hlen, (remove_first_last _ _ Hnew), Hcur.
  destruct st; reflexivity.
Qed.

(** X25. [close_current_tab] never closes the only tab and never leaves
    the object without a page: with one page or none held it does
    nothing; otherwise it closes exactly the current page, takes its
    first occurrence out of the pages held, and moves to the last page
    that remains.  It raises, closing nothing, when the current page is
    not among the pages held. *)
Theorem close_current_tab_spec (close_raises : option exn) (st : Tabs) :
  let out := close_current_tab close_raises st in
  ((length (pages st) <= 1)%nat -> out = (Ok tt, st, []))
  /\ (forall current,
         (1 < length (pages st))%nat -> page st = Some current ->
         ~ In current (pages st) -> out = (Raised VALUE_ERROR, st, []))
  /\ (forall current,
         (1 < length (pages st))%nat -> page st = Some current ->
         In current (pages st) -> close_raises = None ->
         exists before after,
           pages st = before ++ current :: after
           /\ ~ In current before
           /\ pages (snd (fst out)) = before ++ after
           /\ pages (snd (fst out)) <> []
           /\ page (snd (fst out)) = latest (before ++ after)
           /\ (exists p, page (snd (fst out)) = Some p
                         /\ In p (pages (snd (fst out))))
           /\ snd out = [current]
           /\ fst (fst out) = Ok tt).
Proof.
  intros out. subst out. unfold close_current_tab.
  assert (Hremove : forall x l,
             (In x l ->
              exists before after,
                l = before ++ x :: after /\ ~ In x before
                /\ remove_first x l = Some (before ++ after))
             /\ (~ In x l -> remove_first x l = None)).
  { intros x. induction l as [|y l [IHin IHnot]]; cbn [remove_first].
    - split; [intros [] | reflexivity].
    - destruct (Nat.eqb x y) eqn:E.
      + apply Nat.eqb_eq in E. subst y. split.
        * intros _. exists [], l. repeat split. intros [].
        * intros Hnot. exfalso. apply Hnot. left. reflexivity.
      + apply Nat.eqb_neq in E. split.
        * intros [Hy | Hin]; [congruence|].
          destruct (IHin Hin) as (before & after & -> & Hnb & ->).
          exists (y :: before), after. repeat split.
          intros [Hy | Hb]; [congruence | contradiction].
        * intros Hnot. rewrite IHnot; [reflexivity|].
          intros Hin. apply Hnot. right. exact Hin. }
  split; [|split].
  - intros Hlen. replace (1 <? length (pages st))%nat with false; [reflexivity|].
    symmetry. apply Nat.ltb_ge. exact Hlen.
  - intros current Hlen Hpage Hnot.
    replace (1 <? length (pages st))%nat with true
      by (symmetry; apply Nat.ltb_lt; exact Hlen).
    rewrite Hpage, (proj2 (Hremove current (pages st)) Hnot). reflexivity.
  - intros current Hlen Hpage Hin ->.
    replace (1 <? length (pages st))%nat with true
      by (symmetry; apply Nat.ltb_lt; exact Hlen).
    destruct (proj1 (Hremove current (pages st)) Hin)
      as (before & after & Hsplit & Hnb & Hrem).
    rewrite Hpage, Hrem. cbn [fst snd page pages].
    assert (Hrest : before ++ after <> []).
    { intros E. rewrite Hsplit in Hlen. rewrite length_app in Hlen.
      apply (f_equal (@length _)) in E. rewrite length_app in E.
      cbn [length] in Hlen, E. lia. }
    exists before, after. repeat split; try assumption.
    destruct (before ++ after) as [|q l] eqn:E; [congruence|].
    assert (Hl : exists p, latest (q :: l) = Some p).
    { clear. revert q. induction l as [|q' l IH]; intros q.
      - exists q. reflexivity.
      - destruct (IH q') as [p Hp]. exists p. exact Hp. }
    destruct Hl as [p Hp]. exists p. split; [exact Hp | apply latest_In, Hp].
Qed.

End TabFacts.

Section DialogFacts.
Import App.

Lemma answers_without_dialog (answers : list Answer) (st : AppState) :
  pending st = 0%nat ->
  fold_left (fun s a => _on_captcha_required a s) answers st = st.
Proof.
  revert st. induction answers as [|a answers IH]; intros st Hs; cbn [fold_left];
    [reflexivity|].
  unfold _on_captcha_required at 2. rewrite Hs. apply IH, Hs.
Qed.

Lemma poll_without_dialog (sched : list (list Answer)) :
  forall st, captcha_event st = false -> pending st = 0%nat ->
             fst (poll sched st) = None
             /\ captcha_event (snd (poll sched st)) = false
             /\ pending (snd (poll sched st)) = 0%nat
             /\ emitted (snd (poll sched st)) = emitted st
             /\ clock_ms (snd (poll sched st)) = clock_ms st + POLL_MS * len sched.
Proof.
  induction sched as [|answers sched IH]; intros st Hev Hpen; cbn [poll];
    rewrite Hev.
  - cbn [fst snd]. repeat split; try assumption. unfold len. cbn. lia.
  - unfold sleep. rewrite (answers_without_dialog _ _ Hpen).
    destruct (IH (tick POLL_MS st) Hev Hpen) as (H1 & H2 & H3 & H4 & H5).
    repeat split; try assumption.
    rewrite H5. cbn [tick clock_ms]. unfold len. cbn [length]. lia.
Qed.

(** X26. A challenge dialog that the operator closes without confirming
    blocks the worker for good: the wait emitted its one notification,
    the flag was not set, and no answer given later reaches a dialog any
    more, so whatever the operator does afterwards the wait never ends;
    it goes on polling every half second. *)
Theorem rejected_dialog_blocks_worker (quiet : list (list Answer))
        (more : list Answer) (rest : list (list Answer)) (st : AppState) :
  captcha_event st = false ->
  pending st = 0%nat ->
  Forall (fun slot => slot = []) quiet ->
  let out := captcha_callback (quiet ++ (Rejected :: more) :: rest) st in
  fst out = None
  /\ captcha_event (snd out) = false
  /\ pending (snd out) = 0%nat
  /\ emitted (snd out) = S (emitted st)
  /\ clock_ms (snd out) = clock_ms st + POLL_MS * (len quiet + 1 + len rest).
Proof.
  intros Hev Hpen Hq out. subst out. unfold captcha_callback.
  rewrite poll_quiet by (assumption || exact Hev).
  set (s1 := tick (POLL_MS * len quiet) (emit st)).
  assert (Hs1e : captcha_event s1 = false) by exact Hev.
  assert (Hs1p : pending s1 = 1%nat) by (cbn; rewrite Hpen; reflexivity).
  cbn [poll]. rewrite Hs1e. unfold sleep. cbn [fold_left].
  set (s2 := _on_captcha_required Rejected s1).
  assert (Hs2 : pending s2 = 0%nat /\ captcha_event s2 = false
                /\ emitted s2 = S (emitted st)
                /\ clock_ms s2 = clock_ms st + POLL_MS * len quiet).
  { subst s2. unfold _on_captcha_required. rewrite Hs1p.
    cbn [pending captcha_event emitted clock_ms]. rewrite Hs1e.
    repeat split. }
  destruct Hs2 as (Hp2 & He2 & Hm2 & Hc2).
  rewrite (answers_without_dialog more s2 Hp2).
  destruct (poll_without_dialog rest (tick POLL_MS s2) He2 Hp2)
    as (H1 & H2 & H3 & H4 & H5).
  split; [exact H1|]. split; [exact H2|]. split; [exact H3|]. split.
  - rewrite H4. exact Hm2.
  - rewrite H5. cbn [tick clock_ms]. rewrite Hc2. lia.
Qed.

End DialogFacts.

Section MoreRuns.
Import Automation Runner RunnerSpec Examples MoreExamples.

(** The option "AA" of the column boxes is column 26. *)
Lemma column_options_decode_witness :
  _col_letter_to_index (H := uncased) (py "AA") = 26.
Proof.
  apply (proj2 (proj2 (column_options_decode (U := uncased))) 27%nat (py "AA")).
  reflexivity.
Defined.

(** "ab" and "AB" name the same column. *)
Lemma col_letter_to_index_injective_witness :
  _col_letter_to_index (H := uncased) (py "ab")
  = _col_letter_to_index (H := uncased) (py "AB").
Proof.
  apply (proj2 (col_letter_to_index_injective (U := uncased) (py "ab") (py "AB")
                  ltac:(discriminate) ltac:(discriminate)
                  ltac:(repeat constructor) ltac:(repeat constructor))).
  vm_compute. reflexivity.
Defined.

(** The records of [sheet] carry growing row numbers. *)
Lemma get_enabled_rows_invariants_witness :
  StronglySorted Z.lt (map Sheets.row_number sheet_rows).
Proof.
  apply (get_enabled_rows_invariants (U := uncased)
           (get_column_config config_columns) sheet sheet_rows).
  vm_compute. reflexivity.
Defined.

(** Without a column for the enabled flag no row of [sheet] is taken. *)
Lemma get_enabled_rows_nothing_witness :
  get_enabled_rows (H := uncased) (Some sheet) ∅ = Ok [].
Proof.
  apply (get_enabled_rows_nothing (U := uncased) ∅ sheet).
  left. reflexivity.
Defined.

(** The identifier of the address the manager shows after a creation. *)
Lemma extract_basic_id_leftmost_witness :
  _extract_basic_id (py "https://manager.line.biz/account/@abc123/home")
  = py "@abc123".
Proof.
  apply (proj2 extract_basic_id_leftmost
               (py "https://manager.line.biz/account/") (py "abc123") (py "/home")).
  - apply extract_basic_id_none. reflexivity.
  - discriminate.
  - repeat constructor.
  - reflexivity.
Defined.

(** The updates of the record of row 3 all address row 3. *)
Lemma write_back_own_row_witness :
  Forall (fun u => upd_row u = 3)
         (updates (process_account (email config_columns) site_ok
                                   (account 3 "Shop A") []
                                   (get_column_config config_columns))).
Proof.
  apply (write_back_own_row config_columns site_ok (account 3 "Shop A") []).
Defined.

(** The login address of the run is written into column G of row 3. *)
Lemma owning_account_written_witness :
  In {| upd_row := 3; upd_col_letter := py "G";
        upd_value := py "owner@example.com" |}
     (updates (process_account (email config_columns) site_ok
                               (account 3 "Shop A") []
                               (get_column_config config_columns))).
Proof.
  apply (proj2 (owning_account_written config_columns site_ok
                  (account 3 "Shop A") [] eq_refl)).
  discriminate.
Defined.

(** The token of [token_ok] comes from the text scan. *)
Lemma access_token_origin_witness :
  TokenSpec.token_shape token121
  /\ snd (_get_access_token token_ok) = [EvScan].
Proof.
  destruct (access_token_origin token_ok token121 eq_refl ltac:(discriminate))
    as [H | (content & Hc & _)].
  - exact H.
  - discriminate Hc.
Defined.

(** A refused login that stays on the login page is taken for a
    success. *)
Lemma login_page_taken_for_manager_witness :
  fst (fst (_login_with_credentials cred_stuck auth_stored)) = Ok true.
Proof.
  apply (login_page_taken_for_manager cred_stuck auth_stored
           (py "Timeout 10000ms exceeded.")); reflexivity.
Defined.

(** An expired session and a refused login: one interactive login. *)
Lemma login_effects_witness :
  (AuthSpec.count AuthSpec.is_attempt
     (snd (login restore_expired cred_refused auth_stored)) <= 1)%nat.
Proof.
  apply (login_effects restore_expired cred_refused auth_stored).
Defined.

(** The session saved by a first login is restored by the second. *)
Lemma saved_session_is_reused_witness :
  fst (fst (login restore_ok cred_refused
              {| fs := fs (snd (fst (login restore_expired cred_ok auth_none)));
                 is_logged_in := false; context_cookies := [] |}))
  = Ok true.
Proof.
  apply (saved_session_is_reused restore_expired restore_ok cred_ok cred_refused
           auth_none [py "ses=3"]);
    first [reflexivity | discriminate].
Defined.

(** A session file that does not parse survives a refused login. *)
Lemma unreadable_session_is_kept_witness :
  _try_restore_session restore_ok auth_garbled = (false, auth_garbled, [EvLoadSession]).
Proof.
  apply (unreadable_session_is_kept restore_ok cred_refused auth_garbled Unreadable
           eq_refl).
  left. reflexivity.
Defined.

(** The challenge in [#recaptcha] is detected. *)
Lemma detect_captcha_spec_witness :
  Captcha._detect_captcha recaptcha_page = true.
Proof.
  apply (proj2 (detect_captcha_spec recaptcha_page)).
  exists (firstn 3 Captcha.captcha_selectors), (py "#recaptcha"), [py "div[data-sitekey]"].
  split; [reflexivity|]. split.
  - eexists. split; [reflexivity|]. split; reflexivity.
  - repeat constructor; intros H; exact H.
Defined.

(** Two modals are closed by their close buttons. *)
Lemma close_modal_popups_spec_witness :
  Modal.modal (modal_twice (length (snd (Modal._close_modal_popups modal_twice))))
  = Ok false.
Proof.
  apply (close_modal_popups_spec modal_twice).
  - reflexivity.
  - vm_compute. lia.
Defined.

(** A run that is paused and resumed returns all three records. *)
Lemma pause_never_drops_a_record_witness :
  (fst (run (H := uncased) config_columns (env_with pause_and_resume) initial)
   = Returns (map (result_in (env_with pause_and_resume)) sheet_rows)
   /\ started (snd (run (H := uncased) config_columns (env_with pause_and_resume)
                        initial))
      = started initial ++ sheet_rows)
  \/ (fst (run (H := uncased) config_columns (env_with pause_and_resume) initial)
      = NeverReturns
      /\ is_paused (snd (run (H := uncased) config_columns
                             (env_with pause_and_resume) initial)) = true).
Proof.
  apply (pause_never_drops_a_record (U := uncased) config_columns
           (env_with pause_and_resume) initial sheet_rows);
    try reflexivity.
  repeat constructor; cbn; intuition discriminate.
Defined.

(** A stop during the first record: its result is returned, alone. *)
Lemma stop_lets_the_record_finish_witness :
  fst (run (H := uncased) config_columns (env_with stop_in_first_record) initial)
  = Returns (map (result_in (env_with stop_in_first_record)) (firstn 1 sheet_rows)).
Proof.
  apply (stop_lets_the_record_finish (U := uncased) config_columns
           (env_with stop_in_first_record) initial sheet_rows
           [ []; [] ] [Stop] []);
    try reflexivity.
  - repeat constructor.
  - left. reflexivity.
Defined.

(** With the third tab open at the third poll, the switch takes three
    sleeps. *)
Lemma switch_to_new_tab_spec_witness :
  exists k, (k < 10)%nat
            /\ snd (Browser.switch_to_new_tab third_tab_opens two_tabs) = S k.
Proof.
  pose proof (switch_to_new_tab_spec third_tab_opens two_tabs) as H.
  cbn zeta in H.
  change (fst (fst (Browser.switch_to_new_tab third_tab_opens two_tabs)))
    with (@Ok (option Browser.Page) (Some 3%nat)) in H.
  destruct H as (k & Hk & Hs & _). exists k. split; assumption.
Defined.

(** The third tab is opened and closed again. *)
Lemma new_tab_round_trip_witness :
  Browser.close_current_tab
    None (snd (fst (Browser.switch_to_new_tab third_tab_opens two_tabs)))
  = (Ok tt, two_tabs, [3%nat]).
Proof.
  apply (new_tab_round_trip third_tab_opens two_tabs 3%nat 2%nat);
    try reflexivity.
  - discriminate.
  - cbn. lia.
  - lia.
  - intros [|[|j]] Hj; [reflexivity | reflexivity | lia].
Defined.

(** The only tab is not closed. *)
Lemma close_current_tab_spec_witness :
  Browser.close_current_tab
    None {| Browser.page := Some 1%nat; Browser.pages := [1%nat] |}
  = (Ok tt, {| Browser.page := Some 1%nat; Browser.pages := [1%nat] |}, []).
Proof.
  apply (close_current_tab_spec
           None {| Browser.page := Some 1%nat; Browser.pages := [1%nat] |}).
  cbn. lia.
Defined.

(** A dialog closed without confirming, then another answer. *)
Lemma rejected_dialog_blocks_worker_witness :
  fst (App.captcha_callback [ []; [App.Rejected; App.Accepted]; [App.Accepted] ] app0)
  = None.
Proof.
  apply (rejected_dialog_blocks_worker [ [] ] [App.Accepted] [ [App.Accepted] ] app0
           eq_refl eq_refl).
  repeat constructor.
Defined.

End MoreRuns.
